(** * HealthMap: entity records, merge engine, validator, payload extraction
      and the single-entity / batch orchestrators.

    A shallow embedding of
      - backend/utils/json_utils.py   (validate_entity_json, merge_entity_data)
      - backend/enrichment/claude.py  (payload extraction of enrich_entity_data)
      - backend/main.py               (process_entity)
      - tools/batch_update.py         (process_entity_wrapper, batch_process)

    Python values that can come out of [json.loads] are embedded as the
    inductive type [json]; Python operations that can raise are embedded as
    functions into the error monad [result].  Strings are sequences of
    code points below 256; floating point numbers are not part of the
    embedding. *)

From Stdlib Require Import List String Ascii ZArith Bool Lia Permutation.
From Stdlib Require Import Decimal DecimalString.
Import ListNotations.
Open Scope string_scope.
Open Scope list_scope.

(** ** Python values *)

#[local] Set Warnings "-register-all".

Inductive json : Type :=
| JNull
| JBool (b : bool)
| JInt (n : Z)
| JStr (s : string)
| JArr (xs : list json)
| JObj (kvs : list (string * json)).

(** Exceptions the embedded code can raise. *)
Inductive exn : Type :=
| KeyError (key : string)
| TypeError
| AttributeError
| JSONDecodeError
| APIError (msg : string)
| OtherException (msg : string).

Inductive result (A : Type) : Type :=
| Ok (a : A)
| Raise (e : exn).
Arguments Ok {A} a.
Arguments Raise {A} e.

Definition bind {A B : Type} (m : result A) (k : A -> result B) : result B :=
  match m with
  | Ok a => k a
  | Raise e => Raise e
  end.

Notation "x <- m ;; k" := (bind m (fun x => k))
  (at level 61, m at next level, right associativity).

(** A loop [for x in xs: state = body(state, x)] whose body may raise. *)
Fixpoint foldM {A S : Type} (body : S -> A -> result S) (xs : list A) (s : S)
  : result S :=
  match xs with
  | [] => Ok s
  | x :: rest => s' <- body s x ;; foldM body rest s'
  end.

(** ** Dictionaries: insertion-ordered association lists with unique keys *)

Fixpoint dict_get (k : string) (kvs : list (string * json)) : option json :=
  match kvs with
  | [] => None
  | (k', v) :: rest => if String.eqb k k' then Some v else dict_get k rest
  end.

Definition dict_has (k : string) (kvs : list (string * json)) : bool :=
  match dict_get k kvs with Some _ => true | None => false end.

(** [d[k] = v]: an existing key keeps its position, a new key goes last. *)
Fixpoint dict_set (k : string) (v : json) (kvs : list (string * json))
  : list (string * json) :=
  match kvs with
  | [] => [(k, v)]
  | (k', v') :: rest =>
      if String.eqb k k' then (k', v) :: rest else (k', v') :: dict_set k v rest
  end.

(** ** Python primitives on values *)

(** [bool(x)] *)
Definition truthy (x : json) : bool :=
  match x with
  | JNull => false
  | JBool b => b
  | JInt n => negb (Z.eqb n 0)
  | JStr s => negb (String.eqb s "")
  | JArr xs => match xs with [] => false | _ => true end
  | JObj kvs => match kvs with [] => false | _ => true end
  end.

(** [x == y]: booleans compare as the integers 0 and 1, lists pointwise,
    dictionaries regardless of key order. *)
Fixpoint py_eq (x y : json) {struct x} : bool :=
  match x, y with
  | JNull, JNull => true
  | JBool a, JBool b => Bool.eqb a b
  | JBool a, JInt n => Z.eqb (Z.b2z a) n
  | JInt n, JBool b => Z.eqb n (Z.b2z b)
  | JInt n, JInt m => Z.eqb n m
  | JStr s, JStr t => String.eqb s t
  | JArr xs, JArr ys =>
      (fix go (xs ys : list json) {struct xs} : bool :=
         match xs, ys with
         | [], [] => true
         | a :: xs', b :: ys' => py_eq a b && go xs' ys'
         | _, _ => false
         end) xs ys
  | JObj kvs, JObj kvs' =>
      Nat.eqb (List.length kvs) (List.length kvs') &&
      (fix go (kvs : list (string * json)) {struct kvs} : bool :=
         match kvs with
         | [] => true
         | (k, v) :: rest =>
             match dict_get k kvs' with
             | Some v' => py_eq v v' && go rest
             | None => false
             end
         end) kvs
  | _, _ => false
  end.

(** Lists and dictionaries cannot be hashed. *)
Definition hashable (x : json) : bool :=
  match x with
  | JArr _ | JObj _ => false
  | _ => true
  end.

(** [hay.startswith(needle)] *)
Fixpoint starts_with (needle hay : string) : bool :=
  match needle, hay with
  | EmptyString, _ => true
  | String a needle', String b hay' => Ascii.eqb a b && starts_with needle' hay'
  | String _ _, EmptyString => false
  end.

(** [needle in hay] for two strings: substring test. *)
Fixpoint substring_in (needle hay : string) : bool :=
  starts_with needle hay ||
  match hay with
  | EmptyString => false
  | String _ rest => substring_in needle rest
  end.

(** [x in c] *)
Definition py_in (x c : json) : result bool :=
  match c with
  | JArr xs => Ok (existsb (py_eq x) xs)
  | JObj kvs =>
      match x with
      | JStr k => Ok (dict_has k kvs)
      | JArr _ | JObj _ => Raise TypeError
      | _ => Ok false
      end
  | JStr s =>
      match x with
      | JStr t => Ok (substring_in t s)
      | _ => Raise TypeError
      end
  | _ => Raise TypeError
  end.

(** [c[k]] with a string subscript. *)
Definition py_getitem (c : json) (k : string) : result json :=
  match c with
  | JObj kvs =>
      match dict_get k kvs with
      | Some v => Ok v
      | None => Raise (KeyError k)
      end
  | _ => Raise TypeError
  end.

(** [c[k] = v] with a string subscript. *)
Definition py_setitem (c : json) (k : string) (v : json) : result json :=
  match c with
  | JObj kvs => Ok (JObj (dict_set k v kvs))
  | _ => Raise TypeError
  end.

(** [c.copy()]: dictionaries and lists have it. *)
Definition py_copy (c : json) : result json :=
  match c with
  | JObj _ | JArr _ => Ok c
  | _ => Raise AttributeError
  end.

(** [c.append(x)] *)
Definition py_append (c x : json) : result json :=
  match c with
  | JArr xs => Ok (JArr (xs ++ [x]))
  | _ => Raise AttributeError
  end.

Fixpoint chars (s : string) : list json :=
  match s with
  | EmptyString => []
  | String a rest => JStr (String a EmptyString) :: chars rest
  end.

(** The items a [for] loop over [c] visits. *)
Definition py_iter (c : json) : result (list json) :=
  match c with
  | JArr xs => Ok xs
  | JStr s => Ok (chars s)
  | JObj kvs => Ok (map (fun kv => JStr (fst kv)) kvs)
  | _ => Raise TypeError
  end.

(** [k in c and c[k]], the guard used on every field of the incoming record. *)
Definition present_and_truthy (c : json) (k : string) : result bool :=
  b <- py_in (JStr k) c ;;
  if b then v <- py_getitem c k ;; Ok (truthy v) else Ok false.

(** ** The merge engine (json_utils.py, merge_entity_data)

    The embedding is by value.  In the source [existing_data.copy()] is a
    shallow copy, so the lists of [existing_data] are the lists of
    [merged_data] and are extended in place; that mutation of the argument
    does not show in the returned value, which is what is modelled here.
    A list that is appended to is written back under its key, which for a
    key that is present keeps the key's position. *)

Definition scalar_fields : list string := ["name"; "type"; "parent"; "revenue"].

(** Body of the loop over the scalar fields. *)
Definition merge_scalar (new_data merged_data : json) (field : string)
  : result json :=
  b <- present_and_truthy new_data field ;;
  if b
  then v <- py_getitem new_data field ;; py_setitem merged_data field v
  else Ok merged_data.

(** Body of the loop over the incoming subsidiaries; [cur] is the list
    object stored under [merged_data["subsidiaries"]]. *)
Definition add_subsidiary (cur subsidiary : json) : result json :=
  b <- py_in subsidiary cur ;;
  if b then Ok cur else py_append cur subsidiary.

(** [if key not in merged_data: merged_data[key] = []] *)
Definition ensure_list (merged_data : json) (key : string) : result json :=
  b <- py_in (JStr key) merged_data ;;
  if b then Ok merged_data else py_setitem merged_data key (JArr []).

Definition merge_subsidiaries (new_data merged_data : json) : result json :=
  b <- present_and_truthy new_data "subsidiaries" ;;
  if b then
    merged_data <- ensure_list merged_data "subsidiaries" ;;
    incoming <- py_getitem new_data "subsidiaries" ;;
    items <- py_iter incoming ;;
    cur <- py_getitem merged_data "subsidiaries" ;;
    cur <- foldM add_subsidiary items cur ;;
    py_setitem merged_data "subsidiaries" cur
  else Ok merged_data.

(** The lookup set of (target, type) tuples. *)
Definition keyset : Type := list (json * json).

Definition key_in (k : json * json) (ks : keyset) : bool :=
  existsb (fun k' => py_eq (fst k) (fst k') && py_eq (snd k) (snd k')) ks.

(** Hashing a tuple hashes its components. *)
Definition hash_key (k : json * json) : result unit :=
  if hashable (fst k) && hashable (snd k) then Ok tt else Raise TypeError.

(** [(rel["target"], rel["type"])] *)
Definition rel_key (rel : json) : result (json * json) :=
  t <- py_getitem rel "target" ;;
  ty <- py_getitem rel "type" ;;
  Ok (t, ty).

(** One step of the set comprehension over the existing relationships. *)
Definition collect_key (ks : keyset) (rel : json) : result keyset :=
  k <- rel_key rel ;;
  _ <- hash_key k ;;
  Ok (if key_in k ks then ks else ks ++ [k]).

(** Body of the loop over the incoming relationships; the state is the list
    object under [merged_data["relationships"]] and the lookup set. *)
Definition add_relationship (st : json * keyset) (rel : json)
  : result (json * keyset) :=
  let (cur, ks) := st in
  has_target <- py_in (JStr "target") rel ;;
  if has_target then
    has_type <- py_in (JStr "type") rel ;;
    if has_type then
      k <- rel_key rel ;;
      _ <- hash_key k ;;
      if key_in k ks then Ok (cur, ks)
      else
        cur <- py_append cur rel ;;
        Ok (cur, ks ++ [k])
    else Ok (cur, ks)
  else Ok (cur, ks).

Definition merge_relationships (new_data merged_data : json) : result json :=
  b <- present_and_truthy new_data "relationships" ;;
  if b then
    merged_data <- ensure_list merged_data "relationships" ;;
    cur <- py_getitem merged_data "relationships" ;;
    existing <- py_iter cur ;;
    ks <- foldM collect_key existing [] ;;
    incoming <- py_getitem new_data "relationships" ;;
    items <- py_iter incoming ;;
    st <- foldM add_relationship items (cur, ks) ;;
    py_setitem merged_data "relationships" (fst st)
  else Ok merged_data.

Definition merge_entity_data (existing_data new_data : json) : result json :=
  if negb (truthy existing_data) then Ok new_data
  else
    merged_data <- py_copy existing_data ;;
    merged_data <- foldM (merge_scalar new_data) scalar_fields merged_data ;;
    merged_data <- merge_subsidiaries new_data merged_data ;;
    merge_relationships new_data merged_data.

(** ** Text rendering used by the f-strings of the validator *)

Definition str_of_nat (n : nat) : string :=
  NilEmpty.string_of_uint (Nat.to_uint n).

Definition str_of_Z (n : Z) : string :=
  NilZero.string_of_int (Z.to_int n).

Definition hex_digit (n : nat) : ascii :=
  match n with
  | 0 => "0" | 1 => "1" | 2 => "2" | 3 => "3" | 4 => "4" | 5 => "5"
  | 6 => "6" | 7 => "7" | 8 => "8" | 9 => "9" | 10 => "a" | 11 => "b"
  | 12 => "c" | 13 => "d" | 14 => "e" | _ => "f"
  end%char.

(** Code points below 256 that [repr] leaves as they are. *)
Definition printable (c : ascii) : bool :=
  let n := nat_of_ascii c in
  Nat.leb 32 n && negb (Nat.leb 127 n && Nat.leb n 160) && negb (Nat.eqb n 173).

Fixpoint has_char (c : ascii) (s : string) : bool :=
  match s with
  | EmptyString => false
  | String a rest => Ascii.eqb a c || has_char c rest
  end.

Definition repr_char (quote c : ascii) : string :=
  if Ascii.eqb c quote || Ascii.eqb c "\"%char then String "\"%char (String c "")
  else if Ascii.eqb c "009"%char then "\t"
  else if Ascii.eqb c "010"%char then "\n"
  else if Ascii.eqb c "013"%char then "\r"
  else if printable c then String c ""
  else String "\"%char (String "x"%char
         (String (hex_digit (nat_of_ascii c / 16))
            (String (hex_digit (nat_of_ascii c mod 16)) ""))).

Fixpoint repr_chars (quote : ascii) (s : string) : string :=
  match s with
  | EmptyString => ""
  | String c rest => (repr_char quote c ++ repr_chars quote rest)%string
  end.

(** [repr(s)] of a string: single quotes unless the text has a single quote
    and no double quote. *)
Definition repr_str (s : string) : string :=
  let quote :=
    if has_char "'"%char s && negb (has_char "034"%char s)
    then "034"%char else "'"%char in
  (String quote (repr_chars quote s) ++ String quote "")%string.

Fixpoint join (sep : string) (parts : list string) : string :=
  match parts with
  | [] => ""
  | [p] => p
  | p :: rest => (p ++ sep ++ join sep rest)%string
  end.

(** [repr(x)] *)
Fixpoint py_repr (x : json) : string :=
  match x with
  | JNull => "None"
  | JBool true => "True"
  | JBool false => "False"
  | JInt n => str_of_Z n
  | JStr s => repr_str s
  | JArr xs => ("[" ++ join ", " (map py_repr xs) ++ "]")%string
  | JObj kvs =>
      ("{" ++ join ", "
         (map (fun kv => (repr_str (fst kv) ++ ": " ++ py_repr (snd kv))%string)
              kvs) ++ "}")%string
  end.

(** [str(x)], what an f-string placeholder shows. *)
Definition py_str (x : json) : string :=
  match x with
  | JStr s => s
  | _ => py_repr x
  end.

(** ** The validator (json_utils.py, validate_entity_json) *)

Definition is_list (x : json) : bool :=
  match x with JArr _ => true | _ => false end.

Definition is_dict (x : json) : bool :=
  match x with JObj _ => true | _ => false end.

Definition required_fields : list string := ["name"; "type"].

Definition valid_types : list string :=
  ["owned_by"; "owns"; "partner"; "competitor"; "customer"; "vendor"].

Definition missing_field_msg (field : string) : string :=
  ("Missing required field: " ++ field)%string.

Definition rel_not_object_msg (i : nat) : string :=
  ("Relationship at index " ++ str_of_nat i ++ " must be an object")%string.

Definition rel_missing_msg (i : nat) (field : string) : string :=
  ("Relationship at index " ++ str_of_nat i
     ++ " missing required field: " ++ field)%string.

Definition rel_invalid_type_msg (i : nat) (v : json) : string :=
  ("Relationship at index " ++ str_of_nat i
     ++ " has invalid type: " ++ py_str v)%string.

(** Body of the loop over the required fields. *)
Definition check_required (entity_data : json) (errors : list string)
  (field : string) : result (list string) :=
  b <- py_in (JStr field) entity_data ;;
  Ok (if b then errors else errors ++ [missing_field_msg field]).

(** [if key in entity_data and not isinstance(entity_data[key], list)] *)
Definition check_is_list (entity_data : json) (key msg : string)
  (errors : list string) : result (list string) :=
  b <- py_in (JStr key) entity_data ;;
  if b then
    v <- py_getitem entity_data key ;;
    Ok (if is_list v then errors else errors ++ [msg])
  else Ok errors.

(** Body of the [enumerate] loop; the state is the next index and the
    errors collected so far. *)
Definition check_relationship (st : nat * list string) (rel : json)
  : result (nat * list string) :=
  let (i, errors) := st in
  if negb (is_dict rel) then Ok (S i, errors ++ [rel_not_object_msg i])
  else
    has_target <- py_in (JStr "target") rel ;;
    let errors :=
      if has_target then errors else errors ++ [rel_missing_msg i "target"] in
    has_type <- py_in (JStr "type") rel ;;
    let errors :=
      if has_type then errors else errors ++ [rel_missing_msg i "type"] in
    has_type <- py_in (JStr "type") rel ;;
    if has_type then
      v <- py_getitem rel "type" ;;
      known <- py_in v (JArr (map JStr valid_types)) ;;
      Ok (S i, if known then errors else errors ++ [rel_invalid_type_msg i v])
    else Ok (S i, errors).

Definition check_relationships (entity_data : json) (errors : list string)
  : result (list string) :=
  b <- py_in (JStr "relationships") entity_data ;;
  if b then
    v <- py_getitem entity_data "relationships" ;;
    if is_list v then
      items <- py_iter v ;;
      st <- foldM check_relationship items (0, errors) ;;
      Ok (snd st)
    else Ok errors
  else Ok errors.

Definition validate_entity_json (entity_data : json)
  : result (bool * list string) :=
  errors <- foldM (check_required entity_data) required_fields [] ;;
  errors <- check_is_list entity_data "relationships"
              "Field 'relationships' must be a list" errors ;;
  errors <- check_is_list entity_data "subsidiaries"
              "Field 'subsidiaries' must be a list" errors ;;
  errors <- check_relationships entity_data errors ;;
  Ok (match errors with [] => true | _ => false end, errors).

(** ** String operations used by the payload extraction *)

(** [s.split(sep)] for a non-empty separator: [skip] counts the characters
    of a matched separator still to be passed over, [cur] is the piece
    being collected. *)
Fixpoint split_go (sep s : string) (skip : nat) (cur : string) : list string :=
  match s with
  | EmptyString => [cur]
  | String c rest =>
      match skip with
      | S k => split_go sep rest k cur
      | O =>
          if starts_with sep s
          then cur :: split_go sep rest (String.length sep - 1) ""
          else split_go sep rest 0 (cur ++ String c "")%string
      end
  end.

Definition py_split (sep s : string) : list string := split_go sep s 0 "".

(** Code points below 256 that [str.strip] removes. *)
Definition is_space (c : ascii) : bool :=
  let n := nat_of_ascii c in
  (Nat.leb 9 n && Nat.leb n 13) || (Nat.leb 28 n && Nat.leb n 32)
  || Nat.eqb n 133 || Nat.eqb n 160.

Fixpoint lstrip (s : string) : string :=
  match s with
  | EmptyString => ""
  | String c rest => if is_space c then lstrip rest else s
  end.

Fixpoint rstrip (s : string) : string :=
  match s with
  | EmptyString => ""
  | String c rest =>
      match rstrip rest with
      | EmptyString => if is_space c then "" else String c ""
      | r => String c r
      end
  end.

Definition py_strip (s : string) : string := rstrip (lstrip s).

(** [s.find(c)] for a character that occurs in [s]; [None] stands for -1. *)
Fixpoint find_char (c : ascii) (s : string) : option nat :=
  match s with
  | EmptyString => None
  | String a rest =>
      if Ascii.eqb a c then Some 0
      else match find_char c rest with Some i => Some (S i) | None => None end
  end.

Fixpoint drop (n : nat) (s : string) : string :=
  match n, s with
  | S k, String _ rest => drop k rest
  | _, _ => s
  end.

(** The brace-matching loop: [i] is the index of the head of [s] in the
    response, the result is [end_idx] when the loop breaks and [None] when
    it runs off the end with [end_idx = -1]. *)
Fixpoint match_brace (s : string) (i : nat) (brace_count : Z) : option nat :=
  match s with
  | EmptyString => None
  | String c rest =>
      if Ascii.eqb c "{"%char then match_brace rest (S i) (brace_count + 1)
      else if Ascii.eqb c "}"%char then
        if Z.eqb (brace_count - 1) 0 then Some (S i)
        else match_brace rest (S i) (brace_count - 1)
      else match_brace rest (S i) brace_count
  end.

Definition fence_json : string := "```json".
Definition fence : string := "```".

(** ** Payload extraction (claude.py, enrich_entity_data, lines 114-141):
    the text handed to [json.loads]. *)
Definition json_text_of (response_text : string) : string :=
  if substring_in fence_json response_text then
    py_strip
      (nth 0 (py_split fence (nth 1 (py_split fence_json response_text) "")) "")
  else if substring_in fence response_text then
    py_strip (nth 1 (py_split fence response_text) "")
  else
    match find_char "{"%char response_text with
    | Some start_idx =>
        match match_brace (drop start_idx response_text) start_idx 0 with
        | Some end_idx =>
            if Nat.ltb start_idx end_idx
            then py_strip (substring start_idx (end_idx - start_idx) response_text)
            else py_strip response_text
        | None => py_strip response_text
        end
    | None => py_strip response_text
    end.

(** ** A JSON decoder for the embedded fragment

    [json.loads] is a library function; the pipeline below takes it as a
    parameter.  [decode] is the decoder restricted to the fragment of JSON
    whose values live in [json]: it follows the library on texts without
    float literals and without escapes of code points above 255, and
    rejects the others. *)

Definition is_json_ws (c : ascii) : bool :=
  Ascii.eqb c " "%char || Ascii.eqb c "009"%char
  || Ascii.eqb c "010"%char || Ascii.eqb c "013"%char.

Fixpoint skip_ws (s : string) : string :=
  match s with
  | String c rest => if is_json_ws c then skip_ws rest else s
  | EmptyString => s
  end.

Definition digit_val (c : ascii) : option nat :=
  let n := nat_of_ascii c in
  if Nat.leb 48 n && Nat.leb n 57 then Some (n - 48) else None.

Definition hex_val (c : ascii) : option nat :=
  let n := nat_of_ascii c in
  if Nat.leb 48 n && Nat.leb n 57 then Some (n - 48)
  else if Nat.leb 97 n && Nat.leb n 102 then Some (n - 87)
  else if Nat.leb 65 n && Nat.leb n 70 then Some (n - 55)
  else None.

(** Digits after the first one of an integer literal. *)
Fixpoint read_digits (s : string) (acc : Z) : Z * string :=
  match s with
  | String c rest =>
      match digit_val c with
      | Some d => read_digits rest (10 * acc + Z.of_nat d)
      | None => (acc, s)
      end
  | EmptyString => (acc, s)
  end.

(** An integer literal [0] or [[1-9][0-9]*]; a following [.], [e] or [E]
    is a float or a syntax error, and is rejected. *)
Definition read_nat_literal (s : string) : option (Z * string) :=
  match s with
  | String c rest =>
      match digit_val c with
      | Some d =>
          let (n, rest') :=
            if Nat.eqb d 0 then (0%Z, rest) else read_digits rest (Z.of_nat d) in
          match rest' with
          | String c' _ =>
              if Ascii.eqb c' "."%char || Ascii.eqb c' "e"%char
                 || Ascii.eqb c' "E"%char
              then None else Some (n, rest')
          | EmptyString => Some (n, rest')
          end
      | None => None
      end
  | EmptyString => None
  end.

(** The code point of [\uXXXX], when it is below 256. *)
Definition u_escape (a b c d : ascii) : option ascii :=
  match hex_val a, hex_val b, hex_val c, hex_val d with
  | Some 0, Some 0, Some h, Some l => Some (ascii_of_nat (16 * h + l))
  | _, _, _, _ => None
  end.

(** The body of a string literal, after the opening quote. *)
Fixpoint read_string (s : string) (acc : string) : option (string * string) :=
  match s with
  | EmptyString => None
  | String c rest =>
      if Ascii.eqb c "034"%char then Some (acc, rest)
      else if Nat.ltb (nat_of_ascii c) 32 then None
      else if Ascii.eqb c "\"%char then
        match rest with
        | String e rest' =>
            let put (x : ascii) := read_string rest' (acc ++ String x "")%string in
            if Ascii.eqb e "034"%char then put "034"%char
            else if Ascii.eqb e "\"%char then put "\"%char
            else if Ascii.eqb e "/"%char then put "/"%char
            else if Ascii.eqb e "b"%char then put "008"%char
            else if Ascii.eqb e "f"%char then put "012"%char
            else if Ascii.eqb e "n"%char then put "010"%char
            else if Ascii.eqb e "r"%char then put "013"%char
            else if Ascii.eqb e "t"%char then put "009"%char
            else if Ascii.eqb e "u"%char then
              match rest' with
              | String a (String b (String c (String d rest''))) =>
                  match u_escape a b c d with
                  | Some x => read_string rest'' (acc ++ String x "")%string
                  | None => None
                  end
              | _ => None
              end
            else None
        | EmptyString => None
        end
      else read_string rest (acc ++ String c "")%string
  end.

(** Values, array elements and object members; every call consumes fuel,
    and a text of [n] characters needs at most [n + 1]. *)
Fixpoint read_value (fuel : nat) (s : string) : option (json * string) :=
  match fuel with
  | O => None
  | S f =>
      match s with
      | EmptyString => None
      | String c rest =>
          if Ascii.eqb c "034"%char then
            match read_string rest "" with
            | Some (str, rest') => Some (JStr str, rest')
            | None => None
            end
          else if Ascii.eqb c "{"%char then
            match skip_ws rest with
            | String c' rest' =>
                if Ascii.eqb c' "}"%char then Some (JObj [], rest')
                else read_members f (skip_ws rest) []
            | EmptyString => None
            end
          else if Ascii.eqb c "["%char then
            match skip_ws rest with
            | String c' rest' =>
                if Ascii.eqb c' "]"%char then Some (JArr [], rest')
                else read_elements f (skip_ws rest) []
            | EmptyString => None
            end
          else if starts_with "null" s then Some (JNull, drop 4 s)
          else if starts_with "true" s then Some (JBool true, drop 4 s)
          else if starts_with "false" s then Some (JBool false, drop 5 s)
          else if Ascii.eqb c "-"%char then
            match read_nat_literal rest with
            | Some (n, rest') => Some (JInt (- n), rest')
            | None => None
            end
          else
            match read_nat_literal s with
            | Some (n, rest') => Some (JInt n, rest')
            | None => None
            end
      end
  end
with read_elements (fuel : nat) (s : string) (acc : list json)
  : option (json * string) :=
  match fuel with
  | O => None
  | S f =>
      match read_value f s with
      | Some (v, rest) =>
          match skip_ws rest with
          | String c rest' =>
              if Ascii.eqb c ","%char
              then read_elements f (skip_ws rest') (acc ++ [v])
              else if Ascii.eqb c "]"%char then Some (JArr (acc ++ [v]), rest')
              else None
          | EmptyString => None
          end
      | None => None
      end
  end
with read_members (fuel : nat) (s : string) (acc : list (string * json))
  : option (json * string) :=
  match fuel with
  | O => None
  | S f =>
      match s with
      | String q rest =>
          if Ascii.eqb q "034"%char then
            match read_string rest "" with
            | Some (key, rest1) =>
                match skip_ws rest1 with
                | String colon rest2 =>
                    if Ascii.eqb colon ":"%char then
                      match read_value f (skip_ws rest2) with
                      | Some (v, rest3) =>
                          match skip_ws rest3 with
                          | String c rest4 =>
                              if Ascii.eqb c ","%char
                              then read_members f (skip_ws rest4)
                                     (dict_set key v acc)
                              else if Ascii.eqb c "}"%char
                              then Some (JObj (dict_set key v acc), rest4)
                              else None
                          | EmptyString => None
                          end
                      | None => None
                      end
                    else None
                | EmptyString => None
                end
            | None => None
            end
          else None
      | EmptyString => None
      end
  end.

Definition decode (s : string) : result json :=
  match read_value (S (String.length s)) (skip_ws s) with
  | Some (v, rest) =>
      match skip_ws rest with
      | EmptyString => Ok v
      | String _ _ => Raise JSONDecodeError
      end
  | None => Raise JSONDecodeError
  end.

(** ** The enrichment step (claude.py, enrich_entity_data) *)

Record search_hit : Type := {
  title : string;
  snippet : string;
  pageid : Z
}.

(** What the code takes from its surroundings: configuration, the library
    decoder, the text of an exception ([str(e)]), the scraping, search,
    news and model collaborators, and the persisted-record store as it is
    read at the start of a run. *)
Record environment : Type := {
  api_key_configured : bool;
  json_loads : string -> result json;
  exn_text : exn -> string;
  scrape_wikipedia : string -> list (string * json);
  search_wikipedia : string -> list search_hit;
  scrape_recent_news : string -> list json;
  claude_reply : string -> list (string * json) -> result string;
  load_entity_json : string -> option json
}.

Definition error_record (msg entity_name : string) : json :=
  JObj [("error", JStr msg); ("entity_name", JStr entity_name)].

(** [scraped_data.get(key, {}).items()] *)
Definition items_of (scraped_data : list (string * json)) (key : string)
  : result unit :=
  match dict_get key scraped_data with
  | Some (JObj _) | None => Ok tt
  | Some _ => Raise AttributeError
  end.

Definition enriched_fields : list string :=
  ["name"; "type"; "subsidiaries"; "relationships"].

(** Body of the loop that fills in the required fields (lines 146-150). *)
Definition fill_default (enriched_data : json) (field : string) : result json :=
  b <- py_in (JStr field) enriched_data ;;
  if b then Ok enriched_data
  else
    py_setitem enriched_data field
      (if String.eqb field "subsidiaries" || String.eqb field "relationships"
       then JArr [] else JNull).

Definition fill_defaults (enriched_data : json) : result json :=
  foldM fill_default enriched_fields enriched_data.

(** Lines 111-153: from the raw reply to the returned record. *)
Definition payload_of (env : environment) (response_text : string)
  : result json :=
  enriched_data <- json_loads env (json_text_of response_text) ;;
  fill_defaults enriched_data.

Definition enrich_entity_data (env : environment) (entity_name : string)
  (scraped_data : list (string * json)) : json :=
  if negb (api_key_configured env)
  then error_record "API key not configured" entity_name
  else
    match
      (_ <- items_of scraped_data "infobox" ;;
       _ <- items_of scraped_data "sections" ;;
       response_text <- claude_reply env entity_name scraped_data ;;
       payload_of env response_text)
    with
    | Ok enriched_data => enriched_data
    | Raise (APIError msg) =>
        error_record ("Claude API error: " ++ msg)%string entity_name
    | Raise JSONDecodeError =>
        error_record
          ("JSON parsing error: " ++ exn_text env JSONDecodeError)%string
          entity_name
    | Raise e => error_record (exn_text env e) entity_name
    end.

(** ** The single-entity pipeline (main.py, process_entity) *)

(** [str.lower] on code points below 256. *)
Definition lower_char (c : ascii) : ascii :=
  let n := nat_of_ascii c in
  if (Nat.leb 65 n && Nat.leb n 90)
     || (Nat.leb 192 n && Nat.leb n 222 && negb (Nat.eqb n 215))
  then ascii_of_nat (n + 32) else c.

Fixpoint map_chars (f : ascii -> ascii) (s : string) : string :=
  match s with
  | EmptyString => ""
  | String c rest => String (f c) (map_chars f rest)
  end.

Definition underscore (c : ascii) : ascii :=
  if Ascii.eqb c " "%char || Ascii.eqb c "/"%char then "_"%char else c.

(** [entity_name.lower().replace(" ", "_").replace("/", "_")] *)
Definition entity_filename (entity_name : string) : string :=
  map_chars underscore (map_chars lower_char entity_name).

Definition entity_filepath (entity_name : string) : string :=
  ("data/entities/" ++ entity_filename entity_name ++ ".json")%string.

Definition unresolvable (entity_name : string) : json :=
  error_record ("Could not find Wikipedia data for " ++ entity_name)%string
    entity_name.

(** One call of [save_entity_json]: the path and the record handed over. *)
Definition write : Type := (string * json)%type.

(** Steps 2 to 6, from the scraped facts on. *)
Definition finish_entity (env : environment) (entity_name : string)
  (existing_data : option json) (scraped_data : list (string * json))
  : result json * list write :=
  let news_data := scrape_recent_news env entity_name in
  let scraped_data :=
    match news_data with
    | [] => scraped_data
    | _ => dict_set "news" (JArr news_data) scraped_data
    end in
  let enriched_data := enrich_entity_data env entity_name scraped_data in
  match py_in (JStr "error") enriched_data with
  | Raise e => (Raise e, [])
  | Ok true => (Ok enriched_data, [])
  | Ok false =>
      let merged :=
        match existing_data with
        | Some existing =>
            if truthy existing then merge_entity_data existing enriched_data
            else Ok enriched_data
        | None => Ok enriched_data
        end in
      match (merged_data <- merged ;;
             _ <- validate_entity_json merged_data ;;
             Ok merged_data) with
      | Ok merged_data =>
          (Ok merged_data, [(entity_filepath entity_name, merged_data)])
      | Raise e => (Raise e, [])
      end
  end.

(** The returned value (or the exception that escapes) and the calls of
    [save_entity_json] made on the way. *)
Definition process_entity (env : environment) (entity_name : string)
  (update_existing : bool) : result json * list write :=
  let existing_data :=
    if update_existing
    then load_entity_json env (entity_filepath entity_name) else None in
  let scraped_data := scrape_wikipedia env entity_name in
  if dict_has "error" scraped_data then
    match search_wikipedia env entity_name with
    | first_result :: _ =>
        let scraped_data := scrape_wikipedia env (title first_result) in
        if dict_has "error" scraped_data
        then (Ok (unresolvable entity_name), [])
        else finish_entity env entity_name existing_data scraped_data
    | [] => (Ok (unresolvable entity_name), [])
    end
  else finish_entity env entity_name existing_data scraped_data.

(** ** The batch orchestrator (batch_update.py) *)

(** The tuple a worker hands back: name, success flag, error. *)
Definition outcome : Type := (string * bool * json)%type.

(** [process_entity_wrapper]: [run] is the call of [process_entity] made
    by this worker. *)
Definition process_entity_wrapper (text_of : exn -> string)
  (run : string -> bool -> result json)
  (entity_name : string) (update_existing : bool) : outcome :=
  match
    (result <- run entity_name update_existing ;;
     failed <- py_in (JStr "error") result ;;
     if failed
     then err <- py_getitem result "error" ;; Ok (entity_name, false, err)
     else Ok (entity_name, true, JNull))
  with
  | Ok t => t
  | Raise e => (entity_name, false, JStr (text_of e))
  end.

(** The counters and the failures list. *)
Definition tally : Type := (nat * nat * list (string * json))%type.

(** Body of the loop over the completed futures. *)
Definition record_outcome (t : tally) (o : outcome) : tally :=
  let '(success_count, failure_count, failures) := t in
  let '(entity_name, success, error) := o in
  if success then (S success_count, failure_count, failures)
  else (success_count, S failure_count, failures ++ [(entity_name, error)]).

(** One future per submitted name, in submission order; the [i]-th task
    runs [run i]. *)
Fixpoint submit_all (text_of : exn -> string)
  (run : nat -> string -> bool -> result json) (i : nat)
  (entities : list string) (update_existing : bool) : list outcome :=
  match entities with
  | [] => []
  | entity :: rest =>
      process_entity_wrapper text_of (run i) entity update_existing
      :: submit_all text_of run (S i) rest update_existing
  end.

(** [batch_process(entity_list=..., update_existing=...)]; [as_completed]
    is the order in which the pool finishes the futures. *)
Definition batch_process (text_of : exn -> string)
  (run : nat -> string -> bool -> result json)
  (as_completed : list outcome -> list outcome)
  (entity_list : list string) (update_existing : bool) : tally :=
  match entity_list with
  | [] => (0, 0, [])
  | _ =>
      fold_left record_outcome
        (as_completed (submit_all text_of run 0 entity_list update_existing))
        (0, 0, [])
  end.

(** ** Abbreviations for concrete records *)

Definition rel (target type : string) : json :=
  JObj [("target", JStr target); ("type", JStr type)].

Definition strs (l : list string) : json := JArr (map JStr l).

(** ** The stages of the merge, read on dictionaries *)

(** What one pass of the scalar loop does to a dictionary. *)
Definition scalar_update (n m : list (string * json)) (field : string)
  : list (string * json) :=
  match dict_get field n with
  | Some v => if truthy v then dict_set field v m else m
  | None => m
  end.

(** The scalar rule as the specification words it: the incoming value
    when it is present and non-empty, the existing value otherwise. *)
Definition merged_scalar (e n : list (string * json)) (field : string)
  : option json :=
  match dict_get field n with
  | Some v => if truthy v then Some v else dict_get field e
  | None => dict_get field e
  end.


(** The list object under a collection key, once [ensure_list] has run. *)
Definition slot (key : string) (m : list (string * json)) : json :=
  match dict_get key m with
  | Some c => c
  | None => JArr []
  end.

(** What one pass of the subsidiaries loop does to a list. *)
Definition add_sub (acc : list json) (x : json) : list json :=
  if existsb (py_eq x) acc then acc else acc ++ [x].

(** The (target, type) key of a relationship entry that has one. *)
Definition key_of (r : json) : option (json * json) :=
  match r with
  | JObj kv =>
      match dict_get "target" kv, dict_get "type" kv with
      | Some t, Some ty => Some (t, ty)
      | _, _ => None
      end
  | _ => None
  end.

Definition key_eq (k k' : json * json) : bool :=
  py_eq (fst k) (fst k') && py_eq (snd k) (snd k').

Definition hashable_key (k : json * json) : bool :=
  hashable (fst k) && hashable (snd k).

(** Two entries carry the same (target, type) key. *)
Definition same_key (r x : json) : bool :=
  match key_of r, key_of x with
  | Some k, Some k' => key_eq k k'
  | _, _ => false
  end.

(** Dictionaries hold every key once, at every depth. *)
Fixpoint uniq_keys (x : json) : bool :=
  match x with
  | JArr xs => forallb uniq_keys xs
  | JObj kvs =>
      (fix go (kvs : list (string * json)) : bool :=
         match kvs with
         | [] => true
         | (k, v) :: rest =>
             negb (dict_has k rest) && uniq_keys v && go rest
         end) kvs
  | _ => true
  end.

(** A relationship entry with both keys, holding scalars. *)
Definition keyed_entry (r : json) : bool :=
  match key_of r with
  | Some (t, ty) => hashable t && hashable ty
  | None => false
  end.

(** An incoming relationship entry the loop can take or skip: an object
    whose key, when it has one, holds scalars. *)
Definition loose_entry (r : json) : bool :=
  match r with
  | JObj _ =>
      match key_of r with
      | Some k => hashable_key k
      | None => true
      end
  | _ => false
  end.

(** [key] is absent or holds a list whose entries all pass [entry]. *)
Definition list_or_absent (entry : json -> bool) (key : string)
  (kv : list (string * json)) : bool :=
  match dict_get key kv with
  | Some (JArr xs) => forallb entry xs
  | Some _ => false
  | None => true
  end.

(** The shape of a record: a dictionary whose [subsidiaries] and
    [relationships] are lists when present, the relationship entries
    passing [entry]. *)
Definition record_shape (entry : json -> bool) (r : json) : bool :=
  match r with
  | JObj kv =>
      list_or_absent (fun _ => true) "subsidiaries" kv
      && list_or_absent entry "relationships" kv
  | _ => false
  end.

(** Well-formed entity records: a dictionary; [subsidiaries] and
    [relationships] are lists when present; every relationship entry
    carries [target] and [type]. *)
Definition well_formed (r : json) : bool :=
  uniq_keys r && record_shape keyed_entry r.

(** What one step of the set comprehension does to the lookup set. *)
Definition collect_step (ks : keyset) (r : json) : keyset :=
  match key_of r with
  | Some k => if key_in k ks then ks else ks ++ [k]
  | None => ks
  end.

(** What one pass of the relationships loop does to the list and the
    lookup set. *)
Definition incoming_step (st : list json * keyset) (r : json)
  : list json * keyset :=
  match key_of r with
  | Some k =>
      if key_in k (snd st) then st else (fst st ++ [r], snd st ++ [k])
  | None => st
  end.

(** The lookup set describes the list: every entry of the list has a
    hashable key found in the set, and every member of the set is the key
    of an entry. *)
Definition describes (ks : keyset) (cur : list json) : Prop :=
  (forall x, In x cur ->
     exists k, key_of x = Some k /\ hashable_key k = true /\ key_in k ks = true)
  /\ (forall k, In k ks ->
        hashable_key k = true /\ exists x, In x cur /\ key_of x = Some k).

(** ** The subsidiaries union as the specification words it *)

Definition mem (x : string) (l : list string) : bool :=
  existsb (String.eqb x) l.

(** Every name once, at its first occurrence. *)
Fixpoint dedup (l : list string) : list string :=
  match l with
  | [] => []
  | x :: rest => x :: filter (fun y => negb (String.eqb y x)) (dedup rest)
  end.

(** The union as the specification words it: the existing entries first,
    followed by those incoming entries that are not present in the existing
    list, in incoming order. *)
Definition stated_union (es ns : list string) : list string :=
  es ++ filter (fun x => negb (mem x es)) ns.

(** The same, a name repeated among the incoming entries being taken once,
    at its first occurrence. *)
Definition ordered_union (es ns : list string) : list string :=
  es ++ dedup (filter (fun x => negb (mem x es)) ns).

(** What one pass of the subsidiaries loop does to a list of names. *)
Definition add_name (acc : list string) (x : string) : list string :=
  if mem x acc then acc else acc ++ [x].

(** A record [m] has absorbed an incoming record [n]: merging [n] into it
    again finds nothing to change. *)
Definition absorbed (n m : list (string * json)) : Prop :=
  (forall f v, In f scalar_fields -> dict_get f n = Some v ->
               truthy v = true -> dict_get f m = Some v)
  /\ (forall x ns, dict_get "subsidiaries" n = Some (JArr (x :: ns)) ->
        exists L, dict_get "subsidiaries" m = Some (JArr L)
                  /\ forall y, In y (x :: ns) -> existsb (py_eq y) L = true)
  /\ (forall r ns, dict_get "relationships" n = Some (JArr (r :: ns)) ->
        exists R, dict_get "relationships" m = Some (JArr R)
                  /\ forallb keyed_entry R = true
                  /\ forall y, In y (r :: ns) ->
                               exists x, In x R /\ same_key y x = true).

(** The first character of a message. *)
Definition head_is (c : ascii) (s : string) : Prop :=
  match s with
  | String a _ => a = c
  | EmptyString => False
  end.

(** ** The defaults of the enrichment step, read on dictionaries *)

Definition default_of (field : string) : json :=
  if String.eqb field "subsidiaries" || String.eqb field "relationships"
  then JArr [] else JNull.

Definition fill (d : list (string * json)) (field : string)
  : list (string * json) :=
  if dict_has field d then d else dict_set field (default_of field) d.

(** The value of a key after the defaults are filled in. *)
Definition filled_value (d : list (string * json)) (field : string)
  : option json :=
  match dict_get field d with
  | Some v => Some v
  | None => Some (default_of field)
  end.

(** The double quote, and a JSON string literal without escapes. *)
Definition dquote : string := String "034"%char "".

Definition quoted (s : string) : string := (dquote ++ s ++ dquote)%string.

(** An environment whose model replies with the text [reply] and whose
    decoder is [decode]; nothing is stored and every scrape succeeds with
    an empty summary. *)
Definition replying (reply : string) : environment := {|
  api_key_configured := true;
  json_loads := decode;
  exn_text := fun _ => "error";
  scrape_wikipedia := fun entity_name =>
    [("entity_name", JStr entity_name); ("summary", JStr "")];
  search_wikipedia := fun _ => [];
  scrape_recent_news := fun _ => [];
  claude_reply := fun _ _ => Ok reply;
  load_entity_json := fun _ => None
|}.

(** ** Reading the tally *)




(** An environment in which the page of [missing] cannot be scraped and the
    search finds nothing for it; every other entity is scraped and
    enriched with the reply [reply]. *)
Definition all_but (missing reply : string) : environment := {|
  api_key_configured := true;
  json_loads := decode;
  exn_text := fun _ => "error";
  scrape_wikipedia := fun entity_name =>
    if String.eqb entity_name missing
    then [("error", JStr "No content found"); ("entity_name", JStr entity_name)]
    else [("entity_name", JStr entity_name); ("summary", JStr "")];
  search_wikipedia := fun _ => [];
  scrape_recent_news := fun _ => [];
  claude_reply := fun _ _ => Ok reply;
  load_entity_json := fun _ => None
|}.

(** A reply holding an object with a name and a type. *)
Definition plain_reply : string :=
  ("{" ++ quoted "name" ++ ": " ++ quoted "Acme" ++ ", "
       ++ quoted "type" ++ ": " ++ quoted "Payer" ++ "}")%string.

(** ** Reading the fenced extraction *)

(** The text before the first occurrence of [sep], or all of [s]. *)
Fixpoint before (sep s : string) : string :=
  match s with
  | EmptyString => ""
  | String c rest => if starts_with sep s then "" else String c (before sep rest)
  end.

(** An occurrence of [sep] starts inside [pre] when [pre] is followed by
    [tail]. *)
Fixpoint starts_inside (sep pre tail : string) : bool :=
  match pre with
  | EmptyString => false
  | String _ pre' =>
      starts_with sep (pre ++ tail) || starts_inside sep pre' tail
  end.

(** In [pre ++ sep], the first occurrence of [sep] is the final one. *)
Definition first_at_end (sep pre : string) : bool :=
  negb (starts_inside sep pre sep).

Definition newline : string := String "010"%char "".

(** A reply that holds [body] in a tagged fence between [pre] and [post]. *)
Definition fenced (pre body post : string) : string :=
  (pre ++ fence_json ++ body ++ fence ++ post)%string.

(** The JSON text of an object whose name holds three backticks. *)
Definition backtick_payload : string :=
  ("{" ++ quoted "name" ++ ": " ++ quoted "a```b" ++ "}")%string.

(** ** Further readings of the merge *)

(** The six keys [merge_entity_data] looks at. *)
Definition merge_fields : list string :=
  scalar_fields ++ ["subsidiaries"; "relationships"].

(** The keys of a dictionary, in insertion order. *)
Definition keys (d : list (string * json)) : list string := map fst d.

(** No entry of the list shares its (target, type) key with an earlier
    one. *)
Definition distinct_keys (l : list json) : Prop :=
  forall l1 x l2, l = l1 ++ x :: l2 ->
                  forall y, In y l1 -> same_key x y = false.

(** The incoming record holds nothing the merge would use under [field]. *)
Definition unusable (n : list (string * json)) (field : string) : bool :=
  match dict_get field n with
  | Some v => negb (truthy v)
  | None => true
  end.

(** ** The validator's report, read on dictionaries *)

(** The messages for the relationship entry at index [i]. *)
Definition entry_messages (i : nat) (r : json) : list string :=
  match r with
  | JObj kv =>
      (if dict_has "target" kv then [] else [rel_missing_msg i "target"])
      ++ (if dict_has "type" kv then [] else [rel_missing_msg i "type"])
      ++ match dict_get "type" kv with
         | Some v =>
             if existsb (py_eq v) (map JStr valid_types) then []
             else [rel_invalid_type_msg i v]
         | None => []
         end
  | _ => [rel_not_object_msg i]
  end.

Fixpoint entries_messages (i : nat) (rs : list json) : list string :=
  match rs with
  | [] => []
  | r :: rest => entry_messages i r ++ entries_messages (S i) rest
  end.

Definition not_list_messages (key msg : string) (e : list (string * json))
  : list string :=
  match dict_get key e with
  | Some v => if is_list v then [] else [msg]
  | None => []
  end.

(** The whole report, in the order the checks run. *)
Definition record_messages (e : list (string * json)) : list string :=
  (if dict_has "name" e then [] else [missing_field_msg "name"])
  ++ (if dict_has "type" e then [] else [missing_field_msg "type"])
  ++ not_list_messages "relationships" "Field 'relationships' must be a list" e
  ++ not_list_messages "subsidiaries" "Field 'subsidiaries' must be a list" e
  ++ match dict_get "relationships" e with
     | Some (JArr rs) => entries_messages 0 rs
     | _ => []
     end.

(** A relationship entry the validator accepts. *)
Definition entry_ok (r : json) : bool :=
  match r with
  | JObj kv =>
      dict_has "target" kv
      && match dict_get "type" kv with
         | Some v => existsb (py_eq v) (map JStr valid_types)
         | None => false
         end
  | _ => false
  end.

(** A record the validator accepts. *)
Definition conforms (e : list (string * json)) : bool :=
  dict_has "name" e && dict_has "type" e
  && list_or_absent entry_ok "relationships" e
  && list_or_absent (fun _ => true) "subsidiaries" e.

(** ** Payload extraction on the OpenAI path (openai.py, lines 107-114):
    the same fences, no brace matching. *)
Definition openai_json_text_of (response_text : string) : string :=
  if substring_in fence_json response_text then
    py_strip
      (nth 0 (py_split fence (nth 1 (py_split fence_json response_text) "")) "")
  else if substring_in fence response_text then
    py_strip (nth 1 (py_split fence response_text) "")
  else py_strip response_text.

(** ** Balanced braces *)

(** Read from nesting depth [depth], the braces of [s] close what they
    open and bring the depth to zero, never closing below it. *)
Fixpoint balanced (s : string) (depth : nat) : bool :=
  match s with
  | EmptyString => Nat.eqb depth 0
  | String c rest =>
      if Ascii.eqb c "{"%char then balanced rest (S depth)
      else if Ascii.eqb c "}"%char then
        match depth with
        | O => false
        | S d => balanced rest d
        end
      else balanced rest depth
  end.

(** An object-shaped span: braces around a balanced text. *)
Definition braced (inner : string) : string := ("{" ++ inner ++ "}")%string.

(** ** Reading the pipeline *)

(** The scraped facts as they reach the enrichment step. *)
Definition with_news (env : environment) (entity_name : string)
  (scraped_data : list (string * json)) : list (string * json) :=
  match scrape_recent_news env entity_name with
  | [] => scraped_data
  | _ :: _ =>
      dict_set "news" (JArr (scrape_recent_news env entity_name)) scraped_data
  end.

(** An environment like [replying reply] whose store holds [stored] under
    every key. *)
Definition stocked (stored : json) (reply : string) : environment := {|
  api_key_configured := true;
  json_loads := decode;
  exn_text := fun _ => "error";
  scrape_wikipedia := fun entity_name =>
    [("entity_name", JStr entity_name); ("summary", JStr "")];
  search_wikipedia := fun _ => [];
  scrape_recent_news := fun _ => [];
  claude_reply := fun _ _ => Ok reply;
  load_entity_json := fun _ => Some stored
|}.

(** A reply holding an object with one relationship. *)
Definition relation_reply : string :=
  ("{" ++ quoted "name" ++ ": " ++ quoted "Acme" ++ ", "
       ++ quoted "relationships" ++ ": [{"
       ++ quoted "target" ++ ": " ++ quoted "P" ++ ", "
       ++ quoted "type" ++ ": " ++ quoted "owns" ++ "}]}")%string.

(** ** Adding an entity (tools/add_entity.py, add_entity)

    [path_exists] is [os.path.exists] on the store. *)
Definition add_entity (env : environment) (path_exists : string -> bool)
  (entity_name : string) (force : bool) : result bool * list write :=
  if path_exists (entity_filepath entity_name) && negb force
  then (Ok false, [])
  else
    let (res, writes) := process_entity env entity_name force in
    (result <- res ;;
     failed <- py_in (JStr "error") result ;;
     if failed then _ <- py_getitem result "error" ;; Ok false else Ok true,
     writes).

(** ** Relationship inference (claude.py, infer_relationships) *)

(** The bracket-matching loop of lines 236-243. *)
Fixpoint match_bracket (s : string) (i : nat) (bracket_count : Z) : option nat :=
  match s with
  | EmptyString => None
  | String c rest =>
      if Ascii.eqb c "["%char then match_bracket rest (S i) (bracket_count + 1)
      else if Ascii.eqb c "]"%char then
        if Z.eqb (bracket_count - 1) 0 then Some (S i)
        else match_bracket rest (S i) (bracket_count - 1)
      else match_bracket rest (S i) bracket_count
  end.

(** Lines 223-250: the text handed to [json.loads]. *)
Definition array_text_of (response_text : string) : string :=
  if substring_in fence_json response_text then
    py_strip
      (nth 0 (py_split fence (nth 1 (py_split fence_json response_text) "")) "")
  else if substring_in fence response_text then
    py_strip (nth 1 (py_split fence response_text) "")
  else
    match find_char "["%char response_text with
    | Some start_idx =>
        match match_bracket (drop start_idx response_text) start_idx 0 with
        | Some end_idx =>
            if Nat.ltb start_idx end_idx
            then py_strip (substring start_idx (end_idx - start_idx) response_text)
            else py_strip response_text
        | None => py_strip response_text
        end
    | None => py_strip response_text
    end.

(** [infer_reply] is the model call on the serialised entities: its reply,
    or the exception it raises. *)
Definition infer_relationships (env : environment)
  (infer_reply : list json -> result string) (entities : list json) : json :=
  if negb (api_key_configured env) then JArr entities
  else
    match
      (response_text <- infer_reply entities ;;
       json_loads env (array_text_of response_text))
    with
    | Ok updated_entities => updated_entities
    | Raise _ => JArr entities
    end.

(** ** Loading a directory (json_utils.py, load_all_entities) *)

(** [s.endswith(suffix)] *)
Fixpoint ends_with (suffix s : string) : bool :=
  String.eqb suffix s
  || match s with
     | EmptyString => false
     | String _ rest => ends_with suffix rest
     end.

(** [os.path.join(directory, filename)] *)
Definition path_join (directory filename : string) : string :=
  if starts_with "/" filename then filename
  else if String.eqb directory "" || ends_with "/" directory
       then (directory ++ filename)%string
       else (directory ++ "/" ++ filename)%string.

(** [listdir] is [os.listdir], [None] standing for a directory that does
    not exist or cannot be listed; [load] is [load_entity_json]. *)
Definition load_all_entities (listdir : string -> option (list string))
  (load : string -> option json) (directory : string) : list json :=
  match listdir directory with
  | None => []
  | Some names =>
      flat_map
        (fun filename =>
           match load (path_join directory filename) with
           | Some entity_data => if truthy entity_data then [entity_data] else []
           | None => []
           end)
        (filter (ends_with ".json") names)
  end.

(** ** Inference over the store (main.py, infer_entity_relationships) *)

(** [c.get(k)] *)
Definition py_get (c : json) (k : string) : result json :=
  match c with
  | JObj kvs => Ok (match dict_get k kvs with Some v => v | None => JNull end)
  | _ => Raise AttributeError
  end.

(** The loop of lines 142-151; [writes] are the calls of
    [save_entity_json] made so far, which stay made when the loop raises. *)
Fixpoint save_entities (directory : string) (items : list json)
  (writes : list write) : result unit * list write :=
  match items with
  | [] => (Ok tt, writes)
  | entity :: rest =>
      match py_get entity "name" with
      | Raise e => (Raise e, writes)
      | Ok entity_name =>
          if negb (truthy entity_name) then save_entities directory rest writes
          else
            match entity_name with
            | JStr s =>
                save_entities directory rest
                  (writes ++ [((directory ++ "/" ++ entity_filename s
                                  ++ ".json")%string, entity)])
            | _ => (Raise AttributeError, writes)
            end
      end
  end.

Definition infer_entity_relationships (env : environment)
  (infer_reply : list json -> result string)
  (listdir : string -> option (list string)) (directory : string)
  : result bool * list write :=
  match load_all_entities listdir (load_entity_json env) directory with
  | [] => (Ok false, [])
  | entities =>
      match py_iter (infer_relationships env infer_reply entities) with
      | Raise e => (Raise e, [])
      | Ok items =>
          let (res, writes) := save_entities directory items [] in
          (_ <- res ;; Ok true, writes)
      end
  end.

(** The name under which an entity is saved, when it has one. *)
Definition saved_name (entity : json) : option string :=
  match entity with
  | JObj kv =>
      match dict_get "name" kv with
      | Some (JStr s) => if String.eqb s "" then None else Some s
      | _ => None
      end
  | _ => None
  end.

(** An entity the loop can handle: an object whose name, when it has a
    usable one, is a string. *)
Definition well_named (entity : json) : bool :=
  match entity with
  | JObj kv =>
      match dict_get "name" kv with
      | Some (JStr _) | None => true
      | Some v => negb (truthy v)
      end
  | _ => false
  end.

Definition named_writes (directory : string) (l : list json) : list write :=
  flat_map
    (fun entity =>
       match saved_name entity with
       | Some s =>
           [((directory ++ "/" ++ entity_filename s ++ ".json")%string, entity)]
       | None => []
       end) l.

(** Read from nesting depth [depth], the square brackets of [s] close what
    they open and bring the depth to zero, never closing below it. *)
Fixpoint balanced_brackets (s : string) (depth : nat) : bool :=
  match s with
  | EmptyString => Nat.eqb depth 0
  | String c rest =>
      if Ascii.eqb c "["%char then balanced_brackets rest (S depth)
      else if Ascii.eqb c "]"%char then
        match depth with
        | O => false
        | S d => balanced_brackets rest d
        end
      else balanced_brackets rest depth
  end.

(** An array-shaped span: square brackets around a balanced text. *)
Definition bracketed (inner : string) : string := ("[" ++ inner ++ "]")%string.

(** A reply holding an array of one named entity, with prose around it. *)
Definition array_inner : string :=
  ("{" ++ quoted "name" ++ ": " ++ quoted "Acme" ++ "}")%string.

Definition array_reply : string :=
  ("Updated: " ++ bracketed array_inner ++ " done]")%string.

(** A stored record and a directory listing with one entity file. *)
Definition acme_record : json :=
  JObj [("name", JStr "Acme"); ("type", JStr "Payer")].

Definition acme_listing : string -> option (list string) :=
  fun _ => Some ["acme.json"; "notes.txt"].

(** A reply whose second item is not an object. *)
Definition mixed_reply : string :=
  ("[" ++ array_inner ++ ", 7, {" ++ quoted "name" ++ ": " ++ quoted "Late"
       ++ "}]")%string.

(** ** The batch report (batch_update.py, main)

    A run with names on the command line and no input file.  A row of the
    report is the list handed to [writer.writerow]. *)
Definition header_row : list json := [JStr "Entity"; JStr "Status"; JStr "Error"].

Definition success_row (entity : string) : list json :=
  [JStr entity; JStr "Success"; JStr ""].

Definition failure_row (f : string * json) : list json :=
  [JStr (fst f); JStr "Failure"; snd f].

(** Lines 143-152. *)
Definition report_rows (entities : list string)
  (failures : list (string * json)) : list (list json) :=
  header_row
  :: map success_row
       (filter (fun entity => negb (mem entity (map fst failures))) entities)
  ++ map failure_row failures.

(** The exit status, and the report with the path it is written to when
    one is written.  An empty list of names stands for a command line
    without names, which the argument parser refuses with status 2. *)
Definition batch_update_main (text_of : exn -> string)
  (run : nat -> string -> bool -> result json)
  (as_completed : list outcome -> list outcome)
  (entities : list string) (no_update : bool) (output : option string)
  : Z * option (string * list (list json)) :=
  match entities with
  | [] => (2%Z, None)
  | _ =>
      let '(success_count, failure_count, failures) :=
        batch_process text_of run as_completed entities (negb no_update) in
      (if Nat.eqb failure_count 0 then 0%Z else 1%Z,
       match output with
       | Some path =>
           if negb (String.eqb path "")
              && (Nat.ltb 0 success_count || Nat.ltb 0 failure_count)
           then Some (path, report_rows entities failures)
           else None
       | None => None
       end)
  end.


(** * Properties *)

(** ** Dictionaries *)

Lemma dict_get_set_same (k : string) (v : json) (d : list (string * json)) :
  dict_get k (dict_set k v d) = Some v.
Proof.
  induction d as [|[k' v'] d IH]; simpl.
  - now rewrite String.eqb_refl.
  - destruct (String.eqb k k') eqn:E; simpl; rewrite E; auto.
Qed.

Lemma dict_get_set_other (k k' : string) (v : json) (d : list (string * json)) :
  k <> k' -> dict_get k (dict_set k' v d) = dict_get k d.
Proof.
  intros Hne. induction d as [|[k0 v0] d IH]; simpl.
  - destruct (String.eqb k k') eqn:E; auto.
    apply String.eqb_eq in E. contradiction.
  - destruct (String.eqb k' k0) eqn:E; simpl.
    + apply String.eqb_eq in E. subst k0.
      destruct (String.eqb k k') eqn:E'; auto.
      apply String.eqb_eq in E'. contradiction.
    + destruct (String.eqb k k0); auto.
Qed.

Lemma dict_set_same_value (k : string) (v : json) (d : list (string * json)) :
  dict_get k d = Some v -> dict_set k v d = d.
Proof.
  induction d as [|[k' v'] d IH]; simpl; intros H.
  - discriminate.
  - destruct (String.eqb k k') eqn:E.
    + now inversion H.
    + now rewrite IH.
Qed.

Lemma dict_set_not_nil (k : string) (v : json) (d : list (string * json)) :
  dict_set k v d <> [].
Proof.
  destruct d as [|[k' v'] d]; simpl; [discriminate|].
  destruct (String.eqb k k'); discriminate.
Qed.

(** ** The scalar stage on dictionaries *)

Lemma merge_scalar_dict (n m : list (string * json)) (field : string) :
  merge_scalar (JObj n) (JObj m) field = Ok (JObj (scalar_update n m field)).
Proof.
  unfold merge_scalar, present_and_truthy, scalar_update, py_in, py_getitem,
    dict_has; simpl.
  destruct (dict_get field n) as [v|]; simpl; auto.
  destruct (truthy v); simpl; auto.
Qed.

Lemma merge_scalars_dict (n : list (string * json)) (fields : list string) :
  forall m,
    foldM (merge_scalar (JObj n)) fields (JObj m)
    = Ok (JObj (fold_left (scalar_update n) fields m)).
Proof.
  induction fields as [|f fields IH]; intros m; simpl; auto.
  rewrite merge_scalar_dict. simpl. apply IH.
Qed.

Lemma scalar_update_other (n m : list (string * json)) (field k : string) :
  k <> field -> dict_get k (scalar_update n m field) = dict_get k m.
Proof.
  intros Hne. unfold scalar_update.
  destruct (dict_get field n) as [v|]; auto.
  destruct (truthy v); auto using dict_get_set_other.
Qed.

Lemma scalar_updates_other (n : list (string * json)) (fields : list string)
  (k : string) :
  ~ In k fields ->
  forall m, dict_get k (fold_left (scalar_update n) fields m) = dict_get k m.
Proof.
  induction fields as [|f fields IH]; intros Hk m; simpl; auto.
  rewrite IH by (intros H; apply Hk; now right).
  apply scalar_update_other. intros ->. apply Hk. now left.
Qed.

Lemma scalar_updates_field (n : list (string * json)) (fields : list string)
  (k : string) :
  NoDup fields -> In k fields ->
  forall m, dict_get k (fold_left (scalar_update n) fields m)
            = merged_scalar m n k.
Proof.
  induction fields as [|f fields IH]; intros Hnd Hin m; simpl.
  - contradiction.
  - inversion Hnd as [|? ? Hnotin Hnd']; subst.
    destruct Hin as [->|Hin].
    + rewrite scalar_updates_other by assumption.
      unfold scalar_update, merged_scalar.
      destruct (dict_get k n) as [v|]; auto.
      destruct (truthy v); auto using dict_get_set_same.
    + rewrite IH by assumption.
      unfold merged_scalar.
      rewrite scalar_update_other; auto.
      intros ->. contradiction.
Qed.

Lemma scalar_updates_not_nil (n : list (string * json)) (fields : list string) :
  forall m, m <> [] -> fold_left (scalar_update n) fields m <> [].
Proof.
  induction fields as [|f fields IH]; intros m Hm; simpl; auto.
  apply IH. unfold scalar_update.
  destruct (dict_get f n) as [v|]; auto.
  destruct (truthy v); auto using dict_set_not_nil.
Qed.

(** ** Equality of values *)

Section JsonInduction.
Variable P : json -> Prop.
Hypothesis Hnull : P JNull.
Hypothesis Hbool : forall b, P (JBool b).
Hypothesis Hint : forall n, P (JInt n).
Hypothesis Hstr : forall s, P (JStr s).
Hypothesis Harr : forall xs, Forall P xs -> P (JArr xs).
Hypothesis Hobj : forall kvs, Forall (fun kv => P (snd kv)) kvs -> P (JObj kvs).

Fixpoint json_nested_ind (x : json) : P x :=
  match x with
  | JNull => Hnull
  | JBool b => Hbool b
  | JInt n => Hint n
  | JStr s => Hstr s
  | JArr xs =>
      Harr xs
        ((fix all (l : list json) : Forall P l :=
            match l with
            | [] => Forall_nil P
            | a :: l' => Forall_cons a (json_nested_ind a) (all l')
            end) xs)
  | JObj kvs =>
      Hobj kvs
        ((fix all (l : list (string * json))
            : Forall (fun kv => P (snd kv)) l :=
            match l with
            | [] => Forall_nil _
            | kv :: l' =>
                Forall_cons kv (json_nested_ind (snd kv)) (all l')
            end) kvs)
  end.
End JsonInduction.

Lemma dict_get_in_uniq (k : string) (v : json) (kvs : list (string * json)) :
  (fix go (kvs : list (string * json)) : bool :=
     match kvs with
     | [] => true
     | (k, v) :: rest => negb (dict_has k rest) && uniq_keys v && go rest
     end) kvs = true ->
  In (k, v) kvs -> dict_get k kvs = Some v.
Proof.
  induction kvs as [|[k0 v0] kvs IH]; intros Hu Hin; [contradiction|].
  apply andb_prop in Hu as [Hu Hrest]. apply andb_prop in Hu as [Hno _].
  simpl. destruct Hin as [Heq|Hin].
  - inversion Heq; subst. now rewrite String.eqb_refl.
  - destruct (String.eqb k k0) eqn:E.
    + apply String.eqb_eq in E. subst k0.
      unfold dict_has in Hno. rewrite (IH Hrest Hin) in Hno. discriminate.
    + auto.
Qed.

Lemma py_eq_refl (x : json) : uniq_keys x = true -> py_eq x x = true.
Proof.
  induction x as [| b | n | s | xs IH | kvs IH] using json_nested_ind;
    intros Hu; simpl.
  - reflexivity.
  - now destruct b.
  - apply Z.eqb_refl.
  - apply String.eqb_refl.
  - simpl in Hu. induction IH as [|a xs Ha _ IHxs]; auto.
    simpl in Hu. apply andb_prop in Hu as [Hua Hxs].
    rewrite (Ha Hua). simpl. auto.
  - rewrite Nat.eqb_refl. simpl.
    simpl in Hu.
    assert (Hall : forall k v, In (k, v) kvs -> dict_get k kvs = Some v)
      by (intros k v; now apply dict_get_in_uniq).
    assert (Hsub : forall rest,
               (forall kv, In kv rest -> In kv kvs) ->
               Forall (fun kv => uniq_keys (snd kv) = true -> py_eq (snd kv) (snd kv) = true) rest ->
               Forall (fun kv => uniq_keys (snd kv) = true) rest ->
               (fix go (l : list (string * json)) : bool :=
                  match l with
                  | [] => true
                  | (k, v) :: rest0 =>
                      match dict_get k kvs with
                      | Some v' => py_eq v v' && go rest0
                      | None => false
                      end
                  end) rest = true).
    { induction rest as [|[k v] rest IHr]; intros Hin Hp Hq; auto.
      inversion Hp; subst. inversion Hq; subst.
      rewrite (Hall k v) by (apply Hin; now left).
      simpl in *. rewrite H1 by assumption. simpl.
      apply IHr; [intros kv Hkv; apply Hin; now right | assumption | assumption]. }
    apply Hsub; auto.
    clear -Hu. induction kvs as [|[k v] kvs IHk]; constructor.
    + simpl. apply andb_prop in Hu as [Hu _]. now apply andb_prop in Hu as [_ Hv].
    + apply IHk. now apply andb_prop in Hu as [_ Hr].
Qed.

Lemma hashable_uniq (x : json) : hashable x = true -> uniq_keys x = true.
Proof. destruct x; simpl; auto; discriminate. Qed.

Ltac scalar_cases :=
  repeat match goal with
         | b : bool |- _ => destruct b
         | H : Z.eqb _ _ = true |- _ => apply Z.eqb_eq in H
         | H : String.eqb _ _ = true |- _ => apply String.eqb_eq in H
         | |- Z.eqb _ _ = true => apply Z.eqb_eq
         | |- String.eqb _ _ = true => apply String.eqb_eq
         end;
  simpl in *; try discriminate; try congruence; try lia.

Lemma py_eq_sym_scalar (x y : json) :
  hashable x = true -> hashable y = true ->
  py_eq x y = true -> py_eq y x = true.
Proof.
  destruct x, y; simpl; intros Hx Hy H; try discriminate; scalar_cases.
Qed.

Lemma py_eq_trans_scalar (x y z : json) :
  hashable x = true -> hashable y = true -> hashable z = true ->
  py_eq x y = true -> py_eq y z = true -> py_eq x z = true.
Proof.
  destruct x, y, z; simpl; intros Hx Hy Hz H1 H2; try discriminate;
    scalar_cases.
Qed.

Lemma key_eq_refl (k : json * json) : hashable_key k = true -> key_eq k k = true.
Proof.
  unfold hashable_key, key_eq. intros H. apply andb_prop in H as [H1 H2].
  rewrite !py_eq_refl; auto using hashable_uniq.
Qed.

Lemma key_eq_sym (k k' : json * json) :
  hashable_key k = true -> hashable_key k' = true ->
  key_eq k k' = true -> key_eq k' k = true.
Proof.
  unfold hashable_key, key_eq. intros H H' E.
  apply andb_prop in H as [? ?]. apply andb_prop in H' as [? ?].
  apply andb_prop in E as [? ?].
  apply andb_true_intro; split; now apply py_eq_sym_scalar.
Qed.

Lemma key_eq_trans (k1 k2 k3 : json * json) :
  hashable_key k1 = true -> hashable_key k2 = true -> hashable_key k3 = true ->
  key_eq k1 k2 = true -> key_eq k2 k3 = true -> key_eq k1 k3 = true.
Proof.
  unfold hashable_key, key_eq. intros H1 H2 H3 E1 E2.
  apply andb_prop in H1 as [? ?]. apply andb_prop in H2 as [? ?].
  apply andb_prop in H3 as [? ?].
  apply andb_prop in E1 as [? ?]. apply andb_prop in E2 as [? ?].
  apply andb_true_intro; split;
    [apply (py_eq_trans_scalar _ (fst k2)) | apply (py_eq_trans_scalar _ (snd k2))];
    assumption.
Qed.

Lemma key_in_spec (k : json * json) (ks : keyset) :
  key_in k ks = true <-> exists k', In k' ks /\ key_eq k k' = true.
Proof.
  unfold key_in. rewrite existsb_exists. reflexivity.
Qed.

Lemma key_in_app (k : json * json) (ks ks' : keyset) :
  key_in k (ks ++ ks') = key_in k ks || key_in k ks'.
Proof. unfold key_in. apply existsb_app. Qed.

(** ** The collection stages on dictionaries *)

Lemma dict_set_set (k : string) (v v0 : json) (m : list (string * json)) :
  dict_set k v (dict_set k v0 m) = dict_set k v m.
Proof.
  induction m as [|[k' v'] m IH]; simpl.
  - now rewrite String.eqb_refl.
  - destruct (String.eqb k k') eqn:E; simpl; rewrite E; auto.
    now rewrite IH.
Qed.

Lemma merge_subsidiaries_dict (n m : list (string * json)) :
  merge_subsidiaries (JObj n) (JObj m) =
  match dict_get "subsidiaries" n with
  | Some v =>
      if truthy v then
        items <- py_iter v ;;
        cur <- foldM add_subsidiary items (slot "subsidiaries" m) ;;
        Ok (JObj (dict_set "subsidiaries" cur m))
      else Ok (JObj m)
  | None => Ok (JObj m)
  end.
Proof.
  unfold merge_subsidiaries, present_and_truthy, ensure_list, slot, py_in,
    py_getitem, py_setitem, dict_has; simpl.
  destruct (dict_get "subsidiaries" n) as [v|]; simpl; auto.
  destruct (truthy v); simpl; auto.
  destruct (dict_get "subsidiaries" m) as [c|] eqn:Em; simpl.
  - destruct (py_iter v) as [items|e]; simpl; auto.
    rewrite Em. simpl. destruct (foldM add_subsidiary items c); auto.
  - destruct (py_iter v) as [items|e]; simpl; auto.
    rewrite dict_get_set_same. simpl.
    destruct (foldM add_subsidiary items (JArr [])); simpl; auto.
    now rewrite dict_set_set.
Qed.

Lemma merge_relationships_dict (n m : list (string * json)) :
  merge_relationships (JObj n) (JObj m) =
  match dict_get "relationships" n with
  | Some v =>
      if truthy v then
        existing <- py_iter (slot "relationships" m) ;;
        ks <- foldM collect_key existing [] ;;
        items <- py_iter v ;;
        st <- foldM add_relationship items (slot "relationships" m, ks) ;;
        Ok (JObj (dict_set "relationships" (fst st) m))
      else Ok (JObj m)
  | None => Ok (JObj m)
  end.
Proof.
  unfold merge_relationships, present_and_truthy, ensure_list, slot, py_in,
    py_getitem, py_setitem, dict_has; simpl.
  destruct (dict_get "relationships" n) as [v|]; simpl; auto.
  destruct (truthy v); simpl; auto.
  destruct (dict_get "relationships" m) as [c|] eqn:Em; simpl.
  - rewrite Em. simpl.
    destruct (py_iter c) as [existing|e]; simpl; auto.
  - rewrite dict_get_set_same. simpl.
    destruct (py_iter v) as [items|e]; simpl; auto.
    match goal with
    | |- context [foldM add_relationship ?i ?s] =>
        destruct (foldM add_relationship i s) as [st|e]; simpl; auto
    end.
    now rewrite dict_set_set.
Qed.

Lemma add_subsidiaries_list (items : list json) :
  forall es,
    foldM add_subsidiary items (JArr es) = Ok (JArr (fold_left add_sub items es)).
Proof.
  induction items as [|x items IH]; intros es; simpl; auto.
  unfold add_subsidiary, add_sub. simpl.
  destruct (existsb (py_eq x) es); simpl; apply IH.
Qed.

Lemma rel_key_key_of (r : json) (k : json * json) :
  rel_key r = Ok k <-> key_of r = Some k.
Proof.
  unfold rel_key, key_of, py_getitem.
  destruct r as [| | | | |kv]; simpl; try (split; discriminate).
  destruct (dict_get "target" kv); simpl; [|split; discriminate].
  destruct (dict_get "type" kv); simpl; [|split; discriminate].
  split; intros H; inversion H; reflexivity.
Qed.

Lemma collect_key_keyed (ks : keyset) (r : json) :
  keyed_entry r = true -> collect_key ks r = Ok (collect_step ks r).
Proof.
  unfold keyed_entry, collect_key, collect_step. intros H.
  destruct (key_of r) as [[t ty]|] eqn:E; [|discriminate].
  apply rel_key_key_of in E. rewrite E. simpl.
  unfold hash_key. simpl. rewrite H. reflexivity.
Qed.

Lemma collect_key_ok (ks ks' : keyset) (r : json) :
  collect_key ks r = Ok ks' -> keyed_entry r = true.
Proof.
  unfold collect_key, keyed_entry. intros H.
  destruct (rel_key r) as [k|e] eqn:E; simpl in H; [|discriminate].
  apply rel_key_key_of in E. rewrite E. destruct k as [t ty].
  unfold hash_key in H. simpl in H.
  destruct (hashable t && hashable ty); auto. discriminate.
Qed.

Lemma collect_keys_keyed (rs : list json) :
  forallb keyed_entry rs = true ->
  forall ks, foldM collect_key rs ks = Ok (fold_left collect_step rs ks).
Proof.
  induction rs as [|r rs IH]; intros H ks; simpl; auto.
  simpl in H. apply andb_prop in H as [Hr Hrs].
  rewrite collect_key_keyed by assumption. simpl. now apply IH.
Qed.

Lemma collect_keys_ok (rs : list json) :
  forall ks ks', foldM collect_key rs ks = Ok ks' ->
                 forallb keyed_entry rs = true.
Proof.
  induction rs as [|r rs IH]; intros ks ks' H; simpl in *; auto.
  destruct (collect_key ks r) as [ks1|e] eqn:E; simpl in H; [|discriminate].
  rewrite (collect_key_ok _ _ _ E). simpl. eauto.
Qed.

(** ** The relationships loop on lists *)

Lemma add_relationship_ok (cur : list json) (ks : keyset) (r : json)
  (st' : json * keyset) :
  add_relationship (JArr cur, ks) r = Ok st' ->
  st' = (JArr (fst (incoming_step (cur, ks) r)), snd (incoming_step (cur, ks) r))
  /\ (forall k, key_of r = Some k -> hashable_key k = true).
Proof.
  unfold add_relationship, incoming_step.
  destruct r as [| b | z | s | xs | kv];
    cbn [py_in key_of bind fst snd]; try discriminate.
  - (* a string: both substring tests pass only to fail on the subscript *)
    destruct (substring_in "target" s); cbn [bind];
      [destruct (substring_in "type" s); cbn [bind rel_key py_getitem]|];
      intros H; try discriminate; inversion H; subst;
      (split; [reflexivity|intros k Hk; discriminate]).
  - destruct (existsb (py_eq (JStr "target")) xs); cbn [bind];
      [destruct (existsb (py_eq (JStr "type")) xs);
       cbn [bind rel_key py_getitem]|];
      intros H; try discriminate; inversion H; subst;
      (split; [reflexivity|intros k Hk; discriminate]).
  - unfold dict_has, rel_key, py_getitem.
    destruct (dict_get "target" kv) as [t|]; cbn [bind];
      [|intros H; inversion H; split; [reflexivity|intros k Hk; discriminate]].
    destruct (dict_get "type" kv) as [ty|]; cbn [bind];
      [|intros H; inversion H; split; [reflexivity|intros k Hk; discriminate]].
    unfold hash_key, hashable_key. cbn [fst snd].
    destruct (hashable t && hashable ty) eqn:Hh; cbn [bind]; [|discriminate].
    destruct (key_in (t, ty) ks); cbn [bind py_append];
      intros H; inversion H; subst;
      (split; [reflexivity|intros k Hk; inversion Hk; subst; exact Hh]).
Qed.

Lemma add_relationship_keyed (cur : list json) (ks : keyset) (r : json) :
  keyed_entry r = true ->
  add_relationship (JArr cur, ks) r
  = Ok (JArr (fst (incoming_step (cur, ks) r)), snd (incoming_step (cur, ks) r)).
Proof.
  unfold keyed_entry, add_relationship, incoming_step, key_of.
  destruct r as [| | | | |kv]; try discriminate. simpl.
  unfold dict_has, rel_key, py_getitem.
  destruct (dict_get "target" kv) as [t|]; [|discriminate].
  destruct (dict_get "type" kv) as [ty|]; [|discriminate].
  simpl. intros Hh. unfold hash_key. simpl. rewrite Hh. simpl.
  destruct (key_in (t, ty) ks); reflexivity.
Qed.

Lemma add_relationships_ok (items : list json) :
  forall cur ks st',
    foldM add_relationship items (JArr cur, ks) = Ok st' ->
    st' = (JArr (fst (fold_left incoming_step items (cur, ks))),
           snd (fold_left incoming_step items (cur, ks)))
    /\ Forall (fun r => forall k, key_of r = Some k -> hashable_key k = true)
         items.
Proof.
  induction items as [|r items IH]; intros cur ks st' H;
    cbn [foldM fold_left] in *.
  - inversion H. auto.
  - destruct (add_relationship (JArr cur, ks) r) as [st1|e] eqn:E;
      cbn [bind] in H; [|discriminate].
    apply add_relationship_ok in E as [-> Hk].
    apply IH in H as [-> Hall].
    split; [|constructor; assumption].
    now destruct (incoming_step (cur, ks) r).
Qed.

Lemma add_relationships_keyed (items : list json) :
  forallb keyed_entry items = true ->
  forall cur ks,
    foldM add_relationship items (JArr cur, ks)
    = Ok (JArr (fst (fold_left incoming_step items (cur, ks))),
          snd (fold_left incoming_step items (cur, ks))).
Proof.
  induction items as [|r items IH]; intros H cur ks;
    cbn [foldM fold_left forallb] in *; auto.
  apply andb_prop in H as [Hr Hrs].
  rewrite add_relationship_keyed by assumption. cbn [bind].
  rewrite IH by assumption.
  now destruct (incoming_step (cur, ks) r).
Qed.

Lemma describes_nil : describes [] [].
Proof. split; intros ? []. Qed.

Lemma describes_extend (ks : keyset) (cur : list json) (r : json)
  (k : json * json) :
  describes ks cur -> key_of r = Some k -> hashable_key k = true ->
  describes (ks ++ [k]) (cur ++ [r]).
Proof.
  intros [Hcov Hfrom] Hk Hh. split.
  - intros x Hx. apply in_app_or in Hx as [Hx|[<-|[]]].
    + destruct (Hcov x Hx) as (k0 & Hk0 & Hh0 & Hin).
      exists k0. rewrite key_in_app, Hin. auto.
    + exists k. rewrite key_in_app. repeat split; auto.
      apply orb_true_iff. right. unfold key_in. simpl.
      fold (key_eq k k). now rewrite key_eq_refl.
  - intros k0 Hk0. apply in_app_or in Hk0 as [Hk0|[<-|[]]].
    + destruct (Hfrom k0 Hk0) as (Hh0 & x & Hx & Hkx).
      split; auto. exists x. split; auto. apply in_or_app. now left.
    + split; auto. exists r. split; auto. apply in_or_app. right. now left.
Qed.

Lemma describes_keep (ks : keyset) (cur : list json) (r : json)
  (k : json * json) :
  describes ks cur -> key_of r = Some k -> hashable_key k = true ->
  key_in k ks = true -> describes ks (cur ++ [r]).
Proof.
  intros [Hcov Hfrom] Hk Hh Hin. split.
  - intros x Hx. apply in_app_or in Hx as [Hx|[<-|[]]]; eauto.
  - intros k0 Hk0. destruct (Hfrom k0 Hk0) as (Hh0 & x & Hx & Hkx).
    split; auto. exists x. split; auto. apply in_or_app. now left.
Qed.

Lemma describes_collect (rs : list json) :
  forallb keyed_entry rs = true ->
  forall pre ks, describes ks pre ->
                 describes (fold_left collect_step rs ks) (pre ++ rs).
Proof.
  induction rs as [|r rs IH]; intros H pre ks Hd; simpl.
  - now rewrite app_nil_r.
  - simpl in H. apply andb_prop in H as [Hr Hrs].
    replace (pre ++ r :: rs) with ((pre ++ [r]) ++ rs)
      by (now rewrite <- app_assoc).
    apply IH; auto.
    unfold keyed_entry in Hr. unfold collect_step.
    destruct (key_of r) as [[t ty]|] eqn:E; [|discriminate].
    destruct (key_in (t, ty) ks) eqn:Hin.
    + eapply describes_keep; eauto.
    + eapply describes_extend; eauto.
Qed.

(** An entry whose key is not in the lookup set shares its key with no
    entry of the list the set describes. *)
Lemma fresh_key_differs (ks : keyset) (cur : list json) (r : json)
  (k : json * json) :
  describes ks cur -> key_of r = Some k -> hashable_key k = true ->
  key_in k ks = false -> forall x, In x cur -> same_key r x = false.
Proof.
  intros [Hcov Hfrom] Hk Hh Hout x Hx.
  destruct (Hcov x Hx) as (kx & Hkx & Hhx & Hin).
  unfold same_key. rewrite Hk, Hkx.
  destruct (key_eq k kx) eqn:E; auto.
  apply key_in_spec in Hin as (k0 & Hk0 & E0).
  assert (Hh0 : hashable_key k0 = true) by (now apply Hfrom).
  assert (key_in k ks = true).
  { apply key_in_spec. exists k0. split; auto.
    now apply (key_eq_trans k kx k0). }
  congruence.
Qed.

(** The relationships loop, started from a list and a lookup set that
    describes it. *)
Lemma incoming_steps_spec (items : list json) :
  Forall (fun r => forall k, key_of r = Some k -> hashable_key k = true) items ->
  forall cur ks,
    describes ks cur ->
    exists added,
      fst (fold_left incoming_step items (cur, ks)) = cur ++ added
      /\ describes (snd (fold_left incoming_step items (cur, ks))) (cur ++ added)
      /\ (forall l1 r l2, added = l1 ++ r :: l2 ->
            In r items /\ forall x, In x (cur ++ l1) -> same_key r x = false)
      /\ (forall r k, In r items -> key_of r = Some k ->
            key_in k (snd (fold_left incoming_step items (cur, ks))) = true)
      /\ (forall k, key_in k ks = true ->
            key_in k (snd (fold_left incoming_step items (cur, ks))) = true).
Proof.
  induction items as [|r items IH]; intros Hall cur ks Hd.
  - exists []. simpl. rewrite app_nil_r.
    split; [reflexivity|]. split; [assumption|].
    split; [intros [|? ?] ? ? ?; discriminate|].
    split; [intros ? ? []|auto].
  - inversion Hall as [|? ? Hr Hitems]; subst.
    cbn [fold_left]. unfold incoming_step at 2 4 6 8. cbn [fst snd].
    destruct (key_of r) as [k|] eqn:Ek.
    + specialize (Hr k eq_refl).
      destruct (key_in k ks) eqn:Hin.
      * destruct (IH Hitems cur ks Hd)
          as (added & Hfst & Hdesc & Hnew & Hall' & Hmono).
        exists added.
        split; [assumption|]. split; [assumption|].
        split; [|split; [|assumption]].
        -- intros l1 r0 l2 Heq. destruct (Hnew _ _ _ Heq). split; auto.
           now right.
        -- intros r0 k0 [<-|Hin0] Hk0; eauto.
           rewrite Ek in Hk0. inversion Hk0; subst. auto.
      * assert (Hd' : describes (ks ++ [k]) (cur ++ [r]))
          by (now apply describes_extend).
        destruct (IH Hitems _ _ Hd')
          as (added & Hfst & Hdesc & Hnew & Hall' & Hmono).
        exists (r :: added).
        replace (cur ++ r :: added) with ((cur ++ [r]) ++ added)
          by (now rewrite <- app_assoc).
        split; [assumption|]. split; [assumption|].
        split; [|split].
        -- intros l1 r0 l2 Heq.
           destruct l1 as [|a l1]; simpl in Heq; inversion Heq; subst.
           ++ split; [now left|]. rewrite app_nil_r.
              eapply fresh_key_differs; eauto.
           ++ destruct (Hnew _ _ _ eq_refl) as [Hin0 Hdiff].
              split; [now right|].
              intros x Hx. apply Hdiff. rewrite <- app_assoc. exact Hx.
        -- intros r0 k0 [<-|Hin0] Hk0; eauto.
           rewrite Ek in Hk0. inversion Hk0; subst.
           apply Hmono. rewrite key_in_app. apply orb_true_iff. right.
           unfold key_in. simpl. fold (key_eq k0 k0). now rewrite key_eq_refl.
        -- intros k0 Hk0. apply Hmono. rewrite key_in_app, Hk0. reflexivity.
    + destruct (IH Hitems cur ks Hd)
        as (added & Hfst & Hdesc & Hnew & Hall' & Hmono).
      exists added.
      split; [assumption|]. split; [assumption|].
      split; [|split; [|assumption]].
      * intros l1 r0 l2 Heq. destruct (Hnew _ _ _ Heq). split; auto.
        now right.
      * intros r0 k0 [<-|Hin0] Hk0; eauto. congruence.
Qed.

(** ** The three stages of a merge into a non-empty record *)

Lemma merge_subsidiaries_frame (n m : list (string * json)) (x : json) :
  merge_subsidiaries (JObj n) (JObj m) = Ok x ->
  exists m', x = JObj m'
             /\ (forall k, k <> "subsidiaries" -> dict_get k m' = dict_get k m)
             /\ (m <> [] -> m' <> []).
Proof.
  rewrite merge_subsidiaries_dict.
  destruct (dict_get "subsidiaries" n) as [v|];
    [destruct (truthy v)|]; intros H;
    try solve [inversion H; subst; exists m; auto].
  destruct (py_iter v) as [items|e]; [|discriminate]. cbn [bind] in H.
  destruct (foldM add_subsidiary items (slot "subsidiaries" m)) as [cur|e];
    [|discriminate].
  inversion H; subst. eexists. split; [reflexivity|]. split.
  - intros k Hk. now apply dict_get_set_other.
  - intros _. apply dict_set_not_nil.
Qed.

Lemma merge_relationships_frame (n m : list (string * json)) (x : json) :
  merge_relationships (JObj n) (JObj m) = Ok x ->
  exists m', x = JObj m'
             /\ (forall k, k <> "relationships" -> dict_get k m' = dict_get k m)
             /\ (m <> [] -> m' <> []).
Proof.
  rewrite merge_relationships_dict.
  destruct (dict_get "relationships" n) as [v|];
    [destruct (truthy v)|]; intros H;
    try solve [inversion H; subst; exists m; auto].
  destruct (py_iter (slot "relationships" m)) as [existing|e]; [|discriminate].
  cbn [bind] in H.
  destruct (foldM collect_key existing []) as [ks|e]; [|discriminate].
  cbn [bind] in H.
  destruct (py_iter v) as [items|e]; [|discriminate]. cbn [bind] in H.
  destruct (foldM add_relationship items (slot "relationships" m, ks))
    as [st|e]; [|discriminate].
  inversion H; subst. eexists. split; [reflexivity|]. split.
  - intros k Hk. now apply dict_get_set_other.
  - intros _. apply dict_set_not_nil.
Qed.

Lemma merge_stages (e n : list (string * json)) (M : json) :
  e <> [] ->
  merge_entity_data (JObj e) (JObj n) = Ok M ->
  exists m2 m3,
    merge_subsidiaries (JObj n) (JObj (fold_left (scalar_update n) scalar_fields e))
    = Ok (JObj m2)
    /\ merge_relationships (JObj n) (JObj m2) = Ok (JObj m3)
    /\ M = JObj m3.
Proof.
  intros He H. unfold merge_entity_data in H.
  destruct e as [|kv e]; [contradiction|].
  cbn [truthy negb py_copy bind] in H.
  rewrite merge_scalars_dict in H. cbn [bind] in H.
  destruct (merge_subsidiaries (JObj n) _) as [x|err] eqn:E2; [|discriminate].
  cbn [bind] in H.
  destruct (merge_subsidiaries_frame _ _ _ E2) as (m2 & -> & _).
  destruct (merge_relationships_frame _ _ _ H) as (m3 & -> & _).
  exists m2, m3. auto.
Qed.

Lemma scalar_fields_nodup : NoDup scalar_fields.
Proof.
  unfold scalar_fields.
  repeat constructor; simpl; intuition discriminate.
Qed.

(** ** The subsidiaries loop on lists of names *)

Lemma filter_filter {A : Type} (p q : A -> bool) (l : list A) :
  filter p (filter q l) = filter (fun x => q x && p x) l.
Proof.
  induction l as [|a l IH]; simpl; auto.
  destruct (q a); simpl; [destruct (p a)|]; now rewrite IH.
Qed.

Lemma dedup_filter (p : string -> bool) (l : list string) :
  dedup (filter p l) = filter p (dedup l).
Proof.
  induction l as [|a l IH]; simpl; auto.
  destruct (p a) eqn:Pa; simpl.
  - rewrite IH, !filter_filter. f_equal. apply filter_ext.
    intros y. apply andb_comm.
  - rewrite IH, filter_filter. apply filter_ext. intros y.
    destruct (String.eqb y a) eqn:E; simpl; auto.
    apply String.eqb_eq in E. subst. now rewrite Pa.
Qed.

Lemma mem_app (x : string) (l l' : list string) :
  mem x (l ++ l') = mem x l || mem x l'.
Proof. unfold mem. apply existsb_app. Qed.

Lemma add_names_union (ns : list string) :
  forall es, fold_left add_name ns es = ordered_union es ns.
Proof.
  unfold ordered_union.
  induction ns as [|x ns IH]; intros es; simpl.
  - now rewrite app_nil_r.
  - unfold add_name at 2. destruct (mem x es) eqn:Hx; simpl.
    + apply IH.
    + rewrite IH, <- app_assoc. simpl. do 2 f_equal.
      rewrite <- dedup_filter, filter_filter. f_equal.
      apply filter_ext. intros y. rewrite mem_app. unfold mem at 2. simpl.
      rewrite orb_false_r, negb_orb. reflexivity.
Qed.

Lemma mem_py_eq (x : string) (acc : list string) :
  existsb (py_eq (JStr x)) (map JStr acc) = mem x acc.
Proof.
  unfold mem. induction acc as [|a acc IH]; cbn [map existsb]; auto.
  rewrite IH. reflexivity.
Qed.

Lemma add_subs_names (ns : list string) :
  forall es,
    fold_left add_sub (map JStr ns) (map JStr es)
    = map JStr (fold_left add_name ns es).
Proof.
  induction ns as [|x ns IH]; intros es; simpl; auto.
  unfold add_sub at 2, add_name at 2. rewrite mem_py_eq.
  destruct (mem x es); auto.
  rewrite <- IH. now rewrite map_app.
Qed.

(** ** The relationships stage *)

Lemma merge_relationships_spec (n m m' : list (string * json))
  (es ns : list json) :
  slot "relationships" m = JArr es ->
  slot "relationships" n = JArr ns ->
  merge_relationships (JObj n) (JObj m) = Ok (JObj m') ->
  exists added,
    slot "relationships" m' = JArr (es ++ added)
    /\ (forall l1 r l2, added = l1 ++ r :: l2 ->
          In r ns /\ forall x, In x (es ++ l1) -> same_key r x = false)
    /\ (forall r k, In r ns -> key_of r = Some k ->
          exists x, In x (es ++ added) /\ same_key r x = true).
Proof.
  intros Hm Hn H. rewrite merge_relationships_dict in H.
  assert (Hnone : ns = [] ->
            Ok (JObj m) = Ok (JObj m') ->
            exists added,
              slot "relationships" m' = JArr (es ++ added)
              /\ (forall l1 r l2, added = l1 ++ r :: l2 ->
                    In r ns /\ forall x, In x (es ++ l1) -> same_key r x = false)
              /\ (forall r k, In r ns -> key_of r = Some k ->
                    exists x, In x (es ++ added) /\ same_key r x = true)).
  { intros -> Heq. injection Heq as <-. exists [].
    rewrite app_nil_r. split; [assumption|].
    split; [intros [|? ?] ? ? ?; discriminate|intros ? ? []]. }
  unfold slot in Hn.
  destruct (dict_get "relationships" n) as [v|].
  2:{ apply Hnone; auto. now injection Hn as <-. }
  subst v. destruct ns as [|r0 ns]; [now apply Hnone|].
  cbn [truthy] in H. rewrite Hm in H. cbn [py_iter bind] in H.
  destruct (foldM collect_key es []) as [ks|err] eqn:Eks; [|discriminate].
  cbn [bind] in H.
  pose proof (collect_keys_ok _ _ _ Eks) as Hkeyed.
  rewrite (collect_keys_keyed _ Hkeyed) in Eks. injection Eks as <-.
  pose proof (describes_collect es Hkeyed [] [] describes_nil) as Hd.
  rewrite app_nil_l in Hd.
  destruct (foldM add_relationship (r0 :: ns) _) as [st|err] eqn:Est;
    [|discriminate].
  cbn [bind] in H. injection H as <-.
  apply add_relationships_ok in Est as [-> Hhash].
  destruct (incoming_steps_spec _ Hhash es _ Hd)
    as (added & Hfst & Hdesc & Hnew & Hall & _).
  exists added. cbn [fst]. rewrite Hfst.
  split; [|split].
  - unfold slot. now rewrite dict_get_set_same.
  - exact Hnew.
  - intros r k Hr Hk.
    pose proof (Hall r k Hr Hk) as Hin.
    apply key_in_spec in Hin as (k' & Hk' & Heq).
    destruct Hdesc as [_ Hfrom].
    destruct (Hfrom k' Hk') as (_ & x & Hx & Hkx).
    exists x. split; [assumption|].
    unfold same_key. now rewrite Hk, Hkx.
Qed.

Lemma merge_keeps_slot (e n m2 : list (string * json)) :
  merge_subsidiaries (JObj n) (JObj (fold_left (scalar_update n) scalar_fields e))
  = Ok (JObj m2) ->
  slot "relationships" m2 = slot "relationships" e.
Proof.
  intros H2.
  destruct (merge_subsidiaries_frame _ _ _ H2) as (m2' & E2 & F2 & _).
  injection E2 as <-. unfold slot.
  rewrite F2 by discriminate.
  rewrite scalar_updates_other; auto.
  unfold scalar_fields. simpl. intuition discriminate.
Qed.

(** ** Totality of the stages on well-shaped records *)

Lemma keyed_entry_loose (r : json) : keyed_entry r = true -> loose_entry r = true.
Proof.
  unfold keyed_entry, loose_entry, hashable_key.
  destruct r as [| | | | |kv]; simpl; try discriminate.
  destruct (dict_get "target" kv); [|discriminate].
  destruct (dict_get "type" kv); [|discriminate]. auto.
Qed.

Lemma add_relationship_loose (cur : list json) (ks : keyset) (r : json) :
  loose_entry r = true ->
  add_relationship (JArr cur, ks) r
  = Ok (JArr (fst (incoming_step (cur, ks) r)), snd (incoming_step (cur, ks) r)).
Proof.
  unfold loose_entry, add_relationship, incoming_step, key_of.
  destruct r as [| | | | |kv]; try discriminate.
  cbn [py_in bind fst snd]. unfold dict_has, rel_key, py_getitem.
  destruct (dict_get "target" kv) as [t|]; [|reflexivity].
  destruct (dict_get "type" kv) as [ty|]; [|reflexivity].
  cbn [bind]. intros Hh. unfold hash_key.
  unfold hashable_key in Hh. rewrite Hh. cbn [bind].
  destruct (key_in (t, ty) ks); reflexivity.
Qed.

Lemma add_relationships_loose (items : list json) :
  forallb loose_entry items = true ->
  forall cur ks,
    foldM add_relationship items (JArr cur, ks)
    = Ok (JArr (fst (fold_left incoming_step items (cur, ks))),
          snd (fold_left incoming_step items (cur, ks))).
Proof.
  induction items as [|r items IH]; intros H cur ks;
    cbn [foldM fold_left forallb] in *; auto.
  apply andb_prop in H as [Hr Hrs].
  rewrite add_relationship_loose by assumption. cbn [bind].
  rewrite IH by assumption.
  now destruct (incoming_step (cur, ks) r).
Qed.

Lemma merge_subsidiaries_total (n m : list (string * json)) :
  list_or_absent (fun _ => true) "subsidiaries" n = true ->
  list_or_absent (fun _ => true) "subsidiaries" m = true ->
  exists m', merge_subsidiaries (JObj n) (JObj m) = Ok (JObj m').
Proof.
  unfold list_or_absent. intros Hn Hm. rewrite merge_subsidiaries_dict.
  destruct (dict_get "subsidiaries" n) as [v|]; [|eauto].
  destruct v as [| | | |ns|]; try discriminate.
  destruct (truthy (JArr ns)); [|eauto].
  cbn [py_iter bind]. unfold slot.
  destruct (dict_get "subsidiaries" m) as [c|].
  - destruct c as [| | | |es|]; try discriminate.
    rewrite add_subsidiaries_list. cbn [bind]. eauto.
  - rewrite add_subsidiaries_list. cbn [bind]. eauto.
Qed.

Lemma merge_relationships_total (n m : list (string * json)) :
  list_or_absent loose_entry "relationships" n = true ->
  list_or_absent keyed_entry "relationships" m = true ->
  exists m', merge_relationships (JObj n) (JObj m) = Ok (JObj m').
Proof.
  unfold list_or_absent. intros Hn Hm. rewrite merge_relationships_dict.
  destruct (dict_get "relationships" n) as [v|]; [|eauto].
  destruct v as [| | | |ns|]; try discriminate.
  destruct (truthy (JArr ns)); [|eauto].
  assert (Hes : exists es, slot "relationships" m = JArr es
                           /\ forallb keyed_entry es = true).
  { unfold slot. destruct (dict_get "relationships" m) as [c|].
    - destruct c as [| | | |es|]; try discriminate. eauto.
    - exists []. auto. }
  destruct Hes as (es & -> & Hes).
  cbn [py_iter bind].
  rewrite collect_keys_keyed by assumption. cbn [bind].
  rewrite add_relationships_loose by assumption. cbn [bind fst]. eauto.
Qed.

Lemma list_or_absent_frame (entry : json -> bool) (key : string)
  (m m' : list (string * json)) :
  dict_get key m' = dict_get key m ->
  list_or_absent entry key m' = list_or_absent entry key m.
Proof. unfold list_or_absent. now intros ->. Qed.

(** The set comprehension stops at the first entry lacking a key. *)
Lemma collect_keys_key_error (pre post : list json) (kv : list (string * json)) :
  forallb keyed_entry pre = true ->
  dict_get "target" kv = None \/ dict_get "type" kv = None ->
  forall ks,
    exists k, foldM collect_key (pre ++ JObj kv :: post) ks = Raise (KeyError k)
              /\ (k = "target" \/ k = "type").
Proof.
  induction pre as [|r pre IH]; intros Hpre Hkv ks.
  - rewrite app_nil_l. cbn [foldM].
    unfold collect_key at 1. unfold rel_key, py_getitem.
    destruct (dict_get "target" kv) as [t|].
    + destruct Hkv as [Hkv|Hkv]; [discriminate|]. cbn [bind]. rewrite Hkv.
      cbn [bind]. eauto.
    + cbn [bind]. eauto.
  - cbn [forallb] in Hpre. apply andb_prop in Hpre as [Hr Hpre].
    rewrite <- app_comm_cons. cbn [foldM].
    rewrite collect_key_keyed by assumption. cbn [bind].
    now apply IH.
Qed.

Lemma merge_unfold (e n : list (string * json)) :
  e <> [] ->
  merge_entity_data (JObj e) (JObj n)
  = (m2 <- merge_subsidiaries (JObj n)
             (JObj (fold_left (scalar_update n) scalar_fields e)) ;;
     merge_relationships (JObj n) m2).
Proof.
  intros He. unfold merge_entity_data.
  destruct e as [|kv e]; [contradiction|].
  cbn [truthy negb py_copy bind].
  rewrite merge_scalars_dict. reflexivity.
Qed.

Lemma scalar_fields_not (k : string) :
  k = "subsidiaries" \/ k = "relationships" -> ~ In k scalar_fields.
Proof.
  unfold scalar_fields. simpl. intros [-> | ->]; intuition discriminate.
Qed.

(** ** Merging the same record again *)

Lemma add_subs_absorbed (ns : list json) (L : list json) :
  (forall y, In y ns -> existsb (py_eq y) L = true) ->
  fold_left add_sub ns L = L.
Proof.
  induction ns as [|x ns IH]; intros H; simpl; auto.
  unfold add_sub at 2. rewrite H by now left.
  apply IH. intros y Hy. apply H. now right.
Qed.

Lemma add_sub_keeps (y x : json) (L : list json) :
  existsb (py_eq y) L = true -> existsb (py_eq y) (add_sub L x) = true.
Proof.
  intros H. unfold add_sub. destruct (existsb (py_eq x) L); auto.
  rewrite existsb_app, H. reflexivity.
Qed.

Lemma add_subs_keep (y : json) (ns : list json) :
  forall L, existsb (py_eq y) L = true ->
            existsb (py_eq y) (fold_left add_sub ns L) = true.
Proof.
  induction ns as [|x ns IH]; intros L H; simpl; auto.
  apply IH. now apply add_sub_keeps.
Qed.

Lemma add_subs_cover (ns : list json) :
  forallb uniq_keys ns = true ->
  forall L y, In y ns -> existsb (py_eq y) (fold_left add_sub ns L) = true.
Proof.
  induction ns as [|x ns IH]; intros Hu L y Hy; [contradiction|].
  cbn [forallb] in Hu. apply andb_prop in Hu as [Hx Hns].
  cbn [fold_left]. destruct Hy as [<-|Hy].
  - apply add_subs_keep. unfold add_sub.
    destruct (existsb (py_eq x) L) eqn:E; auto.
    rewrite existsb_app. cbn [existsb]. rewrite py_eq_refl by assumption.
    now rewrite orb_true_r.
  - now apply IH.
Qed.

Lemma incoming_steps_absorbed (ns : list json) (R : list json) (ks : keyset) :
  (forall r, In r ns ->
     match key_of r with Some k => key_in k ks = true | None => True end) ->
  fold_left incoming_step ns (R, ks) = (R, ks).
Proof.
  induction ns as [|r ns IH]; intros H; cbn [fold_left]; auto.
  assert (Hr := H r (or_introl eq_refl)).
  unfold incoming_step at 2. cbn [fst snd].
  destruct (key_of r) as [k|]; [rewrite Hr|];
    apply IH; intros r' Hr'; apply H; now right.
Qed.

Lemma uniq_keys_get (kv : list (string * json)) (k : string) (v : json) :
  uniq_keys (JObj kv) = true -> dict_get k kv = Some v -> uniq_keys v = true.
Proof.
  cbn [uniq_keys].
  induction kv as [|[k0 v0] kv IH]; intros Hu Hg; [discriminate|].
  apply andb_prop in Hu as [Hu Hrest]. apply andb_prop in Hu as [_ Hv0].
  simpl in Hg. destruct (String.eqb k k0).
  - now injection Hg as <-.
  - auto.
Qed.

Lemma slot_get (k : string) (m : list (string * json)) (x : json)
  (l : list json) :
  slot k m = JArr (x :: l) -> dict_get k m = Some (JArr (x :: l)).
Proof.
  unfold slot. destruct (dict_get k m); [now intros ->|discriminate].
Qed.

Lemma scalar_updates_absorbed (n m : list (string * json)) (fields : list string) :
  (forall f v, In f fields -> dict_get f n = Some v -> truthy v = true ->
               dict_get f m = Some v) ->
  fold_left (scalar_update n) fields m = m.
Proof.
  induction fields as [|f fields IH]; intros H; cbn [fold_left]; auto.
  assert (Hf : scalar_update n m f = m).
  { unfold scalar_update. destruct (dict_get f n) as [v|] eqn:E; auto.
    destruct (truthy v) eqn:T; auto.
    apply dict_set_same_value. apply H; auto. now left. }
  rewrite Hf. apply IH. intros f' v Hin. apply H. now right.
Qed.

Lemma keyed_entry_key (r : json) :
  keyed_entry r = true ->
  exists k, key_of r = Some k /\ hashable_key k = true.
Proof.
  unfold keyed_entry, hashable_key.
  destruct (key_of r) as [[t ty]|]; [|discriminate]. eauto.
Qed.

Lemma same_key_in_set (ks : keyset) (R : list json) (r x : json) :
  describes ks R -> keyed_entry r = true -> In x R -> same_key r x = true ->
  match key_of r with Some k => key_in k ks = true | None => True end.
Proof.
  intros [Hcov Hfrom] Hr Hx Hsame.
  destruct (keyed_entry_key r Hr) as (k & Hk & Hh). rewrite Hk.
  destruct (Hcov x Hx) as (kx & Hkx & Hhx & Hin).
  unfold same_key in Hsame. rewrite Hk, Hkx in Hsame.
  apply key_in_spec in Hin as (k0 & Hk0 & E0).
  apply key_in_spec. exists k0. split; [assumption|].
  apply (key_eq_trans k kx k0); auto. now apply Hfrom.
Qed.

Lemma absorbed_fixpoint (n m : list (string * json)) :
  record_shape keyed_entry (JObj n) = true ->
  m <> [] ->
  absorbed n m ->
  merge_entity_data (JObj m) (JObj n) = Ok (JObj m).
Proof.
  intros Hshape Hm (Hsc & Hsub & Hrel).
  cbn [record_shape] in Hshape. apply andb_prop in Hshape as [Hns Hnr].
  unfold list_or_absent in Hns, Hnr.
  rewrite merge_unfold by assumption.
  rewrite scalar_updates_absorbed by assumption.
  assert (H2 : merge_subsidiaries (JObj n) (JObj m) = Ok (JObj m)).
  { rewrite merge_subsidiaries_dict.
    destruct (dict_get "subsidiaries" n) as [v|] eqn:En; [|reflexivity].
    destruct v as [| | | |ns|]; try discriminate.
    destruct ns as [|x ns]; [reflexivity|].
    destruct (Hsub x ns eq_refl) as (L & HL & Hcov).
    cbn [truthy py_iter bind]. unfold slot. rewrite HL.
    rewrite add_subsidiaries_list. cbn [bind].
    rewrite add_subs_absorbed by assumption.
    now rewrite dict_set_same_value. }
  rewrite H2. cbn [bind].
  rewrite merge_relationships_dict.
  destruct (dict_get "relationships" n) as [v|] eqn:En; [|reflexivity].
  destruct v as [| | | |ns|]; try discriminate.
  destruct ns as [|r ns]; [reflexivity|].
  destruct (Hrel r ns eq_refl) as (R & HR & Hkeyed & Hcov).
  cbn [truthy]. unfold slot. rewrite HR. cbn [py_iter bind].
  rewrite collect_keys_keyed by assumption. cbn [bind].
  rewrite add_relationships_keyed by assumption. cbn [bind fst].
  pose proof (describes_collect R Hkeyed [] [] describes_nil) as Hd.
  rewrite app_nil_l in Hd.
  rewrite incoming_steps_absorbed.
  - cbn [fst]. now rewrite dict_set_same_value.
  - intros y Hy. destruct (Hcov y Hy) as (x & Hx & Hsame).
    apply (same_key_in_set _ R y x); auto.
    rewrite forallb_forall in Hnr. now apply Hnr.
Qed.

Lemma merge_returns (E N : json) :
  record_shape keyed_entry E = true ->
  record_shape loose_entry N = true ->
  exists M, merge_entity_data E N = Ok M.
Proof.
  intros HE HN.
  destruct E as [| | | | |e]; try discriminate.
  destruct N as [| | | | |n]; try discriminate.
  cbn [record_shape] in HE, HN.
  apply andb_prop in HE as [HEs HEr]. apply andb_prop in HN as [HNs HNr].
  destruct e as [|kv e]; [cbn; eauto|].
  rewrite merge_unfold by discriminate.
  destruct (merge_subsidiaries_total n
              (fold_left (scalar_update n) scalar_fields (kv :: e)))
    as (m2 & H2).
  { assumption. }
  { rewrite (list_or_absent_frame _ _ (kv :: e)); [assumption|].
    apply scalar_updates_other, scalar_fields_not. now left. }
  rewrite H2. cbn [bind].
  destruct (merge_relationships_total n m2) as (m3 & H3).
  { assumption. }
  { destruct (merge_subsidiaries_frame _ _ _ H2) as (m2' & E2 & F2 & _).
    injection E2 as <-.
    rewrite (list_or_absent_frame _ _ (kv :: e)); [assumption|].
    rewrite F2 by discriminate.
    apply scalar_updates_other, scalar_fields_not. now right. }
  eauto.
Qed.

Lemma shape_slot (entry : json -> bool) (key : string)
  (m : list (string * json)) :
  list_or_absent entry key m = true ->
  exists l, slot key m = JArr l /\ forallb entry l = true.
Proof.
  unfold list_or_absent, slot.
  destruct (dict_get key m) as [v|]; [|exists []; auto].
  destruct v as [| | | |l|]; try discriminate. eauto.
Qed.

Lemma absorbed_self (n : list (string * json)) :
  well_formed (JObj n) = true -> absorbed n n.
Proof.
  unfold well_formed. intros H. apply andb_prop in H as [Hu Hshape].
  cbn [record_shape] in Hshape. apply andb_prop in Hshape as [_ Hr].
  unfold list_or_absent in Hr.
  split; [auto|split].
  - intros x ns Hg. exists (x :: ns). split; [assumption|].
    pose proof (uniq_keys_get _ _ _ Hu Hg) as Hl. cbn [uniq_keys] in Hl.
    rewrite forallb_forall in Hl.
    intros y Hy. apply existsb_exists. exists y. split; [assumption|].
    apply py_eq_refl. now apply Hl.
  - intros r ns Hg. rewrite Hg in Hr. exists (r :: ns).
    split; [assumption|]. split; [assumption|].
    intros y Hy. exists y. split; [assumption|].
    rewrite forallb_forall in Hr.
    destruct (keyed_entry_key y (Hr y Hy)) as (k & Hk & Hh).
    unfold same_key. rewrite Hk. now apply key_eq_refl.
Qed.

Lemma merge_absorbs (e n : list (string * json)) (M : json) :
  e <> [] ->
  record_shape keyed_entry (JObj e) = true ->
  well_formed (JObj n) = true ->
  merge_entity_data (JObj e) (JObj n) = Ok M ->
  exists m, M = JObj m /\ m <> [] /\ absorbed n m.
Proof.
  intros He Hse Hwf H.
  unfold well_formed in Hwf. apply andb_prop in Hwf as [Hu Hsn].
  cbn [record_shape] in Hse, Hsn.
  apply andb_prop in Hse as [Hes Her]. apply andb_prop in Hsn as [Hns Hnr].
  destruct (merge_stages e n M He H) as (m2 & m3 & H2 & H3 & ->).
  destruct (merge_subsidiaries_frame _ _ _ H2) as (m2' & E2 & F2 & N2).
  destruct (merge_relationships_frame _ _ _ H3) as (m3' & E3 & F3 & N3).
  injection E2 as <-. injection E3 as <-.
  exists m3. split; [reflexivity|]. split.
  { apply N3, N2. now apply scalar_updates_not_nil. }
  split; [|split].
  - intros f v Hf Hg Hv.
    assert (Hne : f <> "subsidiaries" /\ f <> "relationships").
    { unfold scalar_fields in Hf. simpl in Hf.
      split; intros ->; intuition discriminate. }
    destruct Hne as [Hs Hr].
    rewrite F3, F2 by assumption.
    rewrite scalar_updates_field by auto using scalar_fields_nodup.
    unfold merged_scalar. now rewrite Hg, Hv.
  - intros x ns Hg.
    rewrite merge_subsidiaries_dict, Hg in H2.
    cbn [truthy py_iter bind] in H2.
    destruct (shape_slot _ "subsidiaries" e Hes) as (es & Hslot & _).
    assert (Hslot1 : slot "subsidiaries"
                       (fold_left (scalar_update n) scalar_fields e) = JArr es).
    { unfold slot in *. rewrite scalar_updates_other; auto.
      apply scalar_fields_not. now left. }
    rewrite Hslot1, add_subsidiaries_list in H2. cbn [bind] in H2.
    exists (fold_left add_sub (x :: ns) es). split.
    + rewrite F3 by discriminate.
      assert (Hm2 : m2 = dict_set "subsidiaries"
                           (JArr (fold_left add_sub (x :: ns) es))
                           (fold_left (scalar_update n) scalar_fields e))
        by congruence.
      rewrite Hm2. apply dict_get_set_same.
    + pose proof (uniq_keys_get _ _ _ Hu Hg) as Hl. cbn [uniq_keys] in Hl.
      intros y Hy. now apply add_subs_cover.
  - intros r ns Hg.
    destruct (shape_slot _ "relationships" e Her) as (es & Hslot & Hkeyed).
    pose proof (merge_keeps_slot _ _ _ H2) as Hslot2. rewrite Hslot in Hslot2.
    assert (Hn : slot "relationships" n = JArr (r :: ns))
      by (unfold slot; now rewrite Hg).
    destruct (merge_relationships_spec _ _ _ _ _ Hslot2 Hn H3)
      as (added & Hm3 & Hnew & Hcov).
    unfold list_or_absent in Hnr. rewrite Hg in Hnr.
    rewrite forallb_forall in Hnr.
    assert (Hall : forall y, In y (r :: ns) ->
                     exists x, In x (es ++ added) /\ same_key y x = true).
    { intros y Hy. destruct (keyed_entry_key y (Hnr y Hy)) as (k & Hk & _).
      eauto. }
    exists (es ++ added). split; [|split; [|assumption]].
    + destruct (Hall r (or_introl eq_refl)) as (x & Hx & _).
      destruct (es ++ added) as [|x0 l] eqn:El; [contradiction|].
      now apply slot_get.
    + rewrite forallb_app, Hkeyed. cbn [andb].
      apply forallb_forall. intros y Hy.
      apply in_split in Hy as (l1 & l2 & ->).
      apply Hnr. now apply (Hnew l1 y l2).
Qed.

(** ** The validator on dictionaries *)

Lemma check_relationship_spec (i : nat) (errors : list string) (r : json) :
  exists more,
    check_relationship (i, errors) r = Ok (S i, errors ++ more)
    /\ Forall (head_is "R") more
    /\ (forall kv v,
          r = JObj kv -> dict_get "type" kv = Some v ->
          existsb (py_eq v) (map JStr valid_types) = false ->
          In (rel_invalid_type_msg i v) more).
Proof.
  unfold check_relationship.
  destruct r as [| b | z | s | xs | kv]; cbn [is_dict negb];
    try (eexists; split; [reflexivity|];
         split; [repeat constructor|intros ? ? ?; discriminate]).
  cbn [py_in bind]. unfold dict_has, py_getitem.
  destruct (dict_get "type" kv) as [v|] eqn:Et; cbn [bind];
    [destruct (existsb (py_eq v) (map JStr valid_types)) eqn:Ev|];
    destruct (dict_get "target" kv);
    match goal with
    | |- exists more, Ok (_, ?errs ++ [?a] ++ [?b]) = _ /\ _ => exists [a; b]
    | |- exists more, Ok (_, (?errs ++ [?a]) ++ [?b]) = _ /\ _ =>
        exists [a; b]; rewrite <- app_assoc
    | |- exists more, Ok (_, ?errs ++ [?a]) = _ /\ _ => exists [a]
    | |- exists more, Ok (_, ?errs) = _ /\ _ => exists []; rewrite app_nil_r
    end;
    (split; [reflexivity|]);
    (split; [repeat constructor|]);
    intros kv' v' Hkv Hv' Hno; injection Hkv as <-;
    rewrite Et in Hv'; try discriminate; injection Hv' as <-;
    try congruence; simpl; auto.
Qed.

Lemma check_relationships_spec (rs : list json) :
  forall (i : nat) (errors : list string),
  exists more,
    foldM check_relationship rs (i, errors)
    = Ok (i + List.length rs, errors ++ more)
    /\ Forall (head_is "R") more
    /\ (forall j kv v,
          nth_error rs j = Some (JObj kv) -> dict_get "type" kv = Some v ->
          existsb (py_eq v) (map JStr valid_types) = false ->
          In (rel_invalid_type_msg (i + j) v) more).
Proof.
  induction rs as [|r rs IH]; intros i errors.
  - exists []. cbn [foldM List.length]. rewrite app_nil_r, Nat.add_0_r.
    split; [reflexivity|]. split; [constructor|].
    intros [|j] ? ? H; discriminate.
  - destruct (check_relationship_spec i errors r) as (m1 & H1 & R1 & P1).
    destruct (IH (S i) (errors ++ m1)) as (m2 & H2 & R2 & P2).
    exists (m1 ++ m2). cbn [foldM]. rewrite H1. cbn [bind]. rewrite H2.
    split; [|split].
    + cbn [List.length]. rewrite app_assoc. f_equal. f_equal. lia.
    + apply Forall_app. auto.
    + intros [|j] kv v Hn Ht Hno; apply in_or_app.
      * left. rewrite Nat.add_0_r. cbn in Hn. injection Hn as ->. eauto.
      * right. replace (i + S j) with (S i + j) by lia. eauto.
Qed.

Lemma required_dict (e : list (string * json)) :
  foldM (check_required (JObj e)) required_fields []
  = Ok ((if dict_has "name" e then [] else [missing_field_msg "name"])
        ++ (if dict_has "type" e then [] else [missing_field_msg "type"])).
Proof.
  unfold required_fields. cbn [foldM]. unfold check_required. cbn [py_in bind].
  destruct (dict_has "name" e), (dict_has "type" e); reflexivity.
Qed.

Lemma check_is_list_dict (e : list (string * json)) (key msg : string)
  (errors : list string) :
  check_is_list (JObj e) key msg errors
  = Ok (errors ++ match dict_get key e with
                  | Some v => if is_list v then [] else [msg]
                  | None => []
                  end).
Proof.
  unfold check_is_list. cbn [py_in bind]. unfold dict_has, py_getitem.
  destruct (dict_get key e) as [v|]; cbn [bind].
  - destruct (is_list v); now rewrite ?app_nil_r.
  - now rewrite app_nil_r.
Qed.

Lemma check_relationships_dict (e : list (string * json))
  (errors : list string) :
  exists more,
    check_relationships (JObj e) errors = Ok (errors ++ more)
    /\ Forall (head_is "R") more
    /\ (forall rs i kv v,
          dict_get "relationships" e = Some (JArr rs) ->
          nth_error rs i = Some (JObj kv) -> dict_get "type" kv = Some v ->
          existsb (py_eq v) (map JStr valid_types) = false ->
          In (rel_invalid_type_msg i v) more).
Proof.
  unfold check_relationships. cbn [py_in bind]. unfold dict_has, py_getitem.
  destruct (dict_get "relationships" e) as [c|]; cbn [bind].
  2:{ exists []. rewrite app_nil_r. repeat split; auto. discriminate. }
  destruct c as [| | | |rs|]; cbn [is_list];
    try (exists []; rewrite app_nil_r; repeat split; auto; discriminate).
  cbn [py_iter bind].
  destruct (check_relationships_spec rs 0 errors) as (more & H & R & P).
  exists more. rewrite H. cbn [bind snd]. split; [reflexivity|].
  split; [assumption|].
  intros rs' i kv v Hrs. injection Hrs as <-. apply (P i).
Qed.

Lemma missing_field_msg_inj (f g : string) :
  missing_field_msg f = missing_field_msg g -> f = g.
Proof. unfold missing_field_msg. cbn. intros H. now injection H. Qed.

Lemma validate_dict (e : list (string * json)) :
  exists errors,
    validate_entity_json (JObj e)
    = Ok (match errors with [] => true | _ => false end, errors)
    /\ (forall f, In (missing_field_msg f) errors -> dict_has f e = false)
    /\ (forall rs i kv v,
          dict_get "relationships" e = Some (JArr rs) ->
          nth_error rs i = Some (JObj kv) -> dict_get "type" kv = Some v ->
          existsb (py_eq v) (map JStr valid_types) = false ->
          In (rel_invalid_type_msg i v) errors).
Proof.
  unfold validate_entity_json.
  rewrite required_dict. cbn [bind].
  rewrite check_is_list_dict. cbn [bind].
  rewrite check_is_list_dict. cbn [bind].
  match goal with
  | |- context [check_relationships (JObj e) ?errs] =>
      destruct (check_relationships_dict e errs) as (more & H & R & P);
      rewrite H; exists (errs ++ more)
  end.
  cbn [bind]. split; [reflexivity|]. split.
  - intros f Hin.
    repeat (apply in_app_or in Hin as [Hin|Hin]).
    + destruct (dict_has "name" e) eqn:E; [contradiction|].
      destruct Hin as [Hin|[]]. apply missing_field_msg_inj in Hin. congruence.
    + destruct (dict_has "type" e) eqn:E; [contradiction|].
      destruct Hin as [Hin|[]]. apply missing_field_msg_inj in Hin. congruence.
    + destruct (dict_get "relationships" e) as [v|]; [|contradiction].
      destruct (is_list v); [contradiction|].
      destruct Hin as [Hin|[]]. discriminate.
    + destruct (dict_get "subsidiaries" e) as [v|]; [|contradiction].
      destruct (is_list v); [contradiction|].
      destruct Hin as [Hin|[]]. discriminate.
    + rewrite Forall_forall in R. apply R in Hin. cbn in Hin. discriminate.
  - intros rs i kv v H1 H2 H3 H4. apply in_or_app. right. eauto.
Qed.

(** ** The defaults of the enrichment step *)

Lemma fill_default_dict (d : list (string * json)) (field : string) :
  fill_default (JObj d) field = Ok (JObj (fill d field)).
Proof.
  unfold fill_default, fill, default_of. cbn [py_in bind py_setitem].
  destruct (dict_has field d); reflexivity.
Qed.

Lemma fill_defaults_dict (fields : list string) :
  forall d, foldM fill_default fields (JObj d)
            = Ok (JObj (fold_left fill fields d)).
Proof.
  induction fields as [|f fields IH]; intros d; cbn [foldM fold_left]; auto.
  rewrite fill_default_dict. cbn [bind]. apply IH.
Qed.

Lemma fill_other (d : list (string * json)) (field k : string) :
  k <> field -> dict_get k (fill d field) = dict_get k d.
Proof.
  intros Hne. unfold fill. destruct (dict_has field d); auto.
  now apply dict_get_set_other.
Qed.

Lemma fill_same (d : list (string * json)) (field : string) :
  dict_get field (fill d field) = filled_value d field.
Proof.
  unfold fill, filled_value, dict_has.
  destruct (dict_get field d) as [v|] eqn:E; [assumption|].
  apply dict_get_set_same.
Qed.

Lemma fills_other (fields : list string) (k : string) :
  ~ In k fields ->
  forall d, dict_get k (fold_left fill fields d) = dict_get k d.
Proof.
  induction fields as [|f fields IH]; intros Hk d; cbn [fold_left]; auto.
  rewrite IH by (intros H; apply Hk; now right).
  apply fill_other. intros ->. apply Hk. now left.
Qed.

Lemma fills_field (fields : list string) (k : string) :
  NoDup fields -> In k fields ->
  forall d, dict_get k (fold_left fill fields d) = filled_value d k.
Proof.
  induction fields as [|f fields IH]; intros Hnd Hin d; [contradiction|].
  inversion Hnd as [|? ? Hnotin Hnd']; subst. cbn [fold_left].
  destruct Hin as [->|Hin].
  - rewrite fills_other by assumption. apply fill_same.
  - rewrite IH by assumption. unfold filled_value.
    rewrite fill_other; auto. intros ->. contradiction.
Qed.

Lemma enriched_fields_nodup : NoDup enriched_fields.
Proof.
  unfold enriched_fields. repeat constructor; simpl; intuition discriminate.
Qed.

Lemma enrich_object_payload (env : environment) (entity_name : string)
  (scraped_data : list (string * json)) (response_text : string)
  (d : list (string * json)) :
  api_key_configured env = true ->
  items_of scraped_data "infobox" = Ok tt ->
  items_of scraped_data "sections" = Ok tt ->
  claude_reply env entity_name scraped_data = Ok response_text ->
  json_loads env (json_text_of response_text) = Ok (JObj d) ->
  enrich_entity_data env entity_name scraped_data
  = JObj (fold_left fill enriched_fields d).
Proof.
  intros Hkey Hi Hs Hr Hl. unfold enrich_entity_data, payload_of, fill_defaults.
  rewrite Hkey, Hi, Hs, Hr. cbn [negb bind]. rewrite Hl. cbn [bind].
  now rewrite fill_defaults_dict.
Qed.

(** ** Splitting at fences *)

Lemma starts_with_app (sep a b : string) :
  starts_with sep a = true -> starts_with sep (a ++ b) = true.
Proof.
  revert a. induction sep as [|c sep IH]; intros a H; [reflexivity|].
  destruct a as [|x a]; [discriminate|]. cbn in *.
  apply andb_prop in H as [Hc H]. rewrite Hc. cbn. now apply IH.
Qed.

Lemma starts_with_long (sep a b : string) :
  String.length sep <= String.length a ->
  starts_with sep (a ++ b) = starts_with sep a.
Proof.
  revert a. induction sep as [|c sep IH]; intros a H; [reflexivity|].
  destruct a as [|x a]; [cbn in H; lia|]. cbn in *.
  rewrite IH by lia. reflexivity.
Qed.

Lemma starts_with_self (sep rest : string) :
  starts_with sep (sep ++ rest) = true.
Proof.
  induction sep as [|c sep IH]; [reflexivity|].
  cbn. now rewrite Ascii.eqb_refl.
Qed.

Lemma append_assoc (a b c : string) :
  ((a ++ b) ++ c = a ++ (b ++ c))%string.
Proof. induction a as [|x a IH]; cbn; [reflexivity|now rewrite IH]. Qed.

Lemma append_nil_r (a : string) : (a ++ "" = a)%string.
Proof. induction a as [|x a IH]; cbn; [reflexivity|now rewrite IH]. Qed.

Lemma length_append (a b : string) :
  String.length (a ++ b) = String.length a + String.length b.
Proof. induction a as [|x a IH]; cbn; [reflexivity|now rewrite IH]. Qed.

(** No occurrence starts inside [pre], whatever follows the separator. *)
Lemma starts_inside_tail (sep pre rest : string) :
  starts_inside sep pre sep = false ->
  starts_inside sep pre (sep ++ rest) = false.
Proof.
  induction pre as [|c pre IH]; intros H; [reflexivity|].
  cbn [starts_inside] in *. apply orb_false_elim in H as [H1 H2].
  rewrite IH by assumption. rewrite orb_false_r.
  rewrite <- append_assoc.
  rewrite starts_with_long; [assumption|].
  rewrite length_append. cbn. lia.
Qed.

Lemma before_first (sep pre rest : string) :
  first_at_end sep pre = true ->
  before sep (pre ++ sep ++ rest) = pre.
Proof.
  unfold first_at_end. intros H. apply negb_true_iff in H.
  apply (starts_inside_tail _ _ rest) in H.
  induction pre as [|c pre IH].
  - cbn [append]. destruct (sep ++ rest)%string as [|x s] eqn:E; [reflexivity|].
    cbn [before]. rewrite <- E. now rewrite starts_with_self.
  - cbn [starts_inside] in H. apply orb_false_elim in H as [H1 H2].
    cbn [append before]. cbn [append] in H1. rewrite H1.
    now rewrite IH.
Qed.

Lemma before_whole (sep pre : string) :
  first_at_end sep pre = true -> before sep pre = pre.
Proof.
  unfold first_at_end. intros H. apply negb_true_iff in H.
  induction pre as [|c pre IH]; [reflexivity|].
  cbn [starts_inside] in H. apply orb_false_elim in H as [H1 H2].
  cbn [before].
  destruct (starts_with sep (String c pre)) eqn:E.
  - apply (starts_with_app _ _ sep) in E. congruence.
  - now rewrite IH.
Qed.

Lemma nth0_split (sep s : string) :
  forall cur, nth 0 (split_go sep s 0 cur) "" = (cur ++ before sep s)%string.
Proof.
  induction s as [|c s IH]; intros cur; cbn [split_go before].
  - cbn. now rewrite append_nil_r.
  - destruct (starts_with sep (String c s)).
    + cbn. now rewrite append_nil_r.
    + rewrite IH, append_assoc. reflexivity.
Qed.

Lemma split_skip (sep a rest : string) :
  forall cur,
    split_go sep (a ++ rest) (String.length a) cur = split_go sep rest 0 cur.
Proof.
  induction a as [|x a IH]; intros cur.
  - cbn [append String.length]. destruct rest; reflexivity.
  - cbn. apply IH.
Qed.

Lemma nth1_split (sep pre rest : string) :
  sep <> "" ->
  first_at_end sep pre = true ->
  forall cur,
    nth 1 (split_go sep (pre ++ sep ++ rest) 0 cur) ""
    = before sep rest.
Proof.
  intros Hsep H. unfold first_at_end in H. apply negb_true_iff in H.
  apply (starts_inside_tail _ _ rest) in H.
  induction pre as [|c pre IH]; intros cur.
  - destruct sep as [|x sep]; [contradiction|].
    cbn [append split_go].
    pose proof (starts_with_self (String x sep) rest) as Hs.
    cbn [append] in Hs. rewrite Hs.
    replace (String.length (String x sep) - 1) with (String.length sep)
      by (cbn [String.length]; lia).
    rewrite split_skip. cbn [nth]. apply nth0_split.
  - cbn [starts_inside] in H. apply orb_false_elim in H as [H1 H2].
    cbn [append split_go]. cbn [append] in H1. rewrite H1.
    now apply IH.
Qed.

Lemma substring_in_app (sep pre rest : string) :
  substring_in sep (pre ++ sep ++ rest) = true.
Proof.
  induction pre as [|c pre IH].
  - cbn [append]. destruct (sep ++ rest)%string as [|x s] eqn:E.
    + destruct sep; [reflexivity|discriminate].
    + cbn [substring_in]. rewrite <- E, starts_with_self. reflexivity.
  - cbn [append substring_in]. rewrite IH. apply orb_true_r.
Qed.

Lemma starts_with_prefix (a b s : string) :
  starts_with (a ++ b) s = true -> starts_with a s = true.
Proof.
  revert s. induction a as [|x a IH]; intros s H; [reflexivity|].
  destruct s as [|c s]; [discriminate|]. cbn in *.
  apply andb_prop in H as [Hc H]. rewrite Hc. cbn. now apply IH.
Qed.

(** Up to the closing fence, the tagged fence cannot occur either. *)
Lemma before_tagged_body (body post : string) :
  first_at_end fence body = true ->
  before fence_json (body ++ fence ++ post)
  = (body ++ before fence_json (fence ++ post))%string.
Proof.
  unfold first_at_end. intros H. apply negb_true_iff in H.
  apply (starts_inside_tail _ _ post) in H.
  induction body as [|c body IH]; [reflexivity|].
  cbn [starts_inside] in H. apply orb_false_elim in H as [H1 H2].
  cbn [append before]. cbn [append] in H1.
  destruct (starts_with fence_json (String c (body ++ fence ++ post))) eqn:E.
  - apply (starts_with_prefix fence "json") in E. congruence.
  - now rewrite IH.
Qed.

Lemma before_tagged_fence (post : string) :
  starts_with "`" post = false ->
  before fence_json (fence ++ post) = ""
  \/ exists rest, before fence_json (fence ++ post) = (fence ++ rest)%string.
Proof.
  intros H. unfold fence, fence_json. cbn [append before].
  destruct (starts_with "```json" (String "`" (String "`" (String "`" post))));
    [now left|right].
  destruct post as [|c post].
  - exists "". reflexivity.
  - cbn [starts_with] in H. rewrite andb_true_r in H.
    cbn [starts_with]. rewrite !Ascii.eqb_refl. cbn [andb].
    rewrite H. cbn [andb]. eexists. reflexivity.
Qed.

Lemma fenced_content (body post : string) :
  first_at_end fence body = true ->
  starts_with "`" post = false ->
  before fence (before fence_json (body ++ fence ++ post)) = body.
Proof.
  intros Hbody Hpost. rewrite before_tagged_body by assumption.
  destruct (before_tagged_fence post Hpost) as [-> | (rest & ->)].
  - rewrite append_nil_r. now apply before_whole.
  - now apply before_first.
Qed.

Lemma json_text_of_fenced (pre body post : string) :
  first_at_end fence_json pre = true ->
  first_at_end fence body = true ->
  starts_with "`" post = false ->
  json_text_of (pre ++ fence_json ++ body ++ fence ++ post) = py_strip body.
Proof.
  intros Hpre Hbody Hpost. unfold json_text_of.
  rewrite substring_in_app. unfold py_split.
  rewrite nth1_split by (assumption || discriminate).
  rewrite nth0_split. cbn [append].
  now rewrite fenced_content.
Qed.

(** * The claims *)

(** C3 (as amended).  For every non-empty existing record [E], every
    incoming record [N] and every scalar field [f] among name, type, parent
    and revenue: a merge that returns maps [f] to N's value when [f] is
    present in [N] with a truthy value (non-empty, non-null, non-zero), and
    to E's value, or to nothing when [E] has none, otherwise. *)
Theorem merge_scalar_rule (e n : list (string * json)) (f : string) (M : json) :
  e <> [] ->
  In f scalar_fields ->
  merge_entity_data (JObj e) (JObj n) = Ok M ->
  exists m, M = JObj m /\ dict_get f m = merged_scalar e n f.
Proof.
  intros He Hf H.
  destruct (merge_stages e n M He H) as (m2 & m3 & H2 & H3 & ->).
  exists m3. split; [reflexivity|].
  destruct (merge_subsidiaries_frame _ _ _ H2) as (m2' & E2 & F2 & _).
  destruct (merge_relationships_frame _ _ _ H3) as (m3' & E3 & F3 & _).
  inversion E2; inversion E3; subst m2' m3'.
  assert (Hne : f <> "subsidiaries" /\ f <> "relationships").
  { unfold scalar_fields in Hf. simpl in Hf.
    split; intros ->; intuition discriminate. }
  destruct Hne as [Hs Hr].
  rewrite F3, F2 by assumption.
  apply scalar_updates_field; auto using scalar_fields_nodup.
Qed.

Lemma merge_scalar_rule_witness :
  exists m,
    JObj [("name", JStr "Acme"); ("revenue", JStr "10B")] = JObj m
    /\ dict_get "revenue" m
       = merged_scalar [("name", JStr "Acme"); ("revenue", JStr "10B")]
           [("name", JStr "Acme"); ("revenue", JStr "")] "revenue".
Proof.
  apply (merge_scalar_rule
           [("name", JStr "Acme"); ("revenue", JStr "10B")]
           [("name", JStr "Acme"); ("revenue", JStr "")] "revenue").
  - discriminate.
  - simpl. auto.
  - reflexivity.
Defined.

(** C3, as stated, fails on an empty existing record: the merge returns the
    incoming record as it is, empty name included, where the rule gives the
    existing record's (absent) name. *)
Lemma merge_scalar_rule_empty_existing :
  merge_entity_data (JObj []) (JObj [("name", JStr "")])
  = Ok (JObj [("name", JStr "")])
  /\ dict_get "name" [("name", JStr "")]
     <> merged_scalar [] [("name", JStr "")] "name".
Proof. split; [reflexivity|discriminate]. Qed.

(** C8 (as amended).  For an existing record [E] and an incoming record
    [N] that both hold a list of subsidiary names, the subsidiaries of a
    merge that returns are the order-preserving union: E's entries first,
    in their order, followed by the entries of N not already present in E
    (exact string equality), in N's order, a name repeated in N being taken
    once, at its first occurrence. *)
Theorem merge_subsidiaries_union (e n : list (string * json))
  (es ns : list string) (M : json) :
  dict_get "subsidiaries" e = Some (strs es) ->
  dict_get "subsidiaries" n = Some (strs ns) ->
  merge_entity_data (JObj e) (JObj n) = Ok M ->
  exists m, M = JObj m
            /\ dict_get "subsidiaries" m = Some (strs (ordered_union es ns)).
Proof.
  intros He Hn H.
  assert (Hne : e <> []) by (intros ->; discriminate).
  destruct (merge_stages e n M Hne H) as (m2 & m3 & H2 & H3 & ->).
  exists m3. split; [reflexivity|].
  destruct (merge_relationships_frame _ _ _ H3) as (m3' & E3 & F3 & _).
  injection E3 as <-. rewrite F3 by discriminate.
  rewrite merge_subsidiaries_dict, Hn in H2.
  assert (Hget : dict_get "subsidiaries"
                   (fold_left (scalar_update n) scalar_fields e)
                 = Some (strs es)).
  { rewrite scalar_updates_other, He; auto.
    unfold scalar_fields. simpl. intuition discriminate. }
  assert (Hslot : slot "subsidiaries"
                    (fold_left (scalar_update n) scalar_fields e) = strs es)
    by (unfold slot; now rewrite Hget).
  destruct ns as [|x ns].
  - cbn [strs map truthy] in H2. injection H2 as <-.
    unfold ordered_union. cbn [filter dedup]. rewrite app_nil_r. exact Hget.
  - cbn [strs map truthy py_iter bind] in H2.
    rewrite Hslot in H2. unfold strs in H2.
    change (JStr x :: map JStr ns) with (map JStr (x :: ns)) in H2.
    rewrite add_subsidiaries_list, add_subs_names, add_names_union in H2.
    cbn [bind] in H2.
    injection H2 as <-. rewrite dict_get_set_same. reflexivity.
Qed.

Lemma merge_subsidiaries_union_witness :
  exists m,
    JObj [("name", JStr "A"); ("subsidiaries", strs ["X"; "Y"; "Z"])] = JObj m
    /\ dict_get "subsidiaries" m = Some (strs (ordered_union ["X"; "Y"] ["Y"; "Z"])).
Proof.
  apply (merge_subsidiaries_union
           [("name", JStr "A"); ("subsidiaries", strs ["X"; "Y"])]
           [("name", JStr "A"); ("subsidiaries", strs ["Y"; "Z"])]
           ["X"; "Y"] ["Y"; "Z"]); reflexivity.
Defined.

(** C8, as stated, fails when the incoming list repeats a new name: the
    second occurrence finds the name already appended and is dropped, where
    the stated union keeps every incoming entry that is not in E. *)
Lemma merge_subsidiaries_repeated_name :
  merge_entity_data
    (JObj [("name", JStr "A"); ("subsidiaries", strs ["X"])])
    (JObj [("subsidiaries", strs ["Z"; "Z"])])
  = Ok (JObj [("name", JStr "A"); ("subsidiaries", strs ["X"; "Z"])])
  /\ stated_union ["X"] ["Z"; "Z"] = ["X"; "Z"; "Z"]
  /\ strs ["X"; "Z"] <> strs (stated_union ["X"] ["Z"; "Z"]).
Proof. repeat split; try reflexivity. discriminate. Qed.

(** C2.  For every existing record [E] and incoming record [N] (an absent
    relationships key counting as the empty list), the relationships of a
    merge that returns are the union keyed by the (target, type) pair: the
    existing entries stay as they are, auxiliary attributes included, and
    in their places; an incoming relationship is appended only if no
    existing relationship has its (target, type); and every incoming
    relationship that has a key is in the result or shares its key with an
    entry of the result. *)
Theorem merge_relationships_keyed_union (e n : list (string * json))
  (es ns : list json) (M : json) :
  slot "relationships" e = JArr es ->
  slot "relationships" n = JArr ns ->
  merge_entity_data (JObj e) (JObj n) = Ok M ->
  exists m added,
    M = JObj m
    /\ slot "relationships" m = JArr (es ++ added)
    /\ (forall r, In r added ->
          In r ns /\ forall x, In x es -> same_key r x = false)
    /\ (forall r k, In r ns -> key_of r = Some k ->
          exists x, In x (es ++ added) /\ (x = r \/ same_key r x = true)).
Proof.
  intros He Hn H.
  destruct e as [|kv e].
  - (* an empty existing record: the incoming record is returned *)
    cbn in H. injection H as <-. cbn in He. injection He as <-.
    exists n, ns. split; [reflexivity|]. split; [assumption|].
    split.
    + intros r Hr. split; [assumption|intros x []].
    + intros r k Hr _. exists r. auto.
  - assert (Hne : kv :: e <> []) by discriminate.
    destruct (merge_stages _ n M Hne H) as (m2 & m3 & H2 & H3 & ->).
    pose proof (merge_keeps_slot _ _ _ H2) as Hslot. rewrite He in Hslot.
    destruct (merge_relationships_spec _ _ _ _ _ Hslot Hn H3)
      as (added & Hm3 & Hnew & Hcov).
    exists m3, added. split; [reflexivity|]. split; [assumption|].
    split.
    + intros r Hr. apply in_split in Hr as (l1 & l2 & ->).
      destruct (Hnew _ _ _ eq_refl) as [Hin Hdiff].
      split; [assumption|].
      intros x Hx. apply Hdiff. apply in_or_app. now left.
    + intros r k Hr Hk. destruct (Hcov r k Hr Hk) as (x & Hx & Hsame).
      exists x. auto.
Qed.

Lemma merge_relationships_keyed_union_witness :
  exists m added,
    JObj [("name", JStr "A");
          ("relationships",
           JArr [JObj [("target", JStr "P"); ("type", JStr "owned_by");
                       ("since", JInt 2001)];
                 rel "Q" "partner"])]
    = JObj m
    /\ slot "relationships" m
       = JArr ([JObj [("target", JStr "P"); ("type", JStr "owned_by");
                      ("since", JInt 2001)]] ++ added)
    /\ (forall r, In r added ->
          In r [JObj [("target", JStr "P"); ("type", JStr "owned_by");
                      ("since", JInt 1999)];
                rel "Q" "partner"]
          /\ forall x,
               In x [JObj [("target", JStr "P"); ("type", JStr "owned_by");
                           ("since", JInt 2001)]] ->
               same_key r x = false)
    /\ (forall r k,
          In r [JObj [("target", JStr "P"); ("type", JStr "owned_by");
                      ("since", JInt 1999)];
                rel "Q" "partner"] ->
          key_of r = Some k ->
          exists x,
            In x ([JObj [("target", JStr "P"); ("type", JStr "owned_by");
                         ("since", JInt 2001)]] ++ added)
            /\ (x = r \/ same_key r x = true)).
Proof.
  apply (merge_relationships_keyed_union
           [("name", JStr "A");
            ("relationships",
             JArr [JObj [("target", JStr "P"); ("type", JStr "owned_by");
                         ("since", JInt 2001)]])]
           [("relationships",
             JArr [JObj [("target", JStr "P"); ("type", JStr "owned_by");
                         ("since", JInt 1999)];
                   rel "Q" "partner"])]);
    reflexivity.
Defined.

(** The merge of the specification's example: the incoming entry with the
    key of an existing one is dropped, the existing entry keeps its
    auxiliary data, the new key is appended. *)
Example merge_keeps_existing_entry :
  merge_entity_data
    (JObj [("name", JStr "A");
           ("relationships",
            JArr [JObj [("target", JStr "P"); ("type", JStr "owned_by");
                        ("since", JInt 2001)]])])
    (JObj [("relationships",
            JArr [JObj [("target", JStr "P"); ("type", JStr "owned_by");
                        ("since", JInt 1999)];
                  rel "Q" "partner"])])
  = Ok (JObj [("name", JStr "A");
              ("relationships",
               JArr [JObj [("target", JStr "P"); ("type", JStr "owned_by");
                           ("since", JInt 2001)];
                     rel "Q" "partner"])]).
Proof. reflexivity. Qed.

(** C9.  [merge_entity_data] is not total on dictionaries.  Whenever the
    relationships list of the existing record has an entry lacking target
    or type (the entries before it being well formed), and the incoming
    record has a non-empty relationships list, the merge raises KeyError
    while building the lookup set; and it returns whenever every
    relationship entry of the existing record carries both keys, the
    records being well shaped otherwise. *)
Theorem merge_total_only_on_keyed_entries :
  (forall (e n : list (string * json)) (pre post ns : list json)
          (kv : list (string * json)),
      dict_get "relationships" e = Some (JArr (pre ++ JObj kv :: post)) ->
      forallb keyed_entry pre = true ->
      dict_get "target" kv = None \/ dict_get "type" kv = None ->
      list_or_absent (fun _ => true) "subsidiaries" e = true ->
      list_or_absent (fun _ => true) "subsidiaries" n = true ->
      dict_get "relationships" n = Some (JArr ns) ->
      ns <> [] ->
      exists k, merge_entity_data (JObj e) (JObj n) = Raise (KeyError k)
                /\ (k = "target" \/ k = "type"))
  /\ (forall E N : json,
        record_shape keyed_entry E = true ->
        record_shape loose_entry N = true ->
        exists M, merge_entity_data E N = Ok M).
Proof.
  split.
  - intros e n pre post ns kv.
    intros He Hpre Hkv Hse Hsn Hn Hns.
    assert (Hne : e <> []) by (intros ->; discriminate).
    rewrite merge_unfold by assumption.
    destruct (merge_subsidiaries_total n
                (fold_left (scalar_update n) scalar_fields e)) as (m2 & H2).
    { assumption. }
    { rewrite (list_or_absent_frame _ _ e); [assumption|].
      apply scalar_updates_other, scalar_fields_not. now left. }
    rewrite H2. cbn [bind].
    pose proof (merge_keeps_slot _ _ _ H2) as Hslot.
    unfold slot at 2 in Hslot. rewrite He in Hslot.
    rewrite merge_relationships_dict, Hn.
    destruct ns as [|r0 ns]; [contradiction|].
    cbn [truthy]. rewrite Hslot. cbn [py_iter bind].
    destruct (collect_keys_key_error pre post kv Hpre Hkv [])
      as (k & Hk & Hor).
    rewrite Hk. cbn [bind]. eauto.
  - exact merge_returns.
Qed.

Lemma merge_total_only_on_keyed_entries_witness :
  (exists k,
      merge_entity_data
        (JObj [("name", JStr "A");
               ("relationships", JArr [JObj [("target", JStr "X")]])])
        (JObj [("relationships", JArr [rel "P" "owns"])])
      = Raise (KeyError k)
      /\ (k = "target" \/ k = "type"))
  /\ (exists M,
        merge_entity_data
          (JObj [("name", JStr "A"); ("relationships", JArr [rel "X" "owns"])])
          (JObj [("relationships", JArr [rel "P" "owns"; JObj []])])
        = Ok M).
Proof.
  split.
  - apply (proj1 merge_total_only_on_keyed_entries
             [("name", JStr "A");
              ("relationships", JArr [JObj [("target", JStr "X")]])]
             [("relationships", JArr [rel "P" "owns"])]
             [] [] [rel "P" "owns"] [("target", JStr "X")]);
      try reflexivity.
    + now right.
    + discriminate.
  - apply (proj2 merge_total_only_on_keyed_entries); reflexivity.
Defined.

(** C1.  Merging is idempotent with respect to repeated identical
    enrichment: for well-formed entity records [A] and [B] (dictionaries
    whose subsidiaries and relationships are lists when present, every
    relationship entry carrying a target and a type that are scalars),
    [merge_entity_data A B] returns a record, and merging [B] into that
    record again returns the same record. *)
Theorem merge_idempotent (A B : json) :
  well_formed A = true ->
  well_formed B = true ->
  exists M, merge_entity_data A B = Ok M /\ merge_entity_data M B = Ok M.
Proof.
  intros HA HB.
  assert (HsA : record_shape keyed_entry A = true)
    by (unfold well_formed in HA; now apply andb_prop in HA as [_ ?]).
  assert (HsB : record_shape keyed_entry B = true)
    by (unfold well_formed in HB; now apply andb_prop in HB as [_ ?]).
  destruct A as [| | | | |e]; try discriminate.
  destruct B as [| | | | |n]; try discriminate.
  destruct e as [|kv e].
  - (* the existing record is empty: the incoming record is returned *)
    exists (JObj n). split; [reflexivity|].
    destruct n as [|kv n]; [reflexivity|].
    apply absorbed_fixpoint; [assumption|discriminate|].
    now apply absorbed_self.
  - assert (HlB : record_shape loose_entry (JObj n) = true).
    { cbn [record_shape] in *. apply andb_prop in HsB as [Hs Hr].
      rewrite Hs. cbn [andb]. unfold list_or_absent in *.
      destruct (dict_get "relationships" n) as [v|]; auto.
      destruct v as [| | | |l|]; auto.
      apply forallb_forall. intros r Hr'. apply keyed_entry_loose.
      rewrite forallb_forall in Hr. now apply Hr. }
    destruct (merge_returns _ _ HsA HlB) as (M & HM).
    exists M. split; [assumption|].
    assert (Hne : kv :: e <> []) by discriminate.
    destruct (merge_absorbs _ _ _ Hne HsA HB HM) as (m & -> & Hm & Habs).
    now apply absorbed_fixpoint.
Qed.

Lemma merge_idempotent_witness :
  exists M,
    merge_entity_data
      (JObj [("name", JStr "A"); ("subsidiaries", strs ["X"; "Y"]);
             ("relationships", JArr [rel "P" "owned_by"])])
      (JObj [("name", JStr "A"); ("revenue", JStr "10B");
             ("subsidiaries", strs ["Y"; "Z"]);
             ("relationships", JArr [rel "P" "owned_by"; rel "Q" "partner"])])
    = Ok M
    /\ merge_entity_data M
         (JObj [("name", JStr "A"); ("revenue", JStr "10B");
                ("subsidiaries", strs ["Y"; "Z"]);
                ("relationships", JArr [rel "P" "owned_by"; rel "Q" "partner"])])
       = Ok M.
Proof.
  apply merge_idempotent; reflexivity.
Defined.

(** C7.  For every record whose relationships list holds, at index [i], an
    object whose type is outside the six relationship types,
    [validate_entity_json] returns ok = false and its errors list contains
    the indexed message naming [i] and the invalid type value. *)
Theorem validate_reports_invalid_type (e : list (string * json))
  (rs : list json) (i : nat) (kv : list (string * json)) (v : json) :
  dict_get "relationships" e = Some (JArr rs) ->
  nth_error rs i = Some (JObj kv) ->
  dict_get "type" kv = Some v ->
  existsb (py_eq v) (map JStr valid_types) = false ->
  exists errors,
    validate_entity_json (JObj e) = Ok (false, errors)
    /\ In ("Relationship at index " ++ str_of_nat i
             ++ " has invalid type: " ++ py_str v)%string errors.
Proof.
  intros He Hi Ht Hv.
  destruct (validate_dict e) as (errors & H & _ & P).
  specialize (P rs i kv v He Hi Ht Hv).
  exists errors. split; [|exact P].
  rewrite H. destruct errors; [contradiction|reflexivity].
Qed.

Lemma validate_reports_invalid_type_witness :
  exists errors,
    validate_entity_json
      (JObj [("name", JStr "Acme"); ("type", JStr "Vendor");
             ("relationships", JArr [rel "X" "ally"])])
    = Ok (false, errors)
    /\ In "Relationship at index 0 has invalid type: ally" errors.
Proof.
  apply (validate_reports_invalid_type
           [("name", JStr "Acme"); ("type", JStr "Vendor");
            ("relationships", JArr [rel "X" "ally"])]
           [rel "X" "ally"] 0
           [("target", JStr "X"); ("type", JStr "ally")] (JStr "ally"));
    reflexivity.
Defined.

(** The report for the record of the specification's example, in full. *)
Example validate_acme :
  validate_entity_json
    (JObj [("name", JStr "Acme"); ("type", JStr "Vendor");
           ("relationships", JArr [rel "X" "ally"])])
  = Ok (false, ["Relationship at index 0 has invalid type: ally"]).
Proof. reflexivity. Qed.

(** C10 (as amended).  Whenever the reply of the model parses to a JSON
    object, the record returned by [enrich_entity_data] holds the four keys
    name, type, subsidiaries and relationships, a key the object lacks
    being set to the empty list (subsidiaries, relationships) or to null
    (name, type), and [validate_entity_json] reports neither name nor type
    of that record as missing. *)
Theorem enriched_record_has_required_fields (env : environment)
  (entity_name : string) (scraped_data : list (string * json))
  (response_text : string) (d : list (string * json)) :
  api_key_configured env = true ->
  items_of scraped_data "infobox" = Ok tt ->
  items_of scraped_data "sections" = Ok tt ->
  claude_reply env entity_name scraped_data = Ok response_text ->
  json_loads env (json_text_of response_text) = Ok (JObj d) ->
  exists r ok errors,
    enrich_entity_data env entity_name scraped_data = JObj r
    /\ (forall f, In f enriched_fields ->
          dict_get f r = match dict_get f d with
                         | Some v => Some v
                         | None => Some (default_of f)
                         end)
    /\ validate_entity_json (JObj r) = Ok (ok, errors)
    /\ (forall f, In f required_fields -> ~ In (missing_field_msg f) errors).
Proof.
  intros Hkey Hi Hs Hr Hl.
  rewrite (enrich_object_payload _ _ _ _ _ Hkey Hi Hs Hr Hl).
  destruct (validate_dict (fold_left fill enriched_fields d))
    as (errors & Hv & Hmiss & _).
  eexists. eexists. exists errors. split; [reflexivity|].
  split; [|split; [exact Hv|]].
  - intros f Hf. now apply fills_field; [apply enriched_fields_nodup|].
  - intros f Hf Hin. apply Hmiss in Hin.
    unfold dict_has in Hin.
    rewrite fills_field in Hin; [|apply enriched_fields_nodup|].
    + unfold filled_value in Hin. destruct (dict_get f d); discriminate.
    + unfold required_fields, enriched_fields in *. simpl in *. tauto.
Qed.

Lemma enriched_record_has_required_fields_witness :
  exists r ok errors,
    enrich_entity_data (replying ("{" ++ quoted "revenue" ++ ": " ++ quoted "10B" ++ "}")%string) "Acme" [] = JObj r
    /\ (forall f, In f enriched_fields ->
          dict_get f r = match dict_get f [("revenue", JStr "10B")] with
                         | Some v => Some v
                         | None => Some (default_of f)
                         end)
    /\ validate_entity_json (JObj r) = Ok (ok, errors)
    /\ (forall f, In f required_fields -> ~ In (missing_field_msg f) errors).
Proof.
  apply (enriched_record_has_required_fields
           (replying ("{" ++ quoted "revenue" ++ ": " ++ quoted "10B" ++ "}")%string) "Acme" []
           ("{" ++ quoted "revenue" ++ ": " ++ quoted "10B" ++ "}")%string
           [("revenue", JStr "10B")]);
    reflexivity.
Defined.

(** C10, as stated, fails when the reply parses to a JSON value that is not
    an object: the parse of [[]] succeeds, filling in the first default
    raises, and the record returned is the error record, which holds
    neither name nor type. *)
Lemma enrich_array_payload :
  json_loads (replying "[]") (json_text_of "[]") = Ok (JArr [])
  /\ enrich_entity_data (replying "[]") "Acme" []
     = error_record "error" "Acme"
  /\ py_in (JStr "name") (error_record "error" "Acme") = Ok false
  /\ py_in (JStr "type") (error_record "error" "Acme") = Ok false.
Proof. repeat split; reflexivity. Qed.

(** ** The batch tally *)








(** The run of the specification's example: five names, the third one
    unresolvable. *)
Example batch_of_five :
  batch_process (fun _ => "error")
    (fun _ name update => fst (process_entity (all_but "E3" plain_reply) name update))
    (@List.rev outcome) ["E1"; "E2"; "E3"; "E4"; "E5"] true
  = (4, 1, [("E3", JStr "Could not find Wikipedia data for E3")]).
Proof. vm_compute. reflexivity. Qed.

(** ** The single-entity pipeline *)

Lemma finish_entity_writes (env : environment) (entity_name : string)
  (existing_data : option json) (scraped_data : list (string * json))
  (res : result json) (writes : list write) :
  finish_entity env entity_name existing_data scraped_data = (res, writes) ->
  match res with
  | Ok r =>
      (py_in (JStr "error") r = Ok true /\ writes = [])
      \/ writes = [(entity_filepath entity_name, r)]
  | Raise _ => writes = []
  end.
Proof.
  unfold finish_entity.
  set (scraped :=
         match scrape_recent_news env entity_name with
         | [] => scraped_data
         | _ :: _ =>
             dict_set "news" (JArr (scrape_recent_news env entity_name))
               scraped_data
         end).
  set (enriched := enrich_entity_data env entity_name scraped).
  destruct (py_in (JStr "error") enriched) as [[|]|e] eqn:Hin.
  - intros H. injection H as <- <-. now left.
  - match goal with
    | |- context [bind ?m _] => destruct m as [merged|e]
    end; cbn [bind].
    + destruct (validate_entity_json merged) as [report|e]; cbn [bind];
        intros H; injection H as <- <-; auto.
    + intros H. injection H as <- <-. reflexivity.
  - intros H. injection H as <- <-. reflexivity.
Qed.

Lemma unresolvable_carries_error (entity_name : string) :
  py_in (JStr "error") (unresolvable entity_name) = Ok true.
Proof. reflexivity. Qed.

(** C5.  For every entity name: if the initial scrape reports an error and
    the search returns no candidates, [process_entity] returns the record
    whose error field says that no data could be found for the entity, and
    makes no call of [save_entity_json]; a run that returns a record
    without an error field has made exactly one such call, for the record
    it returns; a run that raises has made none; and no run makes more than
    one call, which is the call for the record it returns. *)
Theorem process_entity_writes (env : environment) (entity_name : string)
  (update_existing : bool) :
  (dict_has "error" (scrape_wikipedia env entity_name) = true ->
   search_wikipedia env entity_name = [] ->
   process_entity env entity_name update_existing
   = (Ok (JObj [("error",
                 JStr ("Could not find Wikipedia data for " ++ entity_name));
                ("entity_name", JStr entity_name)]), []))
  /\ (forall r writes,
        process_entity env entity_name update_existing = (Ok r, writes) ->
        py_in (JStr "error") r = Ok false ->
        writes = [(entity_filepath entity_name, r)])
  /\ (forall e writes,
        process_entity env entity_name update_existing = (Raise e, writes) ->
        writes = [])
  /\ (forall res writes,
        process_entity env entity_name update_existing = (res, writes) ->
        writes = []
        \/ exists r, res = Ok r /\ writes = [(entity_filepath entity_name, r)]).
Proof.
  split; [|split; [|split]].
  - intros Herr Hsearch. unfold process_entity. now rewrite Herr, Hsearch.
  - intros r writes H Hno. unfold process_entity in H.
    destruct (dict_has "error" (scrape_wikipedia env entity_name)).
    + destruct (search_wikipedia env entity_name) as [|first_result rest].
      * injection H as <- <-. rewrite unresolvable_carries_error in Hno.
        discriminate.
      * destruct (dict_has "error"
                    (scrape_wikipedia env (title first_result))).
        -- injection H as <- <-. rewrite unresolvable_carries_error in Hno.
           discriminate.
        -- apply finish_entity_writes in H as [[Hyes _]|H]; congruence.
    + apply finish_entity_writes in H as [[Hyes _]|H]; congruence.
  - intros e writes H. unfold process_entity in H.
    destruct (dict_has "error" (scrape_wikipedia env entity_name)).
    + destruct (search_wikipedia env entity_name) as [|first_result rest];
        [discriminate|].
      destruct (dict_has "error" (scrape_wikipedia env (title first_result)));
        [discriminate|].
      now apply finish_entity_writes in H.
    + now apply finish_entity_writes in H.
  - intros res writes H. unfold process_entity in H.
    assert (Hfin : forall existing scraped,
               finish_entity env entity_name existing scraped = (res, writes) ->
               writes = []
               \/ exists r, res = Ok r
                            /\ writes = [(entity_filepath entity_name, r)]).
    { intros existing scraped Hf. apply finish_entity_writes in Hf.
      destruct res as [r|e]; [|now left].
      destruct Hf as [[_ Hw]|Hw]; subst writes; [now left|right; eauto]. }
    destruct (dict_has "error" (scrape_wikipedia env entity_name)).
    + destruct (search_wikipedia env entity_name) as [|first_result rest].
      * injection H as <- <-. now left.
      * destruct (dict_has "error"
                    (scrape_wikipedia env (title first_result))).
        -- injection H as <- <-. now left.
        -- eapply Hfin; eauto.
    + eapply Hfin; eauto.
Qed.

Lemma process_entity_writes_witness :
  process_entity (all_but "E3" plain_reply) "E3" true
  = (Ok (JObj [("error", JStr "Could not find Wikipedia data for E3");
               ("entity_name", JStr "E3")]), [])
  /\ [(entity_filepath "Acme Health",
       JObj [("name", JStr "Acme"); ("type", JStr "Payer");
             ("subsidiaries", JArr []); ("relationships", JArr [])])]
     = [(entity_filepath "Acme Health",
         JObj [("name", JStr "Acme"); ("type", JStr "Payer");
               ("subsidiaries", JArr []); ("relationships", JArr [])])].
Proof.
  split.
  - apply (proj1 (process_entity_writes (all_but "E3" plain_reply) "E3" true));
      reflexivity.
  - apply (proj1 (proj2 (process_entity_writes (all_but "E3" plain_reply)
                           "Acme Health" true))
             (JObj [("name", JStr "Acme"); ("type", JStr "Payer");
                    ("subsidiaries", JArr []); ("relationships", JArr [])]));
      reflexivity.
Defined.

(** A successful run, in full: the record and the one write. *)
Example process_acme_health :
  process_entity (all_but "E3" plain_reply) "Acme Health" true
  = (Ok (JObj [("name", JStr "Acme"); ("type", JStr "Payer");
               ("subsidiaries", JArr []); ("relationships", JArr [])]),
     [("data/entities/acme_health.json",
       JObj [("name", JStr "Acme"); ("type", JStr "Payer");
             ("subsidiaries", JArr []); ("relationships", JArr [])])]).
Proof. vm_compute. reflexivity. Qed.

(** C4 (as amended).  For every reply that holds a tagged fence, where the
    first tagged fence is the one that opens the block, the first fence
    after it is the one that closes the block (so the JSON text holds no
    three backticks) and no backtick follows the closing fence: the
    payload extraction step takes exactly the content between the two
    fences, trimmed, and parsing returns exactly the JSON value that
    content denotes. *)
Theorem fenced_payload_extracted (env : environment) (pre body post : string)
  (v : json) :
  first_at_end fence_json pre = true ->
  first_at_end fence body = true ->
  starts_with "`" post = false ->
  json_loads env (py_strip body) = Ok v ->
  json_text_of (fenced pre body post) = py_strip body
  /\ json_loads env (json_text_of (fenced pre body post)) = Ok v.
Proof.
  intros Hpre Hbody Hpost Hv. unfold fenced.
  rewrite json_text_of_fenced by assumption. auto.
Qed.

Lemma fenced_payload_extracted_witness :
  json_text_of
    (fenced ("Here is the record:" ++ newline)
       (newline ++ plain_reply ++ newline) (newline ++ "Done."))
  = py_strip (newline ++ plain_reply ++ newline)
  /\ json_loads (replying "")
       (json_text_of
          (fenced ("Here is the record:" ++ newline)
             (newline ++ plain_reply ++ newline) (newline ++ "Done.")))
     = Ok (JObj [("name", JStr "Acme"); ("type", JStr "Payer")]).
Proof.
  apply (fenced_payload_extracted (replying "")); reflexivity.
Defined.

(** C4, as stated, fails for a well-formed JSON value whose text holds
    three backticks: the content is cut at the backticks inside the string
    and the rest does not parse. *)
Lemma fenced_payload_with_backticks :
  decode backtick_payload = Ok (JObj [("name", JStr "a```b")])
  /\ json_text_of
       (fenced ("Here is the record:" ++ newline)
          (newline ++ backtick_payload ++ newline) newline)
     = ("{" ++ quoted "name" ++ ": " ++ dquote ++ "a")%string
  /\ decode
       (json_text_of
          (fenced ("Here is the record:" ++ newline)
             (newline ++ backtick_payload ++ newline) newline))
     = Raise JSONDecodeError.
Proof. repeat split; vm_compute; reflexivity. Qed.

(** * Further properties *)

(** ** The merge engine *)

Lemma keys_dict_set (k : string) (v : json) (d : list (string * json)) :
  keys (dict_set k v d) = keys d ++ (if dict_has k d then [] else [k]).
Proof.
  unfold keys, dict_has.
  induction d as [|[k' v'] d IH]; cbn [dict_set dict_get map fst app];
    [reflexivity|].
  destruct (String.eqb k k') eqn:E; cbn [map fst].
  - now rewrite app_nil_r.
  - rewrite IH. reflexivity.
Qed.

Lemma dict_has_set (k k' : string) (v : json) (d : list (string * json)) :
  dict_has k d = true -> dict_has k (dict_set k' v d) = true.
Proof.
  unfold dict_has. intros H.
  destruct (String.eqb k k') eqn:E.
  - apply String.eqb_eq in E. subst. now rewrite dict_get_set_same.
  - apply String.eqb_neq in E. now rewrite dict_get_set_other.
Qed.

(** What a stage can do to the dictionary: nothing, or one assignment. *)
Lemma merge_subsidiaries_shape (n m m' : list (string * json)) :
  merge_subsidiaries (JObj n) (JObj m) = Ok (JObj m') ->
  m' = m \/ exists cur, m' = dict_set "subsidiaries" cur m.
Proof.
  rewrite merge_subsidiaries_dict.
  destruct (dict_get "subsidiaries" n) as [v|];
    [destruct (truthy v)|]; intros H;
    try solve [injection H as <-; now left].
  destruct (py_iter v) as [items|e]; [|discriminate]. cbn [bind] in H.
  destruct (foldM add_subsidiary items (slot "subsidiaries" m)) as [cur|e];
    [|discriminate].
  cbn [bind] in H. injection H as <-. right. eauto.
Qed.

Lemma merge_relationships_shape (n m m' : list (string * json)) :
  merge_relationships (JObj n) (JObj m) = Ok (JObj m') ->
  m' = m \/ exists cur, m' = dict_set "relationships" cur m.
Proof.
  rewrite merge_relationships_dict.
  destruct (dict_get "relationships" n) as [v|];
    [destruct (truthy v)|]; intros H;
    try solve [injection H as <-; now left].
  destruct (py_iter (slot "relationships" m)) as [existing|e]; [|discriminate].
  cbn [bind] in H.
  destruct (foldM collect_key existing []) as [ks|e]; [|discriminate].
  cbn [bind] in H.
  destruct (py_iter v) as [items|e]; [|discriminate]. cbn [bind] in H.
  destruct (foldM add_relationship items (slot "relationships" m, ks))
    as [st|e]; [|discriminate].
  cbn [bind] in H. injection H as <-. right. eauto.
Qed.

Lemma scalar_update_keys (n m : list (string * json)) (field : string) :
  exists extra,
    keys (scalar_update n m field) = keys m ++ extra
    /\ (forall k, In k extra -> k = field /\ dict_has k m = false).
Proof.
  unfold scalar_update.
  destruct (dict_get field n) as [v|]; [destruct (truthy v)|];
    try (exists []; rewrite app_nil_r; split; [reflexivity|intros ? []]).
  rewrite keys_dict_set. eexists. split; [reflexivity|].
  destruct (dict_has field m) eqn:E; intros k Hk; [contradiction|].
  destruct Hk as [<-|[]]. auto.
Qed.

Lemma scalar_updates_keys (n : list (string * json)) (fields : list string) :
  forall m,
  exists extra,
    keys (fold_left (scalar_update n) fields m) = keys m ++ extra
    /\ (forall k, In k extra -> In k fields /\ dict_has k m = false).
Proof.
  induction fields as [|f fields IH]; intros m; cbn [fold_left].
  - exists []. rewrite app_nil_r. split; [reflexivity|intros ? []].
  - destruct (scalar_update_keys n m f) as (x1 & H1 & P1).
    destruct (IH (scalar_update n m f)) as (x2 & H2 & P2).
    exists (x1 ++ x2). rewrite H2, H1, app_assoc. split; [reflexivity|].
    intros k Hk. apply in_app_or in Hk as [Hk|Hk].
    + destruct (P1 k Hk) as [-> Hno]. split; [now left|assumption].
    + destruct (P2 k Hk) as [Hin Hno]. split; [now right|].
      destruct (dict_has k m) eqn:E; [|reflexivity].
      unfold scalar_update in Hno.
      destruct (dict_get f n) as [v|]; [destruct (truthy v)|];
        try congruence.
      rewrite dict_has_set in Hno by assumption. discriminate.
Qed.

(** X1.  A merge into a non-empty record takes nothing but the six merge
    fields from the incoming record: every other key of the result has the
    value it has in the existing record, and is absent when the existing
    record lacks it. *)
Theorem merge_foreign_keys (e n : list (string * json)) (k : string) (M : json) :
  e <> [] ->
  ~ In k merge_fields ->
  merge_entity_data (JObj e) (JObj n) = Ok M ->
  exists m, M = JObj m /\ dict_get k m = dict_get k e.
Proof.
  intros He Hk H.
  destruct (merge_stages e n M He H) as (m2 & m3 & H2 & H3 & ->).
  exists m3. split; [reflexivity|].
  destruct (merge_subsidiaries_frame _ _ _ H2) as (m2' & E2 & F2 & _).
  destruct (merge_relationships_frame _ _ _ H3) as (m3' & E3 & F3 & _).
  injection E2 as <-. injection E3 as <-.
  assert (Hparts : ~ In k scalar_fields
                   /\ k <> "subsidiaries" /\ k <> "relationships").
  { unfold merge_fields in Hk. repeat split.
    - intros Hin. apply Hk, in_or_app. now left.
    - intros ->. apply Hk, in_or_app. right. now left.
    - intros ->. apply Hk, in_or_app. right. right. now left. }
  destruct Hparts as (Hs & Hsub & Hrel).
  rewrite F3, F2 by assumption. now apply scalar_updates_other.
Qed.

Lemma merge_foreign_keys_witness :
  exists m,
    JObj [("name", JStr "B"); ("founded", JInt 1977)] = JObj m
    /\ dict_get "founded" m
       = dict_get "founded" [("name", JStr "A"); ("founded", JInt 1977)].
Proof.
  apply (merge_foreign_keys
           [("name", JStr "A"); ("founded", JInt 1977)]
           [("name", JStr "B"); ("founded", JInt 1999); ("ceo", JStr "X")]
           "founded").
  - discriminate.
  - unfold merge_fields, scalar_fields. simpl. intuition discriminate.
  - reflexivity.
Defined.

(** X2.  A merge into a non-empty record never removes or reorders a key:
    the keys of the result are the keys of the existing record, in their
    order, followed by merge fields the existing record did not have. *)
Theorem merge_keeps_keys (e n : list (string * json)) (M : json) :
  e <> [] ->
  merge_entity_data (JObj e) (JObj n) = Ok M ->
  exists m extra,
    M = JObj m
    /\ keys m = keys e ++ extra
    /\ (forall k, In k extra -> In k merge_fields /\ dict_has k e = false).
Proof.
  intros He H.
  destruct (merge_stages e n M He H) as (m2 & m3 & H2 & H3 & ->).
  destruct (scalar_updates_keys n scalar_fields e) as (x1 & K1 & P1).
  set (m1 := fold_left (scalar_update n) scalar_fields e) in *.
  assert (S2 : exists x2, keys m2 = keys m1 ++ x2
                          /\ forall k, In k x2 ->
                               k = "subsidiaries" /\ dict_has k m1 = false).
  { destruct (merge_subsidiaries_shape _ _ _ H2) as [->|(cur & ->)].
    - exists []. rewrite app_nil_r. split; [reflexivity|intros ? []].
    - rewrite keys_dict_set. eexists. split; [reflexivity|].
      destruct (dict_has "subsidiaries" m1) eqn:E; intros k Hk;
        [contradiction|]. destruct Hk as [<-|[]]. auto. }
  destruct S2 as (x2 & K2 & P2).
  assert (S3 : exists x3, keys m3 = keys m2 ++ x3
                          /\ forall k, In k x3 ->
                               k = "relationships" /\ dict_has k m2 = false).
  { destruct (merge_relationships_shape _ _ _ H3) as [->|(cur & ->)].
    - exists []. rewrite app_nil_r. split; [reflexivity|intros ? []].
    - rewrite keys_dict_set. eexists. split; [reflexivity|].
      destruct (dict_has "relationships" m2) eqn:E; intros k Hk;
        [contradiction|]. destruct Hk as [<-|[]]. auto. }
  destruct S3 as (x3 & K3 & P3).
  destruct (merge_subsidiaries_frame _ _ _ H2) as (m2' & E2 & F2 & _).
  injection E2 as <-.
  exists m3, (x1 ++ x2 ++ x3). split; [reflexivity|]. split.
  - rewrite K3, K2, K1, <- !app_assoc. reflexivity.
  - intros k Hk. unfold merge_fields.
    apply in_app_or in Hk as [Hk|Hk]; [|apply in_app_or in Hk as [Hk|Hk]].
    + destruct (P1 k Hk) as [Hin Hno]. split; [|assumption].
      apply in_or_app. now left.
    + destruct (P2 k Hk) as [-> Hno]. split.
      * apply in_or_app. right. now left.
      * unfold dict_has in *. subst m1.
        rewrite scalar_updates_other in Hno; [assumption|].
        apply scalar_fields_not. now left.
    + destruct (P3 k Hk) as [-> Hno]. split.
      * apply in_or_app. right. right. now left.
      * unfold dict_has in *. rewrite F2 in Hno by discriminate. subst m1.
        rewrite scalar_updates_other in Hno; [assumption|].
        apply scalar_fields_not. now right.
Qed.

Lemma merge_keeps_keys_witness :
  exists m extra,
    JObj [("type", JStr "Payer"); ("name", JStr "B"); ("revenue", JStr "10B")]
    = JObj m
    /\ keys m = keys [("type", JStr "Payer"); ("name", JStr "A")] ++ extra
    /\ (forall k, In k extra ->
          In k merge_fields
          /\ dict_has k [("type", JStr "Payer"); ("name", JStr "A")] = false).
Proof.
  apply (merge_keeps_keys
           [("type", JStr "Payer"); ("name", JStr "A")]
           [("revenue", JStr "10B"); ("name", JStr "B")]).
  - discriminate.
  - reflexivity.
Defined.

(** X3.  A merge into a non-empty record introduces no duplicate
    relationship: if no two relationships of the existing record share a
    (target, type) key, then no two relationships of the result do, even
    when the incoming list repeats a key. *)
Theorem merge_relationship_keys_distinct (e n : list (string * json))
  (es ns : list json) (M : json) :
  e <> [] ->
  slot "relationships" e = JArr es ->
  slot "relationships" n = JArr ns ->
  distinct_keys es ->
  merge_entity_data (JObj e) (JObj n) = Ok M ->
  exists m rs,
    M = JObj m /\ slot "relationships" m = JArr rs /\ distinct_keys rs.
Proof.
  intros He Hes Hns Hd H.
  destruct (merge_stages e n M He H) as (m2 & m3 & H2 & H3 & ->).
  pose proof (merge_keeps_slot _ _ _ H2) as Hslot. rewrite Hes in Hslot.
  destruct (merge_relationships_spec _ _ _ _ _ Hslot Hns H3)
    as (added & Hm3 & Hnew & _).
  exists m3, (es ++ added). split; [reflexivity|]. split; [assumption|].
  intros l1 x l2 Heq y Hy.
  apply app_eq_app in Heq as (l & [[E1 E2]|[E1 E2]]).
  - (* the entry lies among the existing ones *)
    destruct l as [|z l].
    + rewrite app_nil_r in E1. subst l1. cbn [app] in E2.
      destruct (Hnew [] x l2 (eq_sym E2)) as [_ Hdiff].
      apply Hdiff. now rewrite app_nil_r.
    + cbn [app] in E2. injection E2 as Hx _. subst z.
      now apply (Hd l1 x l).
  - (* the entry was appended *)
    subst l1 added. destruct (Hnew l x l2 eq_refl) as [_ Hdiff].
    now apply Hdiff.
Qed.

Lemma merge_relationship_keys_distinct_witness :
  exists m rs,
    JObj [("name", JStr "A");
          ("relationships", JArr [rel "P" "owns"; rel "Q" "partner"])]
    = JObj m
    /\ slot "relationships" m = JArr rs /\ distinct_keys rs.
Proof.
  apply (merge_relationship_keys_distinct
           [("name", JStr "A"); ("relationships", JArr [rel "P" "owns"])]
           [("relationships",
             JArr [rel "Q" "partner"; rel "P" "owns"; rel "Q" "partner"])]
           [rel "P" "owns"]
           [rel "Q" "partner"; rel "P" "owns"; rel "Q" "partner"]);
    try reflexivity.
  - discriminate.
  - intros l1 x l2 Heq y Hy. destruct l1 as [|a l1]; [contradiction|].
    cbn in Heq. injection Heq as _ Heq. destruct l1; discriminate.
Defined.

(** X4.  An incoming record that holds nothing usable (each of the six
    merge fields absent, empty, null, zero or false) leaves a non-empty
    existing record exactly as it is, whatever other keys it carries. *)
Theorem merge_unusable_incoming (e n : list (string * json)) :
  e <> [] ->
  forallb (unusable n) merge_fields = true ->
  merge_entity_data (JObj e) (JObj n) = Ok (JObj e).
Proof.
  intros He Hn. rewrite forallb_forall in Hn.
  assert (Hf : forall f, In f merge_fields ->
                 match dict_get f n with
                 | Some v => truthy v = false
                 | None => True
                 end).
  { intros f Hin. specialize (Hn f Hin). unfold unusable in Hn.
    destruct (dict_get f n); [now apply negb_true_iff|exact I]. }
  rewrite merge_unfold by assumption.
  rewrite scalar_updates_absorbed.
  - rewrite merge_subsidiaries_dict.
    assert (Hs := Hf "subsidiaries").
    destruct (dict_get "subsidiaries" n) as [v|].
    + rewrite Hs by (unfold merge_fields, scalar_fields; simpl; tauto).
      cbn [bind]. rewrite merge_relationships_dict.
      assert (Hr := Hf "relationships").
      destruct (dict_get "relationships" n) as [w|]; [|reflexivity].
      now rewrite Hr by (unfold merge_fields, scalar_fields; simpl; tauto).
    + cbn [bind]. rewrite merge_relationships_dict.
      assert (Hr := Hf "relationships").
      destruct (dict_get "relationships" n) as [w|]; [|reflexivity].
      now rewrite Hr by (unfold merge_fields, scalar_fields; simpl; tauto).
  - intros f v Hin Hg Hv.
    assert (Hm : In f merge_fields)
      by (unfold merge_fields; apply in_or_app; now left).
    specialize (Hf f Hm). rewrite Hg in Hf. congruence.
Qed.

Lemma merge_unusable_incoming_witness :
  merge_entity_data
    (JObj [("name", JStr "A"); ("subsidiaries", strs ["X"])])
    (JObj [("name", JStr ""); ("parent", JNull); ("subsidiaries", JArr []);
           ("ceo", JStr "Z")])
  = Ok (JObj [("name", JStr "A"); ("subsidiaries", strs ["X"])]).
Proof.
  apply merge_unusable_incoming; [discriminate|reflexivity].
Defined.

(** ** The validator *)

Lemma check_relationship_messages (i : nat) (errors : list string) (r : json) :
  check_relationship (i, errors) r = Ok (S i, errors ++ entry_messages i r).
Proof.
  unfold check_relationship, entry_messages.
  destruct r as [| b | z | s | xs | kv]; cbn [is_dict negb]; try reflexivity.
  cbn [py_in bind]. unfold dict_has, py_getitem.
  destruct (dict_get "target" kv), (dict_get "type" kv) as [v|]; cbn [bind];
    try destruct (existsb (py_eq v) (map JStr valid_types));
    cbn [app]; rewrite ?app_nil_r, <- ?app_assoc; reflexivity.
Qed.

Lemma check_relationships_messages (rs : list json) :
  forall i errors,
    foldM check_relationship rs (i, errors)
    = Ok (i + List.length rs, errors ++ entries_messages i rs).
Proof.
  induction rs as [|r rs IH]; intros i errors; cbn [foldM entries_messages].
  - cbn. now rewrite app_nil_r, Nat.add_0_r.
  - rewrite check_relationship_messages. cbn [bind]. rewrite IH.
    cbn [List.length]. rewrite <- app_assoc. do 2 f_equal. lia.
Qed.

Lemma validate_messages (e : list (string * json)) :
  validate_entity_json (JObj e)
  = Ok (match record_messages e with [] => true | _ => false end,
        record_messages e).
Proof.
  unfold validate_entity_json, record_messages, not_list_messages.
  rewrite required_dict. cbn [bind].
  rewrite check_is_list_dict. cbn [bind].
  rewrite check_is_list_dict. cbn [bind].
  unfold check_relationships. cbn [py_in bind]. unfold dict_has, py_getitem.
  destruct (dict_get "relationships" e) as [c|]; cbn [bind].
  - destruct c as [| | | |rs|]; cbn [is_list py_iter bind];
      try (rewrite ?app_nil_r, <- ?app_assoc; reflexivity).
    rewrite check_relationships_messages. cbn [bind snd].
    rewrite <- !app_assoc. reflexivity.
  - rewrite ?app_nil_r, <- ?app_assoc. reflexivity.
Qed.

Lemma entry_messages_nil (i : nat) (r : json) :
  entry_messages i r = [] <-> entry_ok r = true.
Proof.
  unfold entry_messages, entry_ok, dict_has.
  destruct r as [| | | | |kv]; try (split; discriminate).
  destruct (dict_get "target" kv), (dict_get "type" kv) as [v|];
    try destruct (existsb (py_eq v) (map JStr valid_types));
    cbn; split; (reflexivity || discriminate).
Qed.

Lemma entries_messages_nil (rs : list json) :
  forall i, entries_messages i rs = [] <-> forallb entry_ok rs = true.
Proof.
  induction rs as [|r rs IH]; intros i; cbn [entries_messages forallb].
  - split; reflexivity.
  - rewrite andb_true_iff, <- (IH (S i)), <- (entry_messages_nil i).
    split.
    + intros H. now apply app_eq_nil in H.
    + intros [-> ->]. reflexivity.
Qed.

Lemma forallb_trivial {A : Type} (l : list A) :
  forallb (fun _ => true) l = true.
Proof. induction l; cbn; auto. Qed.

Lemma not_list_messages_nil (key msg : string) (e : list (string * json)) :
  not_list_messages key msg e = []
  <-> list_or_absent (fun _ => true) key e = true.
Proof.
  unfold not_list_messages, list_or_absent.
  destruct (dict_get key e) as [v|]; [|split; reflexivity].
  destruct v; cbn [is_list]; try (split; discriminate).
  rewrite forallb_trivial. split; reflexivity.
Qed.

Lemma relationship_messages_nil (msg : string) (e : list (string * json)) :
  not_list_messages "relationships" msg e = []
  /\ match dict_get "relationships" e with
     | Some (JArr rs) => entries_messages 0 rs
     | _ => []
     end = []
  <-> list_or_absent entry_ok "relationships" e = true.
Proof.
  unfold not_list_messages, list_or_absent.
  destruct (dict_get "relationships" e) as [v|]; [|split; auto].
  destruct v as [| | | |rs|]; cbn [is_list];
    try (split; [intros [H _]; discriminate|discriminate]).
  rewrite <- (entries_messages_nil rs 0). split; [now intros [_ H]|auto].
Qed.

Lemma record_messages_nil (e : list (string * json)) :
  record_messages e = [] <-> conforms e = true.
Proof.
  unfold record_messages, conforms.
  rewrite !andb_true_iff.
  rewrite <- (relationship_messages_nil "Field 'relationships' must be a list").
  rewrite <- (not_list_messages_nil "subsidiaries"
                "Field 'subsidiaries' must be a list").
  split.
  - intros H.
    apply app_eq_nil in H as [H1 H]. apply app_eq_nil in H as [H2 H].
    apply app_eq_nil in H as [H3 H]. apply app_eq_nil in H as [H4 H5].
    destruct (dict_has "name" e); [|discriminate].
    destruct (dict_has "type" e); [|discriminate]. auto.
  - intros [[[H1 H2] [H3 H5]] H4]. rewrite H1, H2, H3, H4, H5. reflexivity.
Qed.

(** X5.  [validate_entity_json] accepts exactly the conforming records: for
    every dictionary it returns ok = true, with an empty error list, when
    name and type are present, relationships and subsidiaries are lists
    where present, and every relationship entry is an object with a target
    and one of the six types; in every other case it returns ok = false
    with a non-empty error list. *)
Theorem validate_accepts_conforming (e : list (string * json)) :
  exists errors,
    validate_entity_json (JObj e) = Ok (conforms e, errors)
    /\ (errors = [] <-> conforms e = true).
Proof.
  exists (record_messages e). rewrite validate_messages.
  pose proof (record_messages_nil e) as H. split; [|exact H].
  destruct (record_messages e) as [|msg rest].
  - now rewrite (proj1 H eq_refl).
  - destruct (conforms e); [|reflexivity].
    destruct H as [_ H]. discriminate (H eq_refl).
Qed.

Lemma entries_messages_nth (rs : list json) :
  forall i0 i r msg,
    nth_error rs i = Some r ->
    In msg (entry_messages (i0 + i) r) ->
    In msg (entries_messages i0 rs).
Proof.
  induction rs as [|r0 rs IH]; intros i0 [|i] r msg Hn Hin;
    try discriminate; cbn [entries_messages]; apply in_or_app.
  - cbn in Hn. injection Hn as ->. rewrite Nat.add_0_r in Hin. now left.
  - right. apply (IH (S i0) i r); [assumption|].
    now replace (S i0 + i) with (i0 + S i) by lia.
Qed.

(** X6.  One pass of [validate_entity_json] reports every defect of a
    dictionary: each missing required field, a relationships or
    subsidiaries value that is not a list, and, for the relationships
    list, each entry that is not an object and each missing target or type,
    with the index of the entry. *)
Theorem validate_reports_every_defect (e : list (string * json)) :
  exists ok errors,
    validate_entity_json (JObj e) = Ok (ok, errors)
    /\ (forall f, In f required_fields -> dict_has f e = false ->
          In ("Missing required field: " ++ f)%string errors)
    /\ (forall v, dict_get "relationships" e = Some v -> is_list v = false ->
          In "Field 'relationships' must be a list" errors)
    /\ (forall v, dict_get "subsidiaries" e = Some v -> is_list v = false ->
          In "Field 'subsidiaries' must be a list" errors)
    /\ (forall rs i r,
          dict_get "relationships" e = Some (JArr rs) ->
          nth_error rs i = Some r -> is_dict r = false ->
          In ("Relationship at index " ++ str_of_nat i
                ++ " must be an object")%string errors)
    /\ (forall rs i kv f,
          dict_get "relationships" e = Some (JArr rs) ->
          nth_error rs i = Some (JObj kv) ->
          f = "target" \/ f = "type" -> dict_has f kv = false ->
          In ("Relationship at index " ++ str_of_nat i
                ++ " missing required field: " ++ f)%string errors).
Proof.
  eexists. exists (record_messages e). rewrite validate_messages.
  split; [reflexivity|]. unfold record_messages.
  split; [|split; [|split; [|split]]].
  - intros f Hf Hno. unfold required_fields in Hf.
    destruct Hf as [<-|[<-|[]]]; rewrite Hno.
    + apply in_or_app. left. now left.
    + apply in_or_app. right. apply in_or_app. left. now left.
  - intros v Hg Hl. do 2 (apply in_or_app; right). apply in_or_app. left.
    unfold not_list_messages. rewrite Hg, Hl. now left.
  - intros v Hg Hl. do 3 (apply in_or_app; right). apply in_or_app. left.
    unfold not_list_messages. rewrite Hg, Hl. now left.
  - intros rs i r Hg Hn Hd. do 4 (apply in_or_app; right). rewrite Hg.
    apply (entries_messages_nth rs 0 i r); [assumption|].
    destruct r; try discriminate; now left.
  - intros rs i kv f Hg Hn Hf Hno. do 4 (apply in_or_app; right). rewrite Hg.
    apply (entries_messages_nth rs 0 i (JObj kv)); [assumption|].
    cbn [entry_messages Nat.add].
    destruct Hf as [-> | ->]; rewrite Hno.
    + apply in_or_app. left. now left.
    + apply in_or_app. right. apply in_or_app. left. now left.
Qed.

Lemma validate_reports_every_defect_witness :
  In "Missing required field: type"
    ["Missing required field: type";
     "Relationship at index 0 must be an object";
     "Relationship at index 1 missing required field: target";
     "Relationship at index 1 missing required field: type"]
  /\ validate_entity_json
       (JObj [("name", JStr "Acme");
              ("relationships", JArr [JStr "P"; JObj []])])
     = Ok (false,
           ["Missing required field: type";
            "Relationship at index 0 must be an object";
            "Relationship at index 1 missing required field: target";
            "Relationship at index 1 missing required field: type"]).
Proof.
  destruct (validate_reports_every_defect
              [("name", JStr "Acme");
               ("relationships", JArr [JStr "P"; JObj []])])
    as (ok & errors & H & Hmiss & _).
  cbv in H. injection H as <- <-.
  split; [|reflexivity].
  apply (Hmiss "type"); [unfold required_fields; simpl; tauto|reflexivity].
Defined.

(** ** The payload extraction *)

Lemma substring_in_prefix (a b s : string) :
  substring_in (a ++ b) s = true -> substring_in a s = true.
Proof.
  induction s as [|c s IH]; cbn [substring_in]; intros H.
  - apply orb_true_iff in H as [H|H]; [|discriminate].
    apply starts_with_prefix in H. now rewrite H.
  - apply orb_true_iff in H as [H|H].
    + apply starts_with_prefix in H. now rewrite H.
    + rewrite (IH H). apply orb_true_r.
Qed.

(** X7.  A reply that holds no tagged fence but a bare one: the text handed
    to the parser is the trimmed content after the first fence, up to the
    next fence when there is one and to the end of the reply otherwise. *)
Theorem bare_fence_extracted (pre body post : string) :
  first_at_end fence pre = true ->
  first_at_end fence body = true ->
  (substring_in fence_json (pre ++ fence ++ body ++ fence ++ post) = false ->
   json_text_of (pre ++ fence ++ body ++ fence ++ post) = py_strip body)
  /\ (substring_in fence_json (pre ++ fence ++ body) = false ->
      json_text_of (pre ++ fence ++ body) = py_strip body).
Proof.
  intros Hpre Hbody. split; intros Hno; unfold json_text_of, py_split;
    rewrite Hno, substring_in_app;
    rewrite nth1_split by (assumption || discriminate).
  - now rewrite before_first.
  - now rewrite before_whole.
Qed.

Lemma bare_fence_extracted_witness :
  json_text_of ("Sure:" ++ newline ++ fence ++ newline ++ plain_reply
                  ++ newline ++ fence ++ " done")
  = plain_reply.
Proof.
  apply (proj1 (bare_fence_extracted ("Sure:" ++ newline)
                  (newline ++ plain_reply ++ newline) " done"
                  eq_refl eq_refl)).
  reflexivity.
Defined.

Lemma match_brace_balanced (inner post : string) :
  forall depth i,
    balanced inner depth = true ->
    match_brace (inner ++ String "}" post) i (Z.of_nat depth + 1)
    = Some (S (i + String.length inner)).
Proof.
  induction inner as [|c inner IH]; intros depth i H.
  - cbn [balanced] in H. apply Nat.eqb_eq in H. subst depth.
    cbn. now rewrite Nat.add_0_r.
  - cbn [balanced] in H. cbn [append match_brace String.length].
    destruct (Ascii.eqb c "{") eqn:Eo.
    + replace (Z.of_nat depth + 1 + 1)%Z with (Z.of_nat (S depth) + 1)%Z by lia.
      rewrite (IH _ _ H). f_equal. lia.
    + destruct (Ascii.eqb c "}") eqn:Ec.
      * destruct depth as [|d]; [discriminate|].
        replace (Z.of_nat (S d) + 1 - 1 =? 0)%Z with false
          by (symmetry; apply Z.eqb_neq; lia).
        replace (Z.of_nat (S d) + 1 - 1)%Z with (Z.of_nat d + 1)%Z by lia.
        rewrite (IH _ _ H). f_equal. lia.
      * rewrite (IH _ _ H). f_equal. lia.
Qed.

Lemma find_char_app (c : ascii) (pre rest : string) :
  has_char c pre = false ->
  find_char c (pre ++ String c rest) = Some (String.length pre).
Proof.
  induction pre as [|a pre IH]; cbn [has_char append find_char String.length];
    intros H.
  - now rewrite Ascii.eqb_refl.
  - apply orb_false_elim in H as [Ha Hpre]. rewrite Ha, (IH Hpre).
    reflexivity.
Qed.

Lemma drop_app (pre rest : string) :
  drop (String.length pre) (pre ++ rest) = rest.
Proof.
  induction pre as [|a pre IH]; cbn; [now destruct rest|assumption].
Qed.

Lemma substring_middle (pre mid post : string) :
  substring (String.length pre) (String.length mid) (pre ++ mid ++ post) = mid.
Proof.
  induction pre as [|a pre IH]; cbn [String.length append substring].
  - induction mid as [|b mid IHm]; cbn.
    + now destruct post.
    + now rewrite IHm.
  - apply IH.
Qed.

Lemma rstrip_closing (s : string) (c : ascii) :
  is_space c = false ->
  rstrip (s ++ String c "") = (s ++ String c "")%string.
Proof.
  intros Hc. induction s as [|a s IH]; cbn [append rstrip].
  - now rewrite Hc.
  - rewrite IH. destruct (s ++ String c "")%string eqn:E; [|reflexivity].
    destruct s; discriminate.
Qed.

Lemma py_strip_braced (inner : string) :
  py_strip (braced inner) = braced inner.
Proof.
  unfold py_strip, braced. cbn [append lstrip].
  replace (is_space "{") with false by reflexivity.
  change (String "{" (inner ++ "}"))%string
    with (String "{" inner ++ String "}" "")%string.
  now apply rstrip_closing.
Qed.

(** X8.  A reply without fences that holds an object with balanced braces:
    whatever prose comes before the first opening brace and after the
    matching closing brace, the text handed to the parser is exactly the
    span from the first opening brace to its matching closing brace. *)
Theorem braced_span_extracted (pre inner post : string) :
  substring_in fence (pre ++ braced inner ++ post) = false ->
  has_char "{" pre = false ->
  balanced inner 0 = true ->
  json_text_of (pre ++ braced inner ++ post) = braced inner.
Proof.
  intros Hfence Hpre Hbal. unfold json_text_of.
  assert (Hfj : substring_in fence_json (pre ++ braced inner ++ post) = false).
  { destruct (substring_in fence_json (pre ++ braced inner ++ post)) eqn:E;
      [|reflexivity].
    apply (substring_in_prefix fence "json") in E. congruence. }
  rewrite Hfj, Hfence.
  assert (Hshape : (pre ++ braced inner ++ post
                    = pre ++ String "{" (inner ++ String "}" post))%string).
  { unfold braced. cbn [append]. now rewrite append_assoc. }
  assert (Hfind : find_char "{" (pre ++ braced inner ++ post)
                  = Some (String.length pre)).
  { rewrite Hshape. now apply find_char_app. }
  assert (Hmatch : match_brace
                     (drop (String.length pre) (pre ++ braced inner ++ post))
                     (String.length pre) 0
                   = Some (String.length pre + String.length (braced inner))).
  { rewrite Hshape, drop_app. cbn [match_brace]. rewrite Ascii.eqb_refl.
    pose proof (match_brace_balanced inner post 0 (S (String.length pre)) Hbal)
      as Hb.
    cbn [Z.of_nat] in Hb. rewrite Hb.
    f_equal. unfold braced. cbn [append String.length].
    rewrite length_append. cbn [String.length]. lia. }
  rewrite Hfind, Hmatch.
  replace (Nat.ltb (String.length pre)
             (String.length pre + String.length (braced inner)))
    with true
    by (symmetry; apply Nat.ltb_lt; unfold braced; cbn [append String.length];
        lia).
  replace (String.length pre + String.length (braced inner) - String.length pre)
    with (String.length (braced inner)) by lia.
  rewrite substring_middle. apply py_strip_braced.
Qed.

Lemma braced_span_extracted_witness :
  json_text_of
    ("Here it is: "
       ++ braced (quoted "a" ++ ": {" ++ quoted "b" ++ ": 1}")
       ++ " and a stray } after")
  = braced (quoted "a" ++ ": {" ++ quoted "b" ++ ": 1}").
Proof.
  apply (braced_span_extracted "Here it is: "
           (quoted "a" ++ ": {" ++ quoted "b" ++ ": 1}")
           " and a stray } after"); reflexivity.
Defined.

Lemma rstrip_idempotent (s : string) : rstrip (rstrip s) = rstrip s.
Proof.
  induction s as [|c s IH]; [reflexivity|].
  cbn [rstrip]. destruct (rstrip s) as [|a r] eqn:E.
  - destruct (is_space c) eqn:Hc; [reflexivity|].
    cbn [rstrip]. now rewrite Hc.
  - change (rstrip (String c (String a r)))
      with (match rstrip (String a r) with
            | EmptyString => if is_space c then "" else String c ""
            | String x y => String c (String x y)
            end).
    now rewrite IH.
Qed.

Lemma lstrip_head (s : string) :
  lstrip s = "" \/ exists c r, lstrip s = String c r /\ is_space c = false.
Proof.
  induction s as [|c s IH]; [now left|].
  cbn [lstrip]. destruct (is_space c) eqn:Hc; [assumption|].
  right. eauto.
Qed.

Lemma py_strip_idempotent (s : string) : py_strip (py_strip s) = py_strip s.
Proof.
  unfold py_strip.
  destruct (lstrip_head s) as [->|(c & r & -> & Hc)]; [reflexivity|].
  assert (Hhead : exists r', rstrip (String c r) = String c r').
  { cbn [rstrip]. destruct (rstrip r); [rewrite Hc|]; eauto. }
  destruct Hhead as (r' & Hr). rewrite Hr. cbn [lstrip]. rewrite Hc.
  rewrite <- Hr. apply rstrip_idempotent.
Qed.

(** X9.  Whatever the reply, the text the extraction hands to the parser
    is trimmed: it neither starts nor ends with white space, so trimming it
    again changes nothing.  The same holds on the OpenAI path. *)
Theorem json_text_is_trimmed (response_text : string) :
  py_strip (json_text_of response_text) = json_text_of response_text
  /\ py_strip (openai_json_text_of response_text)
     = openai_json_text_of response_text.
Proof.
  unfold json_text_of, openai_json_text_of.
  destruct (substring_in fence_json response_text);
    [auto using py_strip_idempotent|].
  destruct (substring_in fence response_text);
    [auto using py_strip_idempotent|].
  split; [|apply py_strip_idempotent].
  destruct (find_char "{" response_text) as [start_idx|];
    [|apply py_strip_idempotent].
  destruct (match_brace (drop start_idx response_text) start_idx 0)
    as [end_idx|]; [|apply py_strip_idempotent].
  destruct (Nat.ltb start_idx end_idx); apply py_strip_idempotent.
Qed.

(** X10.  The two extraction paths agree on every reply that holds a
    fence, and on every reply without an opening brace: there the OpenAI
    path hands the parser the text the Claude path hands it.  They can
    differ only on a fence-free reply with a brace, where the OpenAI path
    keeps the surrounding prose. *)
Theorem extraction_paths_agree (response_text : string) :
  substring_in fence response_text = true
  \/ has_char "{" response_text = false ->
  openai_json_text_of response_text = json_text_of response_text.
Proof.
  assert (Hfind : has_char "{" response_text = false ->
                  find_char "{" response_text = None).
  { induction response_text as [|c s IH]; cbn [has_char find_char];
      [reflexivity|].
    intros H. apply orb_false_elim in H as [Hc Hs].
    now rewrite Hc, (IH Hs). }
  unfold openai_json_text_of, json_text_of. intros [H|H].
  - rewrite H. reflexivity.
  - rewrite (Hfind H). reflexivity.
Qed.

Lemma extraction_paths_agree_witness :
  openai_json_text_of ("  [1, 2]" ++ newline)
  = json_text_of ("  [1, 2]" ++ newline).
Proof.
  apply extraction_paths_agree. right. reflexivity.
Defined.

(** Where the paths differ: prose around a bare object. *)
Example extraction_paths_differ :
  json_text_of "Result: {} ok" = "{}"
  /\ openai_json_text_of "Result: {} ok" = "Result: {} ok".
Proof. split; reflexivity. Qed.

(** ** The defaults of the enrichment step, once more *)

Lemma fill_keeps (d : list (string * json)) (field k : string) :
  dict_has k d = true -> dict_get k (fill d field) = dict_get k d.
Proof.
  intros Hk. unfold fill. destruct (dict_has field d) eqn:E; [reflexivity|].
  apply dict_get_set_other. intros ->. congruence.
Qed.

Lemma fills_keep (fields : list string) (k : string) :
  forall d, dict_has k d = true ->
            dict_get k (fold_left fill fields d) = dict_get k d.
Proof.
  induction fields as [|f fields IH]; intros d Hk; cbn [fold_left];
    [reflexivity|].
  rewrite IH.
  - now apply fill_keeps.
  - unfold dict_has in *. rewrite fill_keeps by exact Hk. exact Hk.
Qed.

Lemma fills_keys (fields : list string) :
  NoDup fields ->
  forall d,
    keys (fold_left fill fields d)
    = keys d ++ filter (fun f => negb (dict_has f d)) fields.
Proof.
  induction fields as [|f fields IH]; intros Hnd d; cbn [fold_left filter].
  - now rewrite app_nil_r.
  - inversion Hnd as [|? ? Hnotin Hnd']; subst.
    rewrite IH by assumption.
    assert (Hsame : filter (fun g => negb (dict_has g (fill d f))) fields
                    = filter (fun g => negb (dict_has g d)) fields).
    { apply filter_ext_in. intros g Hg. unfold dict_has.
      rewrite fill_other; [reflexivity|]. intros ->. contradiction. }
    rewrite Hsame. unfold fill at 1.
    destruct (dict_has f d) eqn:E; cbn [negb]; [reflexivity|].
    rewrite keys_dict_set, E, <- app_assoc. reflexivity.
Qed.

(** X11.  Filling in the defaults never touches what the model returned:
    for an object payload the keys of the payload stay, with their values
    and in their order, and the missing ones among name, type, subsidiaries
    and relationships are appended after them, in that order. *)
Theorem defaults_keep_payload (d : list (string * json)) :
  exists r,
    fill_defaults (JObj d) = Ok (JObj r)
    /\ keys r = keys d ++ filter (fun f => negb (dict_has f d)) enriched_fields
    /\ (forall k, dict_has k d = true -> dict_get k r = dict_get k d).
Proof.
  exists (fold_left fill enriched_fields d).
  split; [apply fill_defaults_dict|]. split.
  - apply fills_keys, enriched_fields_nodup.
  - intros k Hk. now apply fills_keep.
Qed.

(** ** Storage keys *)

Lemma map_chars_compose (f g : ascii -> ascii) (s : string) :
  map_chars f (map_chars g s) = map_chars (fun c => f (g c)) s.
Proof. induction s as [|c s IH]; cbn; [reflexivity|now rewrite IH]. Qed.

Lemma map_chars_ext (f g : ascii -> ascii) (s : string) :
  (forall c, f c = g c) -> map_chars f s = map_chars g s.
Proof.
  intros H. induction s as [|c s IH]; cbn; [reflexivity|].
  now rewrite H, IH.
Qed.

Lemma normalise_char_stable (c : ascii) :
  underscore (lower_char (underscore (lower_char c))) = underscore (lower_char c)
  /\ underscore (lower_char (lower_char c)) = underscore (lower_char c)
  /\ underscore (lower_char (underscore c)) = underscore (lower_char c)
  /\ Ascii.eqb (underscore (lower_char c)) " " = false
  /\ Ascii.eqb (underscore (lower_char c)) "/" = false.
Proof.
  destruct c as [[] [] [] [] [] [] [] []]; vm_compute; repeat split.
Qed.

Lemma has_char_map (f : ascii -> ascii) (x : ascii) (s : string) :
  (forall c, Ascii.eqb (f c) x = false) -> has_char x (map_chars f s) = false.
Proof.
  intros H. induction s as [|c s IH]; cbn; [reflexivity|].
  now rewrite H, IH.
Qed.

(** X12.  The storage key of a name is stable and collapses spelling: the
    key of a key is the key itself; a name, its lower-cased form and its
    form with spaces and slashes replaced by underscores all have the same
    key; and no key holds a space or a slash. *)
Theorem entity_filename_stable (entity_name : string) :
  entity_filename (entity_filename entity_name) = entity_filename entity_name
  /\ entity_filename (map_chars lower_char entity_name)
     = entity_filename entity_name
  /\ entity_filename (map_chars underscore entity_name)
     = entity_filename entity_name
  /\ has_char " " (entity_filename entity_name) = false
  /\ has_char "/" (entity_filename entity_name) = false.
Proof.
  unfold entity_filename. rewrite !map_chars_compose.
  repeat split.
  - apply map_chars_ext. intros c. apply normalise_char_stable.
  - apply map_chars_ext. intros c. apply normalise_char_stable.
  - apply map_chars_ext. intros c. apply normalise_char_stable.
  - apply has_char_map. intros c. apply normalise_char_stable.
  - apply has_char_map. intros c. apply normalise_char_stable.
Qed.

(** ** The single-entity pipeline, stage by stage *)

Lemma merge_key_error (e n : list (string * json)) (pre post ns : list json)
  (kv : list (string * json)) :
  dict_get "relationships" e = Some (JArr (pre ++ JObj kv :: post)) ->
  forallb keyed_entry pre = true ->
  dict_get "target" kv = None \/ dict_get "type" kv = None ->
  list_or_absent (fun _ => true) "subsidiaries" e = true ->
  list_or_absent (fun _ => true) "subsidiaries" n = true ->
  dict_get "relationships" n = Some (JArr ns) ->
  ns <> [] ->
  exists k, merge_entity_data (JObj e) (JObj n) = Raise (KeyError k)
            /\ (k = "target" \/ k = "type").
Proof.
  intros He Hpre Hkv Hse Hsn Hn Hns.
  assert (Hne : e <> []) by (intros ->; discriminate).
  rewrite merge_unfold by assumption.
  destruct (merge_subsidiaries_total n
              (fold_left (scalar_update n) scalar_fields e)) as (m2 & H2).
  { assumption. }
  { rewrite (list_or_absent_frame _ _ e); [assumption|].
    apply scalar_updates_other, scalar_fields_not. now left. }
  rewrite H2. cbn [bind].
  pose proof (merge_keeps_slot _ _ _ H2) as Hslot.
  unfold slot at 2 in Hslot. rewrite He in Hslot.
  rewrite merge_relationships_dict, Hn.
  destruct ns as [|r0 ns]; [contradiction|].
  cbn [truthy]. rewrite Hslot. cbn [py_iter bind].
  destruct (collect_keys_key_error pre post kv Hpre Hkv [])
    as (k & Hk & Hor).
  rewrite Hk. cbn [bind]. eauto.
Qed.

Lemma finish_entity_unfold (env : environment) (entity_name : string)
  (existing_data : option json) (scraped_data : list (string * json))
  (r : list (string * json)) :
  enrich_entity_data env entity_name (with_news env entity_name scraped_data)
  = JObj r ->
  finish_entity env entity_name existing_data scraped_data
  = if dict_has "error" r then (Ok (JObj r), [])
    else
      match
        (merged_data <-
           match existing_data with
           | Some existing =>
               if truthy existing then merge_entity_data existing (JObj r)
               else Ok (JObj r)
           | None => Ok (JObj r)
           end ;;
         _ <- validate_entity_json merged_data ;;
         Ok merged_data)
      with
      | Ok merged_data =>
          (Ok merged_data, [(entity_filepath entity_name, merged_data)])
      | Raise e => (Raise e, [])
      end.
Proof.
  intros H. unfold finish_entity. fold (with_news env entity_name scraped_data).
  rewrite H. cbn [py_in]. destruct (dict_has "error" r); reflexivity.
Qed.

(** X13.  What the pipeline does with the record the enrichment step
    returns, when the page was scraped at the first attempt: a record that
    carries an error key (an error record, or a model reply that happens
    to have that key) is returned and nothing is saved; a record without
    one is, with [update_existing] off, saved as it is under the key of the
    entity name, whether it validates or not. *)
Theorem process_entity_saves_unless_error (env : environment)
  (entity_name : string) (r : list (string * json)) :
  dict_has "error" (scrape_wikipedia env entity_name) = false ->
  enrich_entity_data env entity_name
    (with_news env entity_name (scrape_wikipedia env entity_name)) = JObj r ->
  (dict_has "error" r = true ->
   forall update_existing,
     process_entity env entity_name update_existing = (Ok (JObj r), []))
  /\ (dict_has "error" r = false ->
      process_entity env entity_name false
      = (Ok (JObj r), [(entity_filepath entity_name, JObj r)])).
Proof.
  intros Hscrape Henrich. split; intros Herr.
  - intros update_existing. unfold process_entity. rewrite Hscrape.
    rewrite (finish_entity_unfold _ _ _ _ r Henrich). now rewrite Herr.
  - unfold process_entity. rewrite Hscrape.
    rewrite (finish_entity_unfold _ _ _ _ r Henrich), Herr.
    cbn [bind]. rewrite validate_messages. reflexivity.
Qed.

Lemma process_entity_saves_unless_error_witness :
  process_entity (replying ("{" ++ quoted "revenue" ++ ": 5}")) "Acme" false
  = (Ok (JObj [("revenue", JInt 5); ("name", JNull); ("type", JNull);
               ("subsidiaries", JArr []); ("relationships", JArr [])]),
     [(entity_filepath "Acme",
       JObj [("revenue", JInt 5); ("name", JNull); ("type", JNull);
             ("subsidiaries", JArr []); ("relationships", JArr [])])]).
Proof.
  apply (proj2 (process_entity_saves_unless_error
                  (replying ("{" ++ quoted "revenue" ++ ": 5}")) "Acme"
                  [("revenue", JInt 5); ("name", JNull); ("type", JNull);
                   ("subsidiaries", JArr []); ("relationships", JArr [])]
                  eq_refl eq_refl)).
  reflexivity.
Defined.

(** X14.  With a stored record, the pipeline saves the merge, not the
    enriched record: when the stored record is a non-empty well-shaped
    dictionary and the enrichment step returns a well-shaped record without
    an error key, the merge of the two returns some record, and that record
    is what the run returns and the one thing it saves. *)
Theorem process_entity_saves_the_merge (env : environment)
  (entity_name : string) (e r : list (string * json)) :
  dict_has "error" (scrape_wikipedia env entity_name) = false ->
  enrich_entity_data env entity_name
    (with_news env entity_name (scrape_wikipedia env entity_name)) = JObj r ->
  dict_has "error" r = false ->
  load_entity_json env (entity_filepath entity_name) = Some (JObj e) ->
  e <> [] ->
  record_shape keyed_entry (JObj e) = true ->
  record_shape loose_entry (JObj r) = true ->
  exists M,
    merge_entity_data (JObj e) (JObj r) = Ok M
    /\ process_entity env entity_name true
       = (Ok M, [(entity_filepath entity_name, M)]).
Proof.
  intros Hscrape Henrich Herr Hload He Hse Hsr.
  destruct (merge_returns _ _ Hse Hsr) as (M & HM).
  exists M. split; [assumption|].
  destruct (merge_stages e r M He HM) as (m2 & m3 & _ & _ & ->).
  unfold process_entity. rewrite Hscrape, Hload.
  rewrite (finish_entity_unfold _ _ _ _ r Henrich), Herr.
  destruct e as [|kv e]; [contradiction|]. cbn [truthy].
  rewrite HM. cbn [bind]. rewrite validate_messages. reflexivity.
Qed.

Lemma process_entity_saves_the_merge_witness :
  exists M,
    merge_entity_data
      (JObj [("name", JStr "Acme"); ("revenue", JStr "10B");
             ("relationships", JArr [rel "Q" "partner"])])
      (JObj [("name", JStr "Acme"); ("relationships", JArr [rel "P" "owns"]);
             ("type", JNull); ("subsidiaries", JArr [])])
    = Ok M
    /\ process_entity
         (stocked (JObj [("name", JStr "Acme"); ("revenue", JStr "10B");
                         ("relationships", JArr [rel "Q" "partner"])])
            relation_reply) "Acme" true
       = (Ok M, [(entity_filepath "Acme", M)]).
Proof.
  apply (process_entity_saves_the_merge
           (stocked (JObj [("name", JStr "Acme"); ("revenue", JStr "10B");
                           ("relationships", JArr [rel "Q" "partner"])])
              relation_reply) "Acme");
    try reflexivity.
  discriminate.
Defined.

(** X15.  A stored record with a malformed relationship blocks the entity:
    when the stored relationships list has an object lacking target or
    type (the entries before it well formed) and the enrichment step
    returns a record with a non-empty relationships list, the run raises
    KeyError out of the merge and saves nothing. *)
Theorem process_entity_blocked_by_stored_record (env : environment)
  (entity_name : string) (e r : list (string * json))
  (pre post ns : list json) (kv : list (string * json)) :
  dict_has "error" (scrape_wikipedia env entity_name) = false ->
  enrich_entity_data env entity_name
    (with_news env entity_name (scrape_wikipedia env entity_name)) = JObj r ->
  dict_has "error" r = false ->
  load_entity_json env (entity_filepath entity_name) = Some (JObj e) ->
  dict_get "relationships" e = Some (JArr (pre ++ JObj kv :: post)) ->
  forallb keyed_entry pre = true ->
  dict_get "target" kv = None \/ dict_get "type" kv = None ->
  list_or_absent (fun _ => true) "subsidiaries" e = true ->
  list_or_absent (fun _ => true) "subsidiaries" r = true ->
  dict_get "relationships" r = Some (JArr ns) ->
  ns <> [] ->
  exists k,
    process_entity env entity_name true = (Raise (KeyError k), [])
    /\ (k = "target" \/ k = "type").
Proof.
  intros Hscrape Henrich Herr Hload He Hpre Hkv Hse Hsr Hr Hns.
  destruct (merge_key_error e r pre post ns kv He Hpre Hkv Hse Hsr Hr Hns)
    as (k & Hk & Hor).
  exists k. split; [|assumption].
  unfold process_entity. rewrite Hscrape, Hload.
  rewrite (finish_entity_unfold _ _ _ _ r Henrich), Herr.
  assert (Hne : e <> []) by (intros ->; discriminate).
  destruct e as [|kv0 e]; [contradiction|]. cbn [truthy].
  rewrite Hk. reflexivity.
Qed.

Lemma process_entity_blocked_by_stored_record_witness :
  exists k,
    process_entity
      (stocked (JObj [("name", JStr "Acme");
                      ("relationships", JArr [JObj [("target", JStr "Q")]])])
         relation_reply) "Acme" true
    = (Raise (KeyError k), [])
    /\ (k = "target" \/ k = "type").
Proof.
  apply (process_entity_blocked_by_stored_record
           (stocked (JObj [("name", JStr "Acme");
                           ("relationships",
                            JArr [JObj [("target", JStr "Q")]])])
              relation_reply) "Acme"
           [("name", JStr "Acme");
            ("relationships", JArr [JObj [("target", JStr "Q")]])]
           [("name", JStr "Acme"); ("relationships", JArr [rel "P" "owns"]);
            ("type", JNull); ("subsidiaries", JArr [])]
           [] [] [rel "P" "owns"] [("target", JStr "Q")]);
    try reflexivity.
  - now right.
  - discriminate.
Defined.

(** ** Adding an entity *)

Lemma process_entity_outcome (env : environment) (entity_name : string)
  (update_existing : bool) (res : result json) (writes : list write) :
  process_entity env entity_name update_existing = (res, writes) ->
  match res with
  | Ok r =>
      (py_in (JStr "error") r = Ok true /\ writes = [])
      \/ writes = [(entity_filepath entity_name, r)]
  | Raise _ => writes = []
  end.
Proof.
  unfold process_entity. intros H.
  destruct (dict_has "error" (scrape_wikipedia env entity_name)).
  - destruct (search_wikipedia env entity_name) as [|first_result rest].
    + injection H as <- <-. left. split; reflexivity.
    + destruct (dict_has "error" (scrape_wikipedia env (title first_result))).
      * injection H as <- <-. left. split; reflexivity.
      * now apply finish_entity_writes in H.
  - now apply finish_entity_writes in H.
Qed.

(** X16.  [add_entity] protects what is stored: without [force], a name
    whose file exists is refused at once (False, nothing processed, nothing
    saved), and no run without [force] ever saves to a path that exists;
    and whenever [add_entity] returns True, exactly one record was saved,
    under the key of the entity name. *)
Theorem add_entity_protects_store (env : environment)
  (path_exists : string -> bool) (entity_name : string) :
  (path_exists (entity_filepath entity_name) = true ->
   add_entity env path_exists entity_name false = (Ok false, []))
  /\ (forall res writes w,
        add_entity env path_exists entity_name false = (res, writes) ->
        In w writes -> path_exists (fst w) = false)
  /\ (forall force writes,
        add_entity env path_exists entity_name force = (Ok true, writes) ->
        exists r, writes = [(entity_filepath entity_name, r)]).
Proof.
  split; [|split].
  - intros Hex. unfold add_entity. now rewrite Hex.
  - intros res writes w H Hw. unfold add_entity in H.
    destruct (path_exists (entity_filepath entity_name)) eqn:Hex;
      cbn [negb andb] in H.
    + injection H as _ <-. contradiction.
    + destruct (process_entity env entity_name false) as [pres pwrites] eqn:Hp.
      injection H as _ <-.
      apply process_entity_outcome in Hp.
      destruct pres as [r|e].
      * destruct Hp as [[_ Hp]|Hp]; subst pwrites; [contradiction|].
        destruct Hw as [<-|[]]. exact Hex.
      * subst pwrites. contradiction.
  - intros force writes H. unfold add_entity in H.
    destruct (path_exists (entity_filepath entity_name) && negb force);
      [discriminate|].
    destruct (process_entity env entity_name force) as [pres pwrites] eqn:Hp.
    injection H as Hres <-.
    apply process_entity_outcome in Hp.
    destruct pres as [r|e]; [|discriminate]. cbn [bind] in Hres.
    destruct (py_in (JStr "error") r) as [[|]|e] eqn:Hin; cbn [bind] in Hres.
    + destruct (py_getitem r "error"); discriminate.
    + destruct Hp as [[Hyes _]|Hp]; [congruence|subst pwrites; eauto].
    + discriminate.
Qed.

Lemma add_entity_protects_store_witness :
  add_entity (replying plain_reply) (fun _ => true) "Acme" false
  = (Ok false, [])
  /\ exists r,
       [(entity_filepath "Acme",
         JObj [("name", JStr "Acme"); ("type", JStr "Payer");
               ("subsidiaries", JArr []); ("relationships", JArr [])])]
       = [(entity_filepath "Acme", r)].
Proof.
  split.
  - apply (proj1 (add_entity_protects_store (replying plain_reply)
                    (fun _ => true) "Acme")).
    reflexivity.
  - apply (proj2 (proj2 (add_entity_protects_store (replying plain_reply)
                           (fun _ => false) "Acme")) false).
    reflexivity.
Defined.

(** ** Relationship inference *)

Lemma match_bracket_balanced (inner post : string) :
  forall depth i,
    balanced_brackets inner depth = true ->
    match_bracket (inner ++ String "]" post) i (Z.of_nat depth + 1)
    = Some (S (i + String.length inner)).
Proof.
  induction inner as [|c inner IH]; intros depth i H.
  - cbn [balanced_brackets] in H. apply Nat.eqb_eq in H. subst depth.
    cbn. now rewrite Nat.add_0_r.
  - cbn [balanced_brackets] in H. cbn [append match_bracket String.length].
    destruct (Ascii.eqb c "[") eqn:Eo.
    + replace (Z.of_nat depth + 1 + 1)%Z with (Z.of_nat (S depth) + 1)%Z by lia.
      rewrite (IH _ _ H). f_equal. lia.
    + destruct (Ascii.eqb c "]") eqn:Ec.
      * destruct depth as [|d]; [discriminate|].
        replace (Z.of_nat (S d) + 1 - 1 =? 0)%Z with false
          by (symmetry; apply Z.eqb_neq; lia).
        replace (Z.of_nat (S d) + 1 - 1)%Z with (Z.of_nat d + 1)%Z by lia.
        rewrite (IH _ _ H). f_equal. lia.
      * rewrite (IH _ _ H). f_equal. lia.
Qed.

Lemma py_strip_bracketed (inner : string) :
  py_strip (bracketed inner) = bracketed inner.
Proof.
  unfold py_strip, bracketed. cbn [append lstrip].
  replace (is_space "[") with false by reflexivity.
  change (String "[" (inner ++ "]"))%string
    with (String "[" inner ++ String "]" "")%string.
  now apply rstrip_closing.
Qed.

Lemma array_text_of_bracketed (pre inner post : string) :
  substring_in fence (pre ++ bracketed inner ++ post) = false ->
  has_char "[" pre = false ->
  balanced_brackets inner 0 = true ->
  array_text_of (pre ++ bracketed inner ++ post) = bracketed inner.
Proof.
  intros Hfence Hpre Hbal. unfold array_text_of.
  assert (Hfj : substring_in fence_json (pre ++ bracketed inner ++ post) = false).
  { destruct (substring_in fence_json (pre ++ bracketed inner ++ post)) eqn:E;
      [|reflexivity].
    apply (substring_in_prefix fence "json") in E. congruence. }
  rewrite Hfj, Hfence.
  assert (Hshape : (pre ++ bracketed inner ++ post
                    = pre ++ String "[" (inner ++ String "]" post))%string).
  { unfold bracketed. cbn [append]. now rewrite append_assoc. }
  assert (Hfind : find_char "[" (pre ++ bracketed inner ++ post)
                  = Some (String.length pre)).
  { rewrite Hshape. now apply find_char_app. }
  assert (Hmatch : match_bracket
                     (drop (String.length pre) (pre ++ bracketed inner ++ post))
                     (String.length pre) 0
                   = Some (String.length pre + String.length (bracketed inner))).
  { rewrite Hshape, drop_app. cbn [match_bracket]. rewrite Ascii.eqb_refl.
    pose proof (match_bracket_balanced inner post 0 (S (String.length pre)) Hbal)
      as Hb.
    cbn [Z.of_nat] in Hb. rewrite Hb.
    f_equal. unfold bracketed. cbn [append String.length].
    rewrite length_append. cbn [String.length]. lia. }
  rewrite Hfind, Hmatch.
  replace (Nat.ltb (String.length pre)
             (String.length pre + String.length (bracketed inner)))
    with true
    by (symmetry; apply Nat.ltb_lt; unfold bracketed;
        cbn [append String.length]; lia).
  replace (String.length pre + String.length (bracketed inner)
           - String.length pre)
    with (String.length (bracketed inner)) by lia.
  rewrite substring_middle. apply py_strip_bracketed.
Qed.

(** X17.  Relationship inference on a reply without fences that holds an
    array with balanced brackets: whatever prose surrounds the array, the
    parser is given exactly the span from the first opening bracket to its
    matching closing bracket, and the function returns what the parser
    makes of it, or the entities it was given when the parser rejects it. *)
Theorem infer_relationships_reads_the_array (env : environment)
  (infer_reply : list json -> result string) (entities : list json)
  (pre inner post : string) :
  api_key_configured env = true ->
  infer_reply entities = Ok (pre ++ bracketed inner ++ post)%string ->
  substring_in fence (pre ++ bracketed inner ++ post) = false ->
  has_char "[" pre = false ->
  balanced_brackets inner 0 = true ->
  infer_relationships env infer_reply entities
  = match json_loads env (bracketed inner) with
    | Ok updated_entities => updated_entities
    | Raise _ => JArr entities
    end.
Proof.
  intros Hkey Hreply Hfence Hpre Hbal. unfold infer_relationships.
  rewrite Hkey, Hreply. cbn [negb bind].
  now rewrite (array_text_of_bracketed pre inner post Hfence Hpre Hbal).
Qed.

Lemma infer_relationships_reads_the_array_witness :
  infer_relationships (replying "") (fun _ => Ok array_reply) [JNull]
  = JArr [JObj [("name", JStr "Acme")]].
Proof.
  apply (infer_relationships_reads_the_array (replying "")
           (fun _ => Ok array_reply) [JNull] "Updated: " array_inner " done]");
    reflexivity.
Defined.

(** ** Inference over the store *)

Lemma save_entities_app (directory : string) (l1 l2 : list json) :
  forall writes,
    forallb well_named l1 = true ->
    save_entities directory (l1 ++ l2) writes
    = save_entities directory l2 (writes ++ named_writes directory l1).
Proof.
  induction l1 as [|entity l IH]; intros writes H.
  - cbn. now rewrite app_nil_r.
  - cbn [forallb] in H. apply andb_true_iff in H as [He Hl].
    rewrite <- app_comm_cons.
    change (named_writes directory (entity :: l))
      with (match saved_name entity with
            | Some s =>
                [((directory ++ "/" ++ entity_filename s ++ ".json")%string,
                  entity)]
            | None => []
            end ++ named_writes directory l).
    change (save_entities directory (entity :: l ++ l2) writes)
      with (match py_get entity "name" with
            | Raise e => (Raise e, writes)
            | Ok entity_name =>
                if negb (truthy entity_name)
                then save_entities directory (l ++ l2) writes
                else
                  match entity_name with
                  | JStr s =>
                      save_entities directory (l ++ l2)
                        (writes ++ [((directory ++ "/" ++ entity_filename s
                                        ++ ".json")%string, entity)])
                  | _ => (Raise AttributeError, writes)
                  end
            end).
    destruct entity as [| | | |?|kv]; try discriminate.
    cbn [py_get saved_name well_named] in *.
    destruct (dict_get "name" kv) as [v|].
    + destruct v as [|b|n|s|xs|kvs]; cbn [truthy negb app] in *.
      * now rewrite (IH _ Hl).
      * rewrite He. cbn [negb]. now rewrite (IH _ Hl).
      * rewrite He. cbn [negb]. now rewrite (IH _ Hl).
      * destruct (String.eqb s ""); cbn [negb app].
        -- now rewrite (IH _ Hl).
        -- rewrite (IH _ Hl). now rewrite <- app_assoc.
      * rewrite He. cbn [negb]. now rewrite (IH _ Hl).
      * rewrite He. cbn [negb]. now rewrite (IH _ Hl).
    + cbn [truthy negb app]. now rewrite (IH _ Hl).
Qed.

Lemma save_entities_well_named (directory : string) (l : list json)
  (writes : list write) :
  forallb well_named l = true ->
  save_entities directory l writes
  = (Ok tt, writes ++ named_writes directory l).
Proof.
  intros H. rewrite <- (app_nil_r l) at 1.
  now rewrite (save_entities_app directory l [] writes H).
Qed.

Lemma save_entities_bad (directory : string) (bad : json) (rest : list json)
  (writes : list write) :
  well_named bad = false ->
  save_entities directory (bad :: rest) writes = (Raise AttributeError, writes).
Proof.
  intros H. cbn [save_entities].
  destruct bad as [| | | |?|kv]; try reflexivity.
  cbn [py_get well_named] in *.
  destruct (dict_get "name" kv) as [v|]; [|discriminate].
  destruct v as [|b|n|s|xs|kvs]; try discriminate; cbn [truthy negb] in *;
    apply negb_false_iff in H; rewrite H; reflexivity.
Qed.

Lemma infer_entity_unfold (env : environment)
  (infer_reply : list json -> result string)
  (listdir : string -> option (list string)) (directory : string)
  (entities items : list json) :
  load_all_entities listdir (load_entity_json env) directory = entities ->
  entities <> [] ->
  infer_relationships env infer_reply entities = JArr items ->
  infer_entity_relationships env infer_reply listdir directory
  = (_ <- fst (save_entities directory items []) ;; Ok true,
     snd (save_entities directory items [])).
Proof.
  intros Hload Hne Hinf. unfold infer_entity_relationships.
  rewrite Hload. destruct entities as [|e es]; [congruence|].
  rewrite Hinf. cbn [py_iter].
  now destruct (save_entities directory items []).
Qed.

(** X18.  Inference over a non-empty store whose result is a list of
    objects, each unnamed or named by a string: the function returns True
    and writes exactly the named entities, each one whole under the file
    name made from its name, in order; the unnamed ones are skipped. *)
Theorem infer_entity_saves_named (env : environment)
  (infer_reply : list json -> result string)
  (listdir : string -> option (list string)) (directory : string)
  (e : json) (es items : list json) :
  load_all_entities listdir (load_entity_json env) directory = e :: es ->
  infer_relationships env infer_reply (e :: es) = JArr items ->
  forallb well_named items = true ->
  infer_entity_relationships env infer_reply listdir directory
  = (Ok true, named_writes directory items).
Proof.
  intros Hload Hinf Hwn.
  rewrite (infer_entity_unfold env infer_reply listdir directory _ items
             Hload ltac:(discriminate) Hinf).
  now rewrite (save_entities_well_named directory items [] Hwn).
Qed.

Lemma infer_entity_saves_named_witness :
  infer_entity_relationships (stocked acme_record "") (fun _ => Ok array_reply)
    acme_listing "data/entities"
  = (Ok true,
     [("data/entities/acme.json", JObj [("name", JStr "Acme")])]).
Proof.
  apply (infer_entity_saves_named (stocked acme_record "")
           (fun _ => Ok array_reply) acme_listing "data/entities"
           acme_record [] [JObj [("name", JStr "Acme")]]); reflexivity.
Defined.



(** X20.  The save loop stops with an AttributeError at the first item of
    the inferred list that is not an object, or whose name is a non-empty
    value other than a string; the items before it have been written by
    then, and nothing after it is. *)
Theorem infer_entity_stops_at_malformed (env : environment)
  (infer_reply : list json -> result string)
  (listdir : string -> option (list string)) (directory : string)
  (e : json) (es good rest : list json) (bad : json) :
  load_all_entities listdir (load_entity_json env) directory = e :: es ->
  infer_relationships env infer_reply (e :: es) = JArr (good ++ bad :: rest) ->
  forallb well_named good = true ->
  well_named bad = false ->
  infer_entity_relationships env infer_reply listdir directory
  = (Raise AttributeError, named_writes directory good).
Proof.
  intros Hload Hinf Hgood Hbad.
  rewrite (infer_entity_unfold env infer_reply listdir directory _
             (good ++ bad :: rest) Hload ltac:(discriminate) Hinf).
  rewrite (save_entities_app directory good (bad :: rest) [] Hgood).
  now rewrite (save_entities_bad directory bad rest _ Hbad).
Qed.

Lemma infer_entity_stops_at_malformed_witness :
  infer_entity_relationships (stocked acme_record "")
    (fun _ => Ok mixed_reply) acme_listing "data/entities"
  = (Raise AttributeError,
     [("data/entities/acme.json", JObj [("name", JStr "Acme")])]).
Proof.
  apply (infer_entity_stops_at_malformed (stocked acme_record "")
           (fun _ => Ok mixed_reply) acme_listing "data/entities"
           acme_record [] [JObj [("name", JStr "Acme")]]
           [JObj [("name", JStr "Late")]] (JInt 7)); reflexivity.
Defined.

(** ** Loading a directory *)


(** ** The batch report *)











(** The report of a run of three names, the second one unresolvable. *)
Example report_of_three :
  batch_update_main (fun _ => "error")
    (fun _ name update =>
       fst (process_entity (all_but "E2" plain_reply) name update))
    (@List.rev outcome) ["E1"; "E2"; "E3"] false (Some "report.csv")
  = (1%Z,
     Some ("report.csv",
           [header_row; success_row "E1"; success_row "E3";
            failure_row ("E2", JStr "Could not find Wikipedia data for E2")])).
Proof. vm_compute. reflexivity. Qed.
